(** * gpu-finder: a shallow embedding of [gpu-finder.py] and its properties

    The program probes the zones of a cloud compute provider for capacity of
    one (machine type, accelerator type, accelerator count) combination by
    creating trial instances and deleting them again.

    The provider is an external service.  It is embedded as an oracle
    ([Provider]) giving the answer to each request, and a computation yields,
    with its outcome, the log of the requests it sent to the provider, so that
    orderings ("before any call", "before the next region") are statements
    about that log.  The two [while True] status-poll loops are the only loops
    of the program that need not terminate; they take a fuel argument and
    yield [OutOfFuel] when it is exhausted. *)

From Stdlib Require Import ZArith List String Ascii Bool Lia Arith.
From Stdlib Require Import DecimalNat DecimalString.
Import ListNotations.
Open Scope string_scope.
Open Scope Z_scope.
Open Scope list_scope.

(** String concatenation, Python's [+] on [str]. *)
Infix "+++" := String.append (right associativity, at level 60).

(** ** Python built-ins used by the program *)

Module Py.

(** [s.startswith(p)] *)
Definition startswith (s p : string) : bool := String.prefix p s.

(** [s.find(sub)]: lowest index of [sub] in [s], or [-1]. *)
Definition find (s sub : string) : Z :=
  match String.index 0 sub s with
  | Some i => Z.of_nat i
  | None => -1
  end.

Definition len (s : string) : Z := Z.of_nat (String.length s).

(** Normalisation of one bound of a slice: a negative bound counts from the
    end, and both are clamped to [0 .. len]. *)
Definition clamp (n i : Z) : Z :=
  if i <? 0 then Z.max 0 (i + n) else Z.min i n.

(** [s[start:stop]] *)
Definition slice (s : string) (start stop : Z) : string :=
  let a := clamp (len s) start in
  let b := clamp (len s) stop in
  String.substring (Z.to_nat a) (Z.to_nat (b - a)) s.

(** Whitespace stripped by [int()] (the ASCII part of it). *)
Definition isspace (c : ascii) : bool :=
  let n := nat_of_ascii c in
  (((9 <=? n) && (n <=? 13)) || ((28 <=? n) && (n <=? 32)))%nat.

Definition isdigit (c : ascii) : bool :=
  let n := nat_of_ascii c in ((48 <=? n) && (n <=? 57))%nat.

Definition digit_value (c : ascii) : Z := Z.of_nat (nat_of_ascii c) - 48.

Fixpoint lstrip (s : string) : string :=
  match s with
  | String c r => if isspace c then lstrip r else s
  | EmptyString => EmptyString
  end.

Fixpoint rstrip (s : string) : string :=
  match s with
  | EmptyString => EmptyString
  | String c r =>
      match rstrip r with
      | EmptyString => if isspace c then EmptyString else String c EmptyString
      | r' => String c r'
      end
  end.

Definition strip (s : string) : string := rstrip (lstrip s).

(** Decimal digits, with single underscores allowed between digits.
    [after_digit] tells whether the previous character was a digit. *)
Fixpoint digits (acc : Z) (after_digit : bool) (s : string) : option Z :=
  match s with
  | EmptyString => if after_digit then Some acc else None
  | String c r =>
      if isdigit c then digits (10 * acc + digit_value c) true r
      else if (Ascii.eqb c "_" && after_digit)%bool then
             match r with
             | EmptyString => None
             | _ => digits acc false r
             end
      else None
  end.

(** [int(s)] in base ten; [None] stands for [ValueError]. *)
Definition int (s : string) : option Z :=
  match strip s with
  | String "+" r => digits 0 false r
  | String "-" r => option_map Z.opp (digits 0 false r)
  | t => digits 0 false t
  end.

(** [str(n)] for a natural number [n]. *)
Definition str (n : nat) : string := NilEmpty.string_of_uint (Nat.to_uint n).

End Py.

(** ** Data model *)

(** The [instance_config] block of the configuration file. *)
Record InstanceConfig := {
  ic_name : string;
  ic_machine_type : string;
  ic_gpu_type : string;
  ic_number_of_gpus : Z;
  ic_disk_type : string;
  ic_disk_size : Z;
  ic_image_project : string;
  ic_image_family : string;
  ic_firewall_rules : list string;
  ic_network : string;
  ic_service_account_email : string;
  ic_scopes : string;
  ic_zone : list string
}.

Record Config := {
  project_id : string;
  instance_config : InstanceConfig;
  number_of_instances : Z
}.

(** Items of the provider's listings. *)
Record Zone := { zone_name : string; zone_status : string }.

Record Accelerator := {
  guestAcceleratorType : string;
  guestAcceleratorCount : Z
}.

Record MachineType := {
  mt_name : string;
  mt_guestCpus : Z;
  mt_description : string;
  mt_accelerators : option (list Accelerator)   (* the key may be absent *)
}.

Record AcceleratorType := {
  at_name : string;
  at_description : string;
  at_maximumCardsPerInstance : Z
}.

(** A long-running operation as returned by [zoneOperations().get]. *)
Record ErrorItem := { code : string; message : string }.
Record OperationError := { errors : list ErrorItem }.
Record Operation := {
  op_status : string;
  op_error : option OperationError              (* the key may be absent *)
}.

(** The dictionaries built by the program. *)
Record ZoneInfo := { zi_region : string; zi_zone : string }.

Record CapableZone := {
  cz_machine_type : string;
  cz_region : string;
  cz_zone : string;
  cz_guest_cpus : Z;
  cz_description : string;
  cz_accelerators : option (list Accelerator)
}.

Record QuotaZone := {
  qz_region : string;
  qz_zone : string;
  qz_machine_type : string;
  qz_guest_cpus : Z;
  qz_name : string;
  qz_description : string;
  qz_maximum_gpus : Z          (* "maximum number of GPUs per instance" *)
}.

Record InstanceDetails := { id_name : string; id_zone : string }.

(** The fields of the instance specification that depend on the inputs; the
    remaining fields of the request body are constants. *)
Record InstanceBody := {
  body_name : string;
  body_machineType : string;
  body_deviceName : string;
  body_sourceImage : string;
  body_diskType : string;
  body_diskSizeGb : Z;
  body_acceleratorCount : Z;
  body_acceleratorType : string;
  body_tags : list string;
  body_network : string;
  body_email : string;
  body_scopes : list string
}.

Record RegionSummary := {
  rs_region : string;
  rs_zones_attempted : list QuotaZone;
  rs_instances_created : list InstanceDetails
}.

(** ** The provider *)

(** A paginated listing: the first request always yields a page, and
    [list_next] yields one further request per remaining page. *)
Record Pages (A : Type) := { first_page : A; more_pages : list A }.
Arguments first_page {A} _.
Arguments more_pages {A} _.

Definition all_pages {A} (p : Pages A) : list A := first_page p :: more_pages p.

Record Provider := {
  (** [zones().list(project)]: the [items] of each page *)
  zones_list : string -> Pages (list Zone);
  (** [machineTypes().list(project, zone)] *)
  machineTypes_list : string -> string -> Pages (list MachineType);
  (** [acceleratorTypes().list(project, zone)]; a page may lack [items] *)
  acceleratorTypes_list : string -> string -> Pages (option (list AcceleratorType));
  (** [images().getFromFamily(project, family)]: the image's [selfLink] *)
  images_getFromFamily : string -> string -> string;
  (** [instances().insert(project, zone, body)]: the operation's [name] *)
  instances_insert : string -> string -> InstanceBody -> string;
  (** [instances().delete(project, zone, instance)]: the operation's [name] *)
  instances_delete : string -> string -> string -> string;
  (** [zoneOperations().get(project, zone, operation)]: the answer to the
      [k]-th status fetch of the loop polling that operation *)
  zoneOperations_get : string -> string -> string -> nat -> Operation
}.

(** One entry of the log per request sent to the provider. *)
Inductive Event :=
| EvZonesList (project : string) (page : nat)
| EvMachineTypesList (project zone : string) (page : nat)
| EvAcceleratorTypesList (project zone : string) (page : nat)
| EvImagesGetFromFamily (project family : string)
| EvInstancesInsert (project zone : string) (body : InstanceBody)
| EvInstancesDelete (project zone instance : string)
| EvZoneOperationsGet (project zone operation : string) (result : Operation).

(** ** Exceptions and the monad of the program *)

Inductive exn :=
| Exception (msg : string)                   (* [raise Exception("...")] *)
| OperationException (e : OperationError)    (* [raise Exception(result['error'])] *)
| ValueError (literal : string)              (* [int()] on a malformed literal *)
| IndexError.                                (* [l[0]] on an empty list *)

Inductive Outcome (A : Type) :=
| Ok (a : A)
| Raise (e : exn)
| OutOfFuel.
Arguments Ok {A} _.
Arguments Raise {A} _.
Arguments OutOfFuel {A}.

Definition Log := list Event.

(** A computation yields its outcome and the requests it sent, in order.
    The program never inspects the log: it is written only. *)
Definition M (A : Type) : Type := (Outcome A * Log)%type.

Definition ret {A} (a : A) : M A := (Ok a, []).

Definition bind {A B} (m : M A) (k : A -> M B) : M B :=
  match m with
  | (Ok a, l) => let (o, l') := k a in (o, l ++ l')
  | (Raise e, l) => (Raise e, l)
  | (OutOfFuel, l) => (OutOfFuel, l)
  end.

Definition raise {A} (e : exn) : M A := (Raise e, []).

(** Sending one request to the provider. *)
Definition call (e : Event) : M unit := (Ok tt, [e]).

Definition lift {A} (o : Outcome A) : M A := (o, []).

Declare Scope prog_scope.
Delimit Scope prog_scope with prog.
Notation "x <- m ;; k" := (bind m (fun x => k))
  (at level 61, m at next level, right associativity) : prog_scope.
Notation "m ;;; k" := (bind m (fun _ => k))
  (at level 61, right associativity) : prog_scope.
Open Scope prog_scope.

(** ** The program *)

Definition mismatch_message : string :=
  "Please match the number of GPUs parameter with the correct machine type in the config file".

(** The slice of the machine type that [check_gpu_config] hands to [int()]. *)
Definition gpus_in_machine_type (machine_type : string) : string :=
  Py.slice machine_type (Py.find machine_type "highgpu" + 8)
           (Py.len machine_type - 1).

Definition check_gpu_config (config : Config) : Outcome unit :=
  let machine_type := ic_machine_type (instance_config config) in
  if Py.startswith machine_type "a2" then
    let number_of_gpus_requested := ic_number_of_gpus (instance_config config) in
    match Py.int (gpus_in_machine_type machine_type) with
    | None => Raise (ValueError (gpus_in_machine_type machine_type))
    | Some n =>
        if negb (number_of_gpus_requested =? n)
        then Raise (Exception mismatch_message)
        else Ok tt
    end
  else Ok tt.

(** [zone['name'][0:len(zone['name'])-2]] *)
Definition region_of (name : string) : string :=
  Py.slice name 0 (Py.len name - 2).

Section Program.

Variable compute : Provider.

(** *** [get_zone_info] *)

(** The [for zone in response['items']] loop of [get_zone_info]. *)
Fixpoint zone_items (items : list Zone) (zone_list : list ZoneInfo)
  : list ZoneInfo :=
  match items with
  | [] => zone_list
  | zone :: rest =>
      if String.eqb (zone_status zone) "UP"
      then zone_items rest
             (zone_list ++ [ {| zi_region := region_of (zone_name zone);
                                zi_zone := zone_name zone |} ])
      else zone_items rest zone_list
  end.

(** The [while request is not None] loop: one request per page. *)
Fixpoint zone_pages (project : string) (pages : list (list Zone)) (n : nat)
    (zone_list : list ZoneInfo) : M (list ZoneInfo) :=
  match pages with
  | [] => ret zone_list
  | response :: next =>
      call (EvZonesList project n) ;;;
      zone_pages project next (S n) (zone_items response zone_list)
  end.

Definition get_zone_info (project : string) : M (list ZoneInfo) :=
  zone_pages project (all_pages (zones_list compute project)) 0 [].

(** *** [check_machine_type_and_accelerator] *)

Definition with_accelerators (zone : ZoneInfo) (machine : MachineType)
    (accelerators : list Accelerator) : CapableZone :=
  {| cz_machine_type := mt_name machine;
     cz_region := zi_region zone;
     cz_zone := zi_zone zone;
     cz_guest_cpus := mt_guestCpus machine;
     cz_description := mt_description machine;
     cz_accelerators := Some accelerators |}.

Definition without_accelerators (zone : ZoneInfo) (machine : MachineType)
  : CapableZone :=
  {| cz_machine_type := mt_name machine;
     cz_region := zi_region zone;
     cz_zone := zi_zone zone;
     cz_guest_cpus := mt_guestCpus machine;
     cz_description := mt_description machine;
     cz_accelerators := None |}.

(** The test of the [if]: ['accelerators' in machine and machine['name'] ==
    machine_type and machine['accelerators'][0]['guestAcceleratorType'] ==
    gpu_type], evaluated left to right; [machine['accelerators'][0]] raises
    on an empty list. *)
Definition paired_with (machine_type gpu_type : string) (machine : MachineType)
  : Outcome (option (list Accelerator)) :=
  match mt_accelerators machine with
  | None => Ok None
  | Some accelerators =>
      if String.eqb (mt_name machine) machine_type then
        match accelerators with
        | [] => Raise IndexError
        | a :: _ =>
            if String.eqb (guestAcceleratorType a) gpu_type
            then Ok (Some accelerators) else Ok None
        end
      else Ok None
  end.

(** The [for machine in response['items']] loop. *)
Fixpoint machine_items (machine_type gpu_type : string) (zone : ZoneInfo)
    (items : list MachineType) (available_zones : list CapableZone)
  : Outcome (list CapableZone) :=
  match items with
  | [] => Ok available_zones
  | machine :: rest =>
      match paired_with machine_type gpu_type machine with
      | Raise e => Raise e
      | OutOfFuel => OutOfFuel
      | Ok (Some accelerators) =>
          machine_items machine_type gpu_type zone rest
            (available_zones ++ [with_accelerators zone machine accelerators])
      | Ok None =>
          if String.eqb (mt_name machine) machine_type
          then machine_items machine_type gpu_type zone rest
                 (available_zones ++ [without_accelerators zone machine])
          else machine_items machine_type gpu_type zone rest available_zones
      end
  end.

Fixpoint machine_pages (project machine_type gpu_type : string)
    (zone : ZoneInfo) (pages : list (list MachineType)) (n : nat)
    (available_zones : list CapableZone) : M (list CapableZone) :=
  match pages with
  | [] => ret available_zones
  | response :: next =>
      call (EvMachineTypesList project (zi_zone zone) n) ;;;
      available_zones' <-
        lift (machine_items machine_type gpu_type zone response available_zones) ;;
      machine_pages project machine_type gpu_type zone next (S n) available_zones'
  end.

(** The [for zone in zone_list] loop. *)
Fixpoint machine_zones (project machine_type gpu_type : string)
    (zone_list : list ZoneInfo) (available_zones : list CapableZone)
  : M (list CapableZone) :=
  match zone_list with
  | [] => ret available_zones
  | zone :: rest =>
      available_zones' <-
        machine_pages project machine_type gpu_type zone
          (all_pages (machineTypes_list compute project (zi_zone zone))) 0
          available_zones ;;
      machine_zones project machine_type gpu_type rest available_zones'
  end.

Definition check_machine_type_and_accelerator
    (project machine_type gpu_type : string) (zones : list ZoneInfo)
  : M (list CapableZone) :=
  available_zones <- machine_zones project machine_type gpu_type zones [] ;;
  match available_zones with
  | [] => raise (Exception ("No machine types of " +++ machine_type
                            +++ " are available"))
  | _ => ret available_zones
  end.

(** *** [get_accelerator_quota] *)

Definition accelerator_dict (i : CapableZone) (accelerator : AcceleratorType)
  : QuotaZone :=
  {| qz_region := cz_region i;
     qz_zone := cz_zone i;
     qz_machine_type := cz_machine_type i;
     qz_guest_cpus := cz_guest_cpus i;
     qz_name := at_name accelerator;
     qz_description := at_description accelerator;
     qz_maximum_gpus := at_maximumCardsPerInstance accelerator |}.

(** The [for accelerator in response['items']] loop. *)
Fixpoint accelerator_items (config : Config) (requested_gpus : Z)
    (i : CapableZone) (items : list AcceleratorType)
    (accelerator_list : list QuotaZone) : list QuotaZone :=
  match items with
  | [] => accelerator_list
  | accelerator :: rest =>
      if String.eqb (at_name accelerator) (ic_gpu_type (instance_config config))
      then
        if requested_gpus <=? at_maximumCardsPerInstance accelerator
        then accelerator_items config requested_gpus i rest
               (accelerator_list ++ [accelerator_dict i accelerator])
        else accelerator_items config requested_gpus i rest accelerator_list
      else accelerator_items config requested_gpus i rest accelerator_list
  end.

Fixpoint accelerator_pages (project : string) (config : Config)
    (requested_gpus : Z) (i : CapableZone)
    (pages : list (option (list AcceleratorType))) (n : nat)
    (accelerator_list : list QuotaZone) : M (list QuotaZone) :=
  match pages with
  | [] => ret accelerator_list
  | response :: next =>
      call (EvAcceleratorTypesList project (cz_zone i) n) ;;;
      accelerator_pages project config requested_gpus i next (S n)
        match response with
        | Some items =>
            accelerator_items config requested_gpus i items accelerator_list
        | None => accelerator_list
        end
  end.

Fixpoint accelerator_zones (project : string) (config : Config)
    (requested_gpus : Z) (zone_list : list CapableZone)
    (accelerator_list : list QuotaZone) : M (list QuotaZone) :=
  match zone_list with
  | [] => ret accelerator_list
  | i :: rest =>
      accelerator_list' <-
        accelerator_pages project config requested_gpus i
          (all_pages (acceleratorTypes_list compute project (cz_zone i))) 0
          accelerator_list ;;
      accelerator_zones project config requested_gpus rest accelerator_list'
  end.

Definition get_accelerator_quota (project : string) (config : Config)
    (zone : list CapableZone) (requested_gpus : Z) : M (list QuotaZone) :=
  accelerator_list <-
    accelerator_zones project config requested_gpus zone [] ;;
  match accelerator_list with
  | [] => raise (Exception
             ("No accelerator types of " +++ ic_gpu_type (instance_config config)
              +++ " are available with "
              +++ ic_machine_type (instance_config config)
              +++ " in any zone, or wrong number of GPUs requested"))
  | _ => ret accelerator_list
  end.

(** *** [create_single_instance] *)

Definition instance_body (instance_name project : string)
    (compute_config : Config) (zone : string) (source_disk_image : string)
  : InstanceBody :=
  let ic := instance_config compute_config in
  {| body_name := instance_name;
     body_machineType :=
       "zones/" +++ zone +++ "/machineTypes/" +++ ic_machine_type ic;
     body_deviceName := ic_name ic;
     body_sourceImage := source_disk_image;
     body_diskType :=
       "projects/" +++ project +++ "/zones/" +++ zone +++ "/diskTypes/"
       +++ ic_disk_type ic;
     body_diskSizeGb := ic_disk_size ic;
     body_acceleratorCount := ic_number_of_gpus ic;
     body_acceleratorType :=
       "zones/" +++ zone +++ "/acceleratorTypes/" +++ ic_gpu_type ic;
     body_tags := ic_firewall_rules ic;
     body_network := ic_network ic;
     body_email := ic_service_account_email ic;
     body_scopes := [ic_scopes ic] |}.

(** The error codes after which the next zone is tried. *)
Definition capacity_code (c : string) : bool :=
  String.eqb c "QUOTA_EXCEEDED"
  || String.eqb c "ZONE_RESOURCE_POOL_EXHAUSTED_WITH_DETAILS"
  || String.eqb c "ZONE_RESOURCE_POOL_EXHAUSTED".

(** What [create_single_instance] does with an operation that is [DONE]. *)
Definition create_done (instance_name zone : string) (result : Operation)
  : Outcome (option InstanceDetails) :=
  match op_error result with
  | Some error =>
      match errors error with
      | [] => Raise IndexError
      | first :: _ =>
          if capacity_code (code first) then Ok None
          else Raise (OperationException error)
      end
  | None => Ok (Some {| id_name := instance_name; id_zone := zone |})
  end.

(** The [while True] loop of [create_single_instance]; [k] counts the status
    fetches made so far. *)
Fixpoint create_poll (fuel : nat) (instance_name project zone operation : string)
    (k : nat) : M (option InstanceDetails) :=
  match fuel with
  | O => lift OutOfFuel
  | S fuel' =>
      let result := zoneOperations_get compute project zone operation k in
      call (EvZoneOperationsGet project zone operation result) ;;;
      if String.eqb (op_status result) "DONE"
      then lift (create_done instance_name zone result)
      else create_poll fuel' instance_name project zone operation (S k)
  end.

Definition create_single_instance (fuel : nat) (instance_name project : string)
    (compute_config : Config) (zone_config : QuotaZone)
  : M (option InstanceDetails) :=
  let ic := instance_config compute_config in
  let zone := qz_zone zone_config in
  call (EvImagesGetFromFamily (ic_image_project ic) (ic_image_family ic)) ;;;
  let source_disk_image :=
    images_getFromFamily compute (ic_image_project ic) (ic_image_family ic) in
  let config :=
    instance_body instance_name project compute_config zone source_disk_image in
  call (EvInstancesInsert project zone config) ;;;
  let operation := instances_insert compute project zone config in
  create_poll fuel instance_name project zone operation 0.

(** *** [create_instances] *)

Definition instance_name_of (base : string) (ordinal : nat) (zone : string)
  : string :=
  base +++ "-" +++ Py.str ordinal +++ "-" +++ zone.

(** The [for zone in zone_list] loop, from the current [created_instances]. *)
Fixpoint create_loop (fuel : nat) (project : string) (compute_config : Config)
    (zone_list : list QuotaZone) (created_instances : list InstanceDetails)
  : M (list InstanceDetails) :=
  match zone_list with
  | [] => ret created_instances
  | zone :: rest =>
      let instance_name :=
        instance_name_of (ic_name (instance_config compute_config))
          (List.length created_instances + 1)%nat (qz_zone zone) in
      instance_detail <-
        create_single_instance fuel instance_name project compute_config zone ;;
      let created_instances' :=
        match instance_detail with
        | Some d => created_instances ++ [d]
        | None => created_instances
        end in
      if Z.of_nat (List.length created_instances') >=? number_of_instances compute_config
      then ret created_instances'
      else create_loop fuel project compute_config rest created_instances'
  end.

Definition create_instances (fuel : nat) (project : string)
    (compute_config : Config) (zone_list : list QuotaZone)
  : M (list InstanceDetails) :=
  create_loop fuel project compute_config zone_list [].

(** *** [delete_instances] *)

(** The [while True] loop of [delete_instances]. *)
Fixpoint delete_poll (fuel : nat) (project zone operation : string) (k : nat)
  : M unit :=
  match fuel with
  | O => lift OutOfFuel
  | S fuel' =>
      let result := zoneOperations_get compute project zone operation k in
      call (EvZoneOperationsGet project zone operation result) ;;;
      if String.eqb (op_status result) "DONE"
      then match op_error result with
           | Some error => raise (OperationException error)
           | None => ret tt
           end
      else delete_poll fuel' project zone operation (S k)
  end.

Fixpoint delete_instances (fuel : nat) (project : string)
    (instances : list InstanceDetails) : M unit :=
  match instances with
  | [] => ret tt
  | instance :: rest =>
      let zone := id_zone instance in
      let name := id_name instance in
      call (EvInstancesDelete project zone name) ;;;
      let operation := instances_delete compute project zone name in
      delete_poll fuel project zone operation 0 ;;;
      delete_instances fuel project rest
  end.

(** *** [main] *)

Definition Regional := list (string * list QuotaZone).

(** [regional_zone_lists[region]]'s update for one zone; the dictionary keeps
    its keys in insertion order. *)
Fixpoint regional_add (z : QuotaZone) (d : Regional) : Regional :=
  match d with
  | [] => [(qz_region z, [z])]
  | (region, zones) :: d' =>
      if String.eqb region (qz_region z)
      then (region, zones ++ [z]) :: d'
      else (region, zones) :: regional_add z d'
  end.

Definition group_by_region (zones_in_quota : list QuotaZone) : Regional :=
  fold_left (fun d z => regional_add z d) zones_in_quota [].

(** The [for region, zones in regional_zone_lists.items()] loop. *)
Fixpoint regions_loop (fuel : nat) (gpu_config : Config) (groups : Regional)
    (regional_summary : list RegionSummary) : M (list RegionSummary) :=
  match groups with
  | [] => ret regional_summary
  | (region, zones) :: rest =>
      instance_details <-
        create_instances fuel (project_id gpu_config) gpu_config zones ;;
      match instance_details with
      | [] => ret tt
      | _ => delete_instances fuel (project_id gpu_config) instance_details
      end ;;;
      regions_loop fuel gpu_config rest
        (regional_summary ++
           [ {| rs_region := region;
                rs_zones_attempted := zones;
                rs_instances_created := instance_details |} ])
  end.

Definition table_data (regional_summary : list RegionSummary)
  : list (string * string * string) :=
  flat_map (fun entry =>
              map (fun instance =>
                     (rs_region entry, id_name instance, id_zone instance))
                  (rs_instances_created entry))
           regional_summary.

Definition mem (s : string) (l : list string) : bool :=
  existsb (String.eqb s) l.

(** The zones surveyed, the first statements of [main]. *)
Definition compute_zones (gpu_config : Config) : M (list ZoneInfo) :=
  match ic_zone (instance_config gpu_config) with
  | [] => get_zone_info (project_id gpu_config)
  | selected =>
      zone_info <- get_zone_info (project_id gpu_config) ;;
      ret (filter (fun z => mem (zi_zone z) selected) zone_info)
  end.

(** [main] returns the rows of the table it prints. *)
Definition main (fuel : nat) (gpu_config : Config)
  : M (list (string * string * string)) :=
  let ic := instance_config gpu_config in
  zones <- compute_zones gpu_config ;;
  lift (check_gpu_config gpu_config) ;;;
  available_zones <-
    check_machine_type_and_accelerator (project_id gpu_config)
      (ic_machine_type ic) (ic_gpu_type ic) zones ;;
  zones_in_quota <-
    get_accelerator_quota (project_id gpu_config) gpu_config available_zones
      (ic_number_of_gpus ic) ;;
  regional_summary <-
    regions_loop fuel gpu_config (group_by_region zones_in_quota) [] ;;
  ret (table_data regional_summary).

End Program.

(** ** A provider and configurations to run the program on *)

Module Sample.

Definition up (name : string) : Zone :=
  {| zone_name := name; zone_status := "UP" |}.

Definition a100 : Accelerator :=
  {| guestAcceleratorType := "nvidia-tesla-a100"; guestAcceleratorCount := 1 |}.

Definition machines : list MachineType :=
  [ {| mt_name := "a2-highgpu-1g"; mt_guestCpus := 12;
       mt_description := "Accelerator Optimized: 1 NVIDIA Tesla A100 GPU";
       mt_accelerators := Some [a100] |};
    {| mt_name := "n1-standard-4"; mt_guestCpus := 4;
       mt_description := "4 vCPUs, 15 GB RAM";
       mt_accelerators := None |} ].

Definition accelerators : list AcceleratorType :=
  [ {| at_name := "nvidia-tesla-a100"; at_description := "NVIDIA A100 40GB";
       at_maximumCardsPerInstance := 16 |};
    {| at_name := "nvidia-tesla-t4"; at_description := "NVIDIA T4";
       at_maximumCardsPerInstance := 4 |} ].

Definition quota_error : OperationError :=
  {| errors := [ {| code := "QUOTA_EXCEEDED";
                    message := "Quota 'NVIDIA_A100_GPUS' exceeded." |} ] |}.

Definition permission_error : OperationError :=
  {| errors := [ {| code := "PERMISSION_DENIED";
                    message := "Required permission is missing." |} ] |}.

Definition running : Operation :=
  {| op_status := "RUNNING"; op_error := None |}.

Definition finished : Operation :=
  {| op_status := "DONE"; op_error := None |}.

Definition failed (error : OperationError) : Operation :=
  {| op_status := "DONE"; op_error := Some error |}.

(** Three regions; creation runs out of quota in [us-central1-a] and is
    refused in [asia-east1-a]; every other operation completes at the
    second status fetch. *)
Definition provider : Provider :=
  {| zones_list := fun _ =>
       {| first_page := [up "us-central1-a"; up "us-central1-b";
                         up "us-central1-c"];
          more_pages := [[up "europe-west4-a";
                          {| zone_name := "europe-west4-b";
                             zone_status := "DOWN" |};
                          up "asia-east1-a"]] |};
     machineTypes_list := fun _ _ =>
       {| first_page := machines; more_pages := [] |};
     acceleratorTypes_list := fun _ _ =>
       {| first_page := Some accelerators; more_pages := [None] |};
     images_getFromFamily := fun project family =>
       "projects/" +++ project +++ "/global/images/family/" +++ family;
     instances_insert := fun _ _ body => "insert-" +++ body_name body;
     instances_delete := fun _ _ instance => "delete-" +++ instance;
     zoneOperations_get := fun _ zone operation k =>
       if String.prefix "delete-" operation then
         if (k =? 0)%nat then running else finished
       else if String.eqb zone "us-central1-a" then
         if (k <? 2)%nat then running else failed quota_error
       else if String.eqb zone "asia-east1-a" then failed permission_error
       else if (k =? 0)%nat then running else finished |}.

Definition config (machine_type : string) (number_of_gpus : Z)
    (instances : Z) (zones : list string) : Config :=
  {| project_id := "demo";
     instance_config :=
       {| ic_name := "probe";
          ic_machine_type := machine_type;
          ic_gpu_type := "nvidia-tesla-a100";
          ic_number_of_gpus := number_of_gpus;
          ic_disk_type := "pd-ssd";
          ic_disk_size := 50;
          ic_image_project := "deeplearning-platform-release";
          ic_image_family := "common-cu113";
          ic_firewall_rules := ["http-server"];
          ic_network := "global/networks/default";
          ic_service_account_email := "default";
          ic_scopes := "https://www.googleapis.com/auth/cloud-platform";
          ic_zone := zones |};
     number_of_instances := instances |}.

Definition zone_info (zone : string) : ZoneInfo :=
  {| zi_region := region_of zone; zi_zone := zone |}.

Definition capable_zone (zone : string) : CapableZone :=
  {| cz_machine_type := "a2-highgpu-1g";
     cz_region := region_of zone;
     cz_zone := zone;
     cz_guest_cpus := 12;
     cz_description := "Accelerator Optimized: 1 NVIDIA Tesla A100 GPU";
     cz_accelerators := Some [a100] |}.

Definition quota_zone (zone : string) : QuotaZone :=
  {| qz_region := region_of zone;
     qz_zone := zone;
     qz_machine_type := "a2-highgpu-1g";
     qz_guest_cpus := 12;
     qz_name := "nvidia-tesla-a100";
     qz_description := "NVIDIA A100 40GB";
     qz_maximum_gpus := 16 |}.

End Sample.

(** * Properties *)

(** ** Strings and the Python built-ins *)

Lemma length_append (a b : string) :
  String.length (a +++ b) = (String.length a + String.length b)%nat.
Proof. induction a as [|c a IH]; simpl; [reflexivity | now rewrite IH]. Qed.

Lemma substring_append_left (a b : string) :
  substring 0 (String.length a) (a +++ b) = a.
Proof.
  induction a as [|c a IH]; simpl.
  - now destruct b.
  - now rewrite IH.
Qed.

Lemma substring_append_right (a b : string) (n : nat) :
  substring (String.length a) n (a +++ b) = substring 0 n b.
Proof. induction a as [|c a IH]; simpl; [reflexivity | exact IH]. Qed.

(** Cutting a string at any position and gluing the parts gives it back. *)
Lemma substring_split (s : string) (n m : nat) :
  (String.length s <= n + m)%nat ->
  s = substring 0 n s +++ substring n m s.
Proof.
  revert n m; induction s as [|c s IH]; intros n m H.
  - destruct n, m; reflexivity.
  - destruct n as [|n]; simpl.
    + destruct m as [|m]; simpl in *; [lia|].
      f_equal. specialize (IH 0%nat m). simpl in IH.
      assert (E : substring 0 0 s = "") by now destruct s.
      rewrite E in IH. simpl in IH. apply IH. lia.
    + f_equal. apply IH. simpl in H. lia.
Qed.

Lemma length_substring_0 (s : string) (n : nat) :
  (n <= String.length s)%nat -> String.length (substring 0 n s) = n.
Proof.
  revert n; induction s as [|c s IH]; intros [|n] H; simpl in *;
    try reflexivity; try lia.
  f_equal. apply IH. lia.
Qed.

(** [region_of] written with natural-number positions. *)
Lemma region_of_substring (name : string) :
  region_of name = substring 0 (String.length name - 2) name.
Proof.
  unfold region_of, Py.slice, Py.clamp, Py.len.
  change (0 <? 0) with false. cbv iota.
  destruct (Z.ltb_spec (Z.of_nat (String.length name) - 2) 0) as [H|H].
  - replace (String.length name - 2)%nat with 0%nat by lia.
    replace (Z.to_nat (Z.max 0 (Z.of_nat (String.length name) - 2
                                + Z.of_nat (String.length name))
                       - Z.min 0 (Z.of_nat (String.length name)))) with 0%nat
      by lia.
    replace (Z.to_nat (Z.min 0 (Z.of_nat (String.length name)))) with 0%nat
      by lia.
    reflexivity.
  - f_equal; lia.
Qed.

(** ** Reasoning about computations *)

Lemma bind_ok {A B} (m : M A) (k : A -> M B) (l : Log) (b : B) :
  bind m k = (Ok b, l) ->
  exists a l1 l2, m = (Ok a, l1) /\ k a = (Ok b, l2) /\ l = l1 ++ l2.
Proof.
  unfold bind. destruct m as [[a|e|] l1]; try discriminate.
  destruct (k a) as [o l2] eqn:K. intros H. injection H as -> <-.
  now exists a, l1, l2.
Qed.

Lemma bind_run {A B} (m : M A) (k : A -> M B) (l1 : Log) (a : A) :
  m = (Ok a, l1) -> bind m k = (fst (k a), l1 ++ snd (k a)).
Proof. unfold bind. intros ->. now destruct (k a). Qed.


Lemma bind_out_of_fuel {A B} (m : M A) (k : A -> M B) (l1 : Log) :
  m = (OutOfFuel, l1) -> bind m k = (OutOfFuel, l1).
Proof. unfold bind. now intros ->. Qed.

Lemma bind_call {B} (e : Event) (k : unit -> M B) :
  bind (call e) k = (fst (k tt), e :: snd (k tt)).
Proof. unfold bind, call. now destruct (k tt). Qed.

(** Inversion of a successful run, one [bind] at a time. *)
Ltac run_inv H :=
  let a := fresh "a" in
  let l1 := fresh "l" in
  let l2 := fresh "l" in
  let H1 := fresh H in
  let E := fresh "E" in
  apply bind_ok in H; destruct H as (a & l1 & l2 & H1 & H & E).

(** ** The Zone Catalog Resolver *)

Definition is_up (zone : Zone) : bool := String.eqb (zone_status zone) "UP".

Definition zone_info_of (zone : Zone) : ZoneInfo :=
  {| zi_region := region_of (zone_name zone); zi_zone := zone_name zone |}.

Lemma zone_items_spec (items : list Zone) (zone_list : list ZoneInfo) :
  zone_items items zone_list
  = zone_list ++ map zone_info_of (filter is_up items).
Proof.
  revert zone_list; induction items as [|zone rest IH]; intros zone_list; simpl.
  - now rewrite app_nil_r.
  - unfold is_up at 1. destruct (String.eqb (zone_status zone) "UP"); simpl.
    + rewrite IH, <- app_assoc. reflexivity.
    + apply IH.
Qed.

Lemma zone_pages_spec (project : string) (pages : list (list Zone)) :
  forall (n : nat) (zone_list : list ZoneInfo),
    zone_pages project pages n zone_list
    = (Ok (zone_list ++ map zone_info_of (filter is_up (List.concat pages))),
       map (EvZonesList project) (seq n (List.length pages))).
Proof.
  induction pages as [|response next IH]; intros n zone_list.
  - simpl. unfold ret. now rewrite !app_nil_r.
  - cbn [zone_pages]. rewrite bind_call, IH, zone_items_spec. simpl.
    rewrite filter_app, map_app, <- !app_assoc. reflexivity.
Qed.

Section ZoneCatalog.

Variable compute : Provider.

(** The zones [get_zone_info] returns. *)
Definition up_zones (project : string) : list ZoneInfo :=
  map zone_info_of
      (filter is_up (List.concat (all_pages (zones_list compute project)))).

(** The requests [get_zone_info] sends: one per page of the listing. *)
Definition zone_requests (project : string) : Log :=
  map (EvZonesList project)
      (seq 0 (List.length (all_pages (zones_list compute project)))).

Lemma get_zone_info_spec (project : string) :
  get_zone_info compute project = (Ok (up_zones project), zone_requests project).
Proof. unfold get_zone_info. now rewrite zone_pages_spec. Qed.

(** C9: over every paginated zone listing, [get_zone_info] returns, in
    listing order, exactly the zones whose status is "UP", each with its
    name and with the region obtained by removing the last two characters of
    the name (the whole name when it is shorter); [us-central1-a] yields
    [us-central1]. *)
Theorem get_zone_info_up_zones (project : string) :
  get_zone_info compute project
  = (Ok (map zone_info_of
           (filter is_up
              (List.concat (all_pages (zones_list compute project))))),
     zone_requests project)
  /\ (forall zone : Zone,
        zi_zone (zone_info_of zone) = zone_name zone
        /\ zi_region (zone_info_of zone)
           = substring 0 (String.length (zone_name zone) - 2) (zone_name zone)
        /\ zone_name zone
           = zi_region (zone_info_of zone)
             +++ substring (String.length (zone_name zone) - 2) 2
                   (zone_name zone)
        /\ String.length (zi_region (zone_info_of zone))
           = (String.length (zone_name zone) - 2)%nat)
  /\ (forall zone : Zone, is_up zone = true <-> zone_status zone = "UP")
  /\ region_of "us-central1-a" = "us-central1".
Proof.
  split; [|split; [|split]].
  - apply get_zone_info_spec.
  - intros zone. simpl. rewrite region_of_substring.
    repeat split.
    + apply substring_split. lia.
    + apply length_substring_0. lia.
  - intros zone. unfold is_up. apply String.eqb_eq.
  - reflexivity.
Qed.

End ZoneCatalog.

(** ** Configuration validation *)

(** [int(str(n))] is [n]: the decimal digits of a natural number parse back. *)

Lemma digits_string_of_uint (d : Decimal.uint) :
  forall (acc : nat) (after_digit : bool),
    d <> Decimal.Nil \/ after_digit = true ->
    Py.digits (Z.of_nat acc) after_digit (NilEmpty.string_of_uint d)
    = Some (Z.of_nat (Nat.of_uint_acc d acc)).
Proof.
  induction d; intros acc after_digit H;
    try (cbn [NilEmpty.string_of_uint Py.digits Nat.of_uint_acc];
         change (Py.isdigit _) with true; cbv iota;
         rewrite Nat.tail_mul_spec;
         match goal with
         | |- Py.digits ?z _ _ = Some (Z.of_nat (Nat.of_uint_acc _ ?m)) =>
             replace z with (Z.of_nat m)
               by (unfold Py.digit_value;
                   match goal with
                   | |- context [nat_of_ascii ?c] =>
                       let v := eval vm_compute in (nat_of_ascii c) in
                       change (nat_of_ascii c) with v
                   end; lia)
         end;
         apply IHd; now right).
  destruct H as [H|H]; [congruence | subst; reflexivity].
Qed.

Fixpoint digits_only (s : string) : bool :=
  match s with
  | EmptyString => true
  | String c r => Py.isdigit c && digits_only r
  end.

Lemma digits_only_string_of_uint (d : Decimal.uint) :
  digits_only (NilEmpty.string_of_uint d) = true.
Proof. induction d; simpl; auto. Qed.

Lemma isdigit_not_space (c : ascii) : Py.isdigit c = true -> Py.isspace c = false.
Proof.
  unfold Py.isdigit, Py.isspace. intros H.
  apply andb_true_iff in H as [H1 H2].
  apply Nat.leb_le in H1. apply Nat.leb_le in H2.
  apply orb_false_iff; split; apply andb_false_iff; right;
    apply Nat.leb_gt; lia.
Qed.

Lemma rstrip_digits_only (s : string) : digits_only s = true -> Py.rstrip s = s.
Proof.
  induction s as [|c r IH]; simpl; intros H; [reflexivity|].
  apply andb_true_iff in H as [Hc Hr].
  rewrite (IH Hr). destruct r; [|reflexivity].
  now rewrite (isdigit_not_space c Hc).
Qed.

Lemma strip_digits_only (s : string) : digits_only s = true -> Py.strip s = s.
Proof.
  intros H. unfold Py.strip.
  assert (E : Py.lstrip s = s).
  { destruct s as [|c r]; [reflexivity|]. simpl in *.
    apply andb_true_iff in H as [Hc _].
    now rewrite (isdigit_not_space c Hc). }
  rewrite E. now apply rstrip_digits_only.
Qed.

Lemma to_uint_nonnil (n : nat) : Nat.to_uint n <> Decimal.Nil.
Proof.
  rewrite <- (DecimalNat.Unsigned.of_to n) at 1.
  rewrite DecimalNat.Unsigned.to_of.
  unfold Decimal.unorm. destruct (Decimal.nzhead (Nat.to_uint n)); discriminate.
Qed.

Lemma int_str (n : nat) : Py.int (Py.str n) = Some (Z.of_nat n).
Proof.
  unfold Py.int, Py.str.
  rewrite strip_digits_only by apply digits_only_string_of_uint.
  pose proof (to_uint_nonnil n) as Hn.
  pose proof (DecimalNat.Unsigned.of_to n) as Hof.
  unfold Nat.of_uint in Hof.
  pose proof (digits_string_of_uint (Nat.to_uint n) 0 false (or_introl Hn)) as D.
  rewrite Hof in D. change (Z.of_nat 0) with 0 in D.
  destruct (Nat.to_uint n); try congruence; exact D.
Qed.

(** The slice taken by [check_gpu_config] from a name [a2-highgpu-<n>g] is
    the decimal numeral [<n>]. *)
Lemma gpus_in_highgpu (n : nat) :
  gpus_in_machine_type ("a2-highgpu-" +++ Py.str n +++ "g") = Py.str n.
Proof.
  unfold gpus_in_machine_type, Py.slice, Py.find, Py.len.
  set (d := Py.str n).
  assert (L : String.length ("a2-highgpu-" +++ d +++ "g")
              = (12 + String.length d)%nat).
  { rewrite !length_append. simpl. lia. }
  rewrite L.
  assert (F : String.index 0 "highgpu" ("a2-highgpu-" +++ d +++ "g") = Some 3%nat)
    by reflexivity.
  rewrite F. unfold Py.clamp.
  change (Z.of_nat 3 + 8 <? 0) with false. cbv iota.
  destruct (Z.ltb_spec (Z.of_nat (12 + String.length d) - 1) 0) as [H|H]; [lia|].
  replace (Z.to_nat (Z.min (Z.of_nat 3 + 8) (Z.of_nat (12 + String.length d))))
    with (String.length "a2-highgpu-") by (simpl String.length; lia).
  replace (Z.to_nat _) with (String.length d) by lia.
  rewrite substring_append_right. apply substring_append_left.
Qed.

(** C10: a machine type that starts with [a2] but does not contain [highgpu],
    such as [a2-megagpu-16g], makes [check_gpu_config] end in the [ValueError]
    of [int()] (on the slice [gpu-16]) whatever the number of GPUs requested:
    it neither passes nor raises the configuration-mismatch error.  On names
    of the shape [a2-highgpu-<n>g] the slice is the numeral [<n>] and parses
    to [n]. *)
Theorem check_gpu_config_value_error (config : Config) :
  ic_machine_type (instance_config config) = "a2-megagpu-16g" ->
  Py.startswith "a2-megagpu-16g" "a2" = true
  /\ Py.find "a2-megagpu-16g" "highgpu" = -1
  /\ gpus_in_machine_type "a2-megagpu-16g" = "gpu-16"
  /\ check_gpu_config config = Raise (ValueError "gpu-16")
  /\ check_gpu_config config <> Ok tt
  /\ check_gpu_config config <> Raise (Exception mismatch_message)
  /\ (forall n : nat,
        gpus_in_machine_type ("a2-highgpu-" +++ Py.str n +++ "g") = Py.str n
        /\ Py.int (Py.str n) = Some (Z.of_nat n)).
Proof.
  intros H.
  assert (E : check_gpu_config config = Raise (ValueError "gpu-16")).
  { unfold check_gpu_config. rewrite H. reflexivity. }
  repeat split; try reflexivity; try exact E; try (rewrite E; discriminate).
  - apply gpus_in_highgpu.
  - apply int_str.
Qed.

(** ** The Capability Filter *)

Section CapabilityFilter.

Variable compute : Provider.
Variables project machine_type gpu_type : string.

Definition machine_catalog (zone : string) : list MachineType :=
  List.concat (all_pages (machineTypes_list compute project zone)).

Definition named (machine : MachineType) : bool :=
  String.eqb (mt_name machine) machine_type.

(** The record kept for a catalog entry named [machine_type]. *)
Definition capable_record (zone : ZoneInfo) (machine : MachineType)
  : CapableZone :=
  match mt_accelerators machine with
  | Some (a :: rest) =>
      if String.eqb (guestAcceleratorType a) gpu_type
      then with_accelerators zone machine (a :: rest)
      else without_accelerators zone machine
  | _ => without_accelerators zone machine
  end.

(** An entry on which [machine['accelerators'][0]] does not raise. *)
Definition indexable (machine : MachineType) : Prop :=
  mt_accelerators machine <> Some [].

Lemma capable_record_with (zone : ZoneInfo) (machine : MachineType) a accs :
  mt_accelerators machine = Some (a :: accs) ->
  String.eqb (guestAcceleratorType a) gpu_type = true ->
  capable_record zone machine = with_accelerators zone machine (a :: accs).
Proof. intros Ea Eg. unfold capable_record. now rewrite Ea, Eg. Qed.

Lemma capable_record_without (zone : ZoneInfo) (machine : MachineType) :
  (forall a accs,
      mt_accelerators machine = Some (a :: accs) ->
      String.eqb (guestAcceleratorType a) gpu_type = false) ->
  capable_record zone machine = without_accelerators zone machine.
Proof.
  intros Ea. unfold capable_record.
  destruct (mt_accelerators machine) as [[|a accs]|]; try reflexivity.
  now rewrite (Ea a accs eq_refl).
Qed.

Lemma machine_items_ok (zone : ZoneInfo) (items : list MachineType) :
  forall available_zones l,
    machine_items machine_type gpu_type zone items available_zones = Ok l ->
    l = available_zones ++ map (capable_record zone) (filter named items)
    /\ Forall indexable (filter named items).
Proof.
  induction items as [|machine rest IH]; intros available_zones l H; simpl in H.
  - injection H as <-. simpl. now rewrite app_nil_r.
  - unfold paired_with in H. cbn [filter].
    change (named machine) with (String.eqb (mt_name machine) machine_type).
    destruct (String.eqb (mt_name machine) machine_type) eqn:En.
    + destruct (mt_accelerators machine) as [[|a accs]|] eqn:Ea;
        [discriminate| |].
      * assert (I : indexable machine) by (unfold indexable; congruence).
        destruct (String.eqb (guestAcceleratorType a) gpu_type) eqn:Eg;
          apply IH in H as [H F]; (split; [|now constructor]);
          rewrite H, <- app_assoc; cbn [map app];
          [ rewrite (capable_record_with zone machine a accs Ea Eg)
          | rewrite capable_record_without ]; try reflexivity.
        intros a' accs' E'. rewrite Ea in E'. now injection E' as -> ->.
      * assert (I : indexable machine) by (unfold indexable; congruence).
        apply IH in H as [H F]. split; [|now constructor].
        rewrite H, <- app_assoc. cbn [map app].
        rewrite capable_record_without; [reflexivity | congruence].
    + destruct (mt_accelerators machine) as [[|a accs]|]; now apply IH.
Qed.

Lemma machine_pages_ok (zone : ZoneInfo) (pages : list (list MachineType)) :
  forall n available_zones l log,
    machine_pages project machine_type gpu_type zone pages n available_zones
    = (Ok l, log) ->
    l = available_zones
        ++ map (capable_record zone) (filter named (List.concat pages))
    /\ Forall indexable (filter named (List.concat pages)).
Proof.
  induction pages as [|response next IH];
    intros n available_zones l log H; cbn [machine_pages] in H.
  - injection H as <- _. simpl. now rewrite app_nil_r.
  - run_inv H. run_inv H.
    unfold lift in H1. injection H1 as H1 _.
    apply machine_items_ok in H1 as [H1 F1]. apply IH in H as [H F]. subst.
    simpl. rewrite filter_app, map_app, <- app_assoc. split; [reflexivity|].
    apply Forall_app. now split.
Qed.

Definition named_in (zone : ZoneInfo) : list MachineType :=
  filter named (machine_catalog (zi_zone zone)).

Definition capable_in (zone : ZoneInfo) : list CapableZone :=
  map (capable_record zone) (named_in zone).

Lemma machine_zones_ok (zone_list : list ZoneInfo) :
  forall available_zones l log,
    machine_zones compute project machine_type gpu_type zone_list
      available_zones = (Ok l, log) ->
    l = available_zones ++ flat_map capable_in zone_list
    /\ Forall (fun zone => Forall indexable (named_in zone)) zone_list.
Proof.
  induction zone_list as [|zone rest IH];
    intros available_zones l log H; cbn [machine_zones] in H.
  - injection H as <- _. simpl. now rewrite app_nil_r.
  - run_inv H. apply machine_pages_ok in H0 as [H0 F0].
    apply IH in H as [H F]. subst.
    simpl. rewrite <- app_assoc. split; [reflexivity|]. now constructor.
Qed.

Lemma check_machine_type_and_accelerator_ok
    (zones : list ZoneInfo) (available : list CapableZone) (log : Log) :
  check_machine_type_and_accelerator compute project machine_type gpu_type
    zones = (Ok available, log) ->
  available = flat_map capable_in zones
  /\ Forall (fun zone => Forall indexable (named_in zone)) zones.
Proof.
  intros H. unfold check_machine_type_and_accelerator in H.
  run_inv H. apply machine_zones_ok in H0 as [H0 F]. simpl in H0. subst a.
  split; [|exact F].
  destruct (flat_map capable_in zones); [discriminate|].
  now injection H as <- _.
Qed.

(** C6: when the Capability Filter returns, it returns one record for each
    catalog entry, of each zone in order, whose name equals the requested
    machine type, and nothing else.  The record carries the entry's
    accelerators exactly when the entry lists accelerators and the type of
    the first equals the requested accelerator type; otherwise (the entry
    has no accelerators, or another first type) it is the record without
    accelerators. *)
Theorem check_machine_type_and_accelerator_records
    (zones : list ZoneInfo) (available : list CapableZone) (log : Log) :
  check_machine_type_and_accelerator compute project machine_type gpu_type
    zones = (Ok available, log) ->
  available = flat_map capable_in zones
  /\ Forall (fun r =>
               exists zone machine,
                 In zone zones
                 /\ In machine (machine_catalog (zi_zone zone))
                 /\ mt_name machine = machine_type
                 /\ cz_machine_type r = machine_type
                 /\ cz_zone r = zi_zone zone
                 /\ cz_region r = zi_region zone
                 /\ cz_guest_cpus r = mt_guestCpus machine
                 /\ cz_description r = mt_description machine
                 /\ ((exists a rest,
                         mt_accelerators machine = Some (a :: rest)
                         /\ guestAcceleratorType a = gpu_type
                         /\ cz_accelerators r = Some (a :: rest))
                     \/ ((mt_accelerators machine = None
                          \/ exists a rest,
                              mt_accelerators machine = Some (a :: rest)
                              /\ guestAcceleratorType a <> gpu_type)
                         /\ cz_accelerators r = None)))
            available.
Proof.
  intros H. apply check_machine_type_and_accelerator_ok in H as [E F].
  split; [exact E|]. rewrite E. clear - F.
  apply Forall_forall. intros r Hr.
  apply in_flat_map in Hr as (zone & Hz & Hr).
  unfold capable_in in Hr. apply in_map_iff in Hr as (machine & <- & Hm).
  rewrite Forall_forall in F. specialize (F zone Hz).
  rewrite Forall_forall in F. specialize (F machine Hm).
  apply filter_In in Hm as [Hm Hn]. apply String.eqb_eq in Hn.
  exists zone, machine. unfold capable_record.
  destruct (mt_accelerators machine) as [[|a rest]|] eqn:Ea;
    [| destruct (String.eqb_spec (guestAcceleratorType a) gpu_type) |];
    simpl; repeat (split; [assumption || reflexivity|]).
  - now elim F.
  - left. exists a, rest. repeat split; assumption.
  - right. split; [|reflexivity]. right. now exists a, rest.
  - right. split; [left|]; reflexivity.
Qed.

End CapabilityFilter.

(** ** The Quota Validator *)

Section QuotaValidator.

Variable compute : Provider.
Variable project : string.
Variable config : Config.
Variable requested_gpus : Z.

Definition page_items (response : option (list AcceleratorType))
  : list AcceleratorType :=
  match response with
  | Some items => items
  | None => []
  end.

(** The accelerator types a zone's catalog reports, over all its pages. *)
Definition accelerator_catalog (zone : string) : list AcceleratorType :=
  flat_map page_items (all_pages (acceleratorTypes_list compute project zone)).

Definition approved (accelerator : AcceleratorType) : bool :=
  String.eqb (at_name accelerator) (ic_gpu_type (instance_config config))
  && (requested_gpus <=? at_maximumCardsPerInstance accelerator).

Definition approved_in (i : CapableZone) : list QuotaZone :=
  map (accelerator_dict i) (filter approved (accelerator_catalog (cz_zone i))).

Definition accelerator_requests (i : CapableZone) : Log :=
  map (EvAcceleratorTypesList project (cz_zone i))
      (seq 0 (List.length
                (all_pages (acceleratorTypes_list compute project (cz_zone i))))).

Lemma accelerator_items_spec (i : CapableZone) (items : list AcceleratorType) :
  forall accelerator_list,
    accelerator_items config requested_gpus i items accelerator_list
    = accelerator_list ++ map (accelerator_dict i) (filter approved items).
Proof.
  induction items as [|accelerator rest IH]; intros accelerator_list; simpl.
  - now rewrite app_nil_r.
  - unfold approved at 1.
    destruct (String.eqb (at_name accelerator) _);
      [destruct (requested_gpus <=? _)|]; simpl; rewrite IH;
      [now rewrite <- app_assoc | reflexivity | reflexivity].
Qed.

Lemma accelerator_pages_spec (i : CapableZone)
    (pages : list (option (list AcceleratorType))) :
  forall n accelerator_list,
    accelerator_pages project config requested_gpus i pages n accelerator_list
    = (Ok (accelerator_list
           ++ map (accelerator_dict i)
                (filter approved (flat_map page_items pages))),
       map (EvAcceleratorTypesList project (cz_zone i))
           (seq n (List.length pages))).
Proof.
  induction pages as [|response next IH]; intros n accelerator_list.
  - simpl. unfold ret. now rewrite !app_nil_r.
  - cbn [accelerator_pages]. rewrite bind_call, IH.
    destruct response as [items|]; simpl.
    + now rewrite accelerator_items_spec, filter_app, map_app, <- app_assoc.
    + reflexivity.
Qed.

Lemma accelerator_zones_spec (zone_list : list CapableZone) :
  forall accelerator_list,
    accelerator_zones compute project config requested_gpus zone_list
      accelerator_list
    = (Ok (accelerator_list ++ flat_map approved_in zone_list),
       flat_map accelerator_requests zone_list).
Proof.
  induction zone_list as [|i rest IH]; intros accelerator_list;
    cbn [accelerator_zones flat_map].
  - unfold ret. now rewrite !app_nil_r.
  - rewrite (bind_run _ _ _ _ (accelerator_pages_spec i _ 0%nat _)).
    rewrite IH, <- !app_assoc. reflexivity.
Qed.

Lemma get_accelerator_quota_ok
    (zone : list CapableZone) (zones_in_quota : list QuotaZone) (log : Log) :
  get_accelerator_quota compute project config zone requested_gpus
  = (Ok zones_in_quota, log) ->
  zones_in_quota = flat_map approved_in zone
  /\ log = flat_map accelerator_requests zone.
Proof.
  intros H. unfold get_accelerator_quota in H.
  rewrite (bind_run _ _ _ _ (accelerator_zones_spec zone [])) in H.
  simpl in H.
  destruct (flat_map approved_in zone); [discriminate|].
  injection H as <- <-. now rewrite app_nil_r.
Qed.

(** C5: every record the Quota Validator returns comes from an entry of the
    accelerator-type catalog of the record's zone that has the configured
    accelerator name and a [maximumCardsPerInstance] of at least the
    requested count; that maximum is the one the record carries.  No
    returned record has a maximum below the requested count. *)
Theorem get_accelerator_quota_within_maximum
    (zone : list CapableZone) (zones_in_quota : list QuotaZone) (log : Log) :
  get_accelerator_quota compute project config zone requested_gpus
  = (Ok zones_in_quota, log) ->
  zones_in_quota = flat_map approved_in zone
  /\ Forall (fun q =>
               requested_gpus <= qz_maximum_gpus q
               /\ exists i accelerator,
                   In i zone
                   /\ In accelerator (accelerator_catalog (cz_zone i))
                   /\ at_name accelerator = ic_gpu_type (instance_config config)
                   /\ requested_gpus <= at_maximumCardsPerInstance accelerator
                   /\ q = accelerator_dict i accelerator
                   /\ qz_zone q = cz_zone i
                   /\ qz_maximum_gpus q = at_maximumCardsPerInstance accelerator)
            zones_in_quota
  /\ ~ Exists (fun q => requested_gpus > qz_maximum_gpus q) zones_in_quota.
Proof.
  intros H. apply get_accelerator_quota_ok in H as [E _].
  assert (F : Forall (fun q =>
               requested_gpus <= qz_maximum_gpus q
               /\ exists i accelerator,
                   In i zone
                   /\ In accelerator (accelerator_catalog (cz_zone i))
                   /\ at_name accelerator = ic_gpu_type (instance_config config)
                   /\ requested_gpus <= at_maximumCardsPerInstance accelerator
                   /\ q = accelerator_dict i accelerator
                   /\ qz_zone q = cz_zone i
                   /\ qz_maximum_gpus q = at_maximumCardsPerInstance accelerator)
            zones_in_quota).
  { rewrite E. apply Forall_forall. intros q Hq.
    apply in_flat_map in Hq as (i & Hi & Hq).
    apply in_map_iff in Hq as (accelerator & <- & Ha).
    apply filter_In in Ha as [Ha Hp].
    apply andb_true_iff in Hp as [Hn Hm].
    apply String.eqb_eq in Hn. apply Z.leb_le in Hm.
    split; [exact Hm|]. exists i, accelerator. now repeat split. }
  repeat split; try assumption.
  intros X. apply Exists_exists in X as (q & Hq & Hgt).
  rewrite Forall_forall in F. destruct (F q Hq) as [Hle _]. lia.
Qed.

End QuotaValidator.

(** ** The status-poll loops *)

Section Polling.

Variable compute : Provider.
Variables project zone operation : string.

(** The provider's answers to the successive status fetches of a loop. *)
Definition responses (k : nat) : Operation :=
  zoneOperations_get compute project zone operation k.

Definition done (k : nat) : bool :=
  String.eqb (op_status (responses k)) "DONE".

(** The log of [n] status fetches, from the [k]-th on. *)
Definition polls (k n : nat) : Log :=
  map (fun j => EvZoneOperationsGet project zone operation (responses j))
      (seq k n).

(** The fetch [k + n] is the first, from [k] on, that reports "DONE". *)
Definition first_done_from (k n : nat) : Prop :=
  done (k + n)%nat = true /\ forall j, (j < n)%nat -> done (k + j)%nat = false.

(** What [delete_instances] does with an operation that is [DONE]. *)
Definition delete_done (result : Operation) : Outcome unit :=
  match op_error result with
  | Some error => Raise (OperationException error)
  | None => Ok tt
  end.

Lemma polls_cons (k n : nat) :
  polls k (S n)
  = EvZoneOperationsGet project zone operation (responses k) :: polls (S k) n.
Proof. reflexivity. Qed.

Lemma first_done_shift (k n : nat) :
  first_done_from k (S n) -> first_done_from (S k) n.
Proof.
  intros [D B]. split.
  - now replace (S k + n)%nat with (k + S n)%nat by lia.
  - intros j Hj. replace (S k + j)%nat with (k + S j)%nat by lia.
    apply B. lia.
Qed.

(** Among the first [m] fetches either none reports "DONE" or there is a
    first one that does. *)
Lemma first_done_within (m : nat) :
  (forall j, (j < m)%nat -> done j = false)
  \/ exists n, (n < m)%nat /\ first_done_from 0 n.
Proof.
  induction m as [|m [IH|(n & Hn & F)]].
  - left. intros j Hj. lia.
  - destruct (done m) eqn:Dm.
    + right. exists m. split; [lia|]. split; [exact Dm | exact IH].
    + left. intros j Hj.
      destruct (Nat.eq_dec j m) as [->|Ne]; [exact Dm | apply IH; lia].
  - right. exists n. split; [lia | exact F].
Qed.

Lemma first_done_exists :
  (exists k, done k = true) -> exists n, first_done_from 0 n.
Proof.
  intros [k Hk].
  destruct (first_done_within (S k)) as [N|(n & _ & F)]; [|now exists n].
  rewrite N in Hk by lia. discriminate.
Qed.

(** *** The loop of [create_single_instance] *)

Lemma create_poll_pending (instance_name : string) (fuel : nat) :
  forall k,
    (forall j, (j < fuel)%nat -> done (k + j)%nat = false) ->
    create_poll compute fuel instance_name project zone operation k
    = (OutOfFuel, polls k fuel).
Proof.
  induction fuel as [|fuel IH]; intros k N; [reflexivity|].
  cbn [create_poll]. rewrite bind_call.
  pose proof (N 0%nat ltac:(lia)) as D0. rewrite Nat.add_0_r in D0.
  unfold done, responses in D0. rewrite D0.
  rewrite IH, polls_cons; [reflexivity|].
  intros j Hj. replace (S k + j)%nat with (k + S j)%nat by lia.
  apply N. lia.
Qed.

Lemma create_poll_done (instance_name : string) (fuel : nat) :
  forall k n,
    first_done_from k n -> (n < fuel)%nat ->
    create_poll compute fuel instance_name project zone operation k
    = (create_done instance_name zone (responses (k + n)), polls k (S n)).
Proof.
  induction fuel as [|fuel IH]; intros k n F L; [lia|].
  cbn [create_poll]. rewrite bind_call.
  destruct n as [|n].
  - destruct F as [D _]. rewrite Nat.add_0_r in *.
    unfold done, responses in D. rewrite D. reflexivity.
  - pose proof (proj2 F 0%nat ltac:(lia)) as D0. rewrite Nat.add_0_r in D0.
    pose proof (first_done_shift k n F) as F'.
    unfold done, responses in D0. rewrite D0.
    rewrite (IH (S k) n) by (assumption || lia).
    rewrite (polls_cons k (S n)).
    now replace (S k + n)%nat with (k + S n)%nat by lia.
Qed.

Lemma create_done_returns (instance_name : string) (result : Operation) :
  create_done instance_name zone result <> OutOfFuel.
Proof.
  unfold create_done.
  destruct (op_error result) as [error|]; [|discriminate].
  destruct (errors error) as [|first rest]; [discriminate|].
  destruct (capacity_code (code first)); discriminate.
Qed.

(** *** The loop of [delete_instances] *)

Lemma delete_poll_pending (fuel : nat) :
  forall k,
    (forall j, (j < fuel)%nat -> done (k + j)%nat = false) ->
    delete_poll compute fuel project zone operation k
    = (OutOfFuel, polls k fuel).
Proof.
  induction fuel as [|fuel IH]; intros k N; [reflexivity|].
  cbn [delete_poll]. rewrite bind_call.
  pose proof (N 0%nat ltac:(lia)) as D0. rewrite Nat.add_0_r in D0.
  unfold done, responses in D0. rewrite D0.
  rewrite IH, polls_cons; [reflexivity|].
  intros j Hj. replace (S k + j)%nat with (k + S j)%nat by lia.
  apply N. lia.
Qed.

Lemma delete_poll_done (fuel : nat) :
  forall k n,
    first_done_from k n -> (n < fuel)%nat ->
    delete_poll compute fuel project zone operation k
    = (delete_done (responses (k + n)), polls k (S n)).
Proof.
  induction fuel as [|fuel IH]; intros k n F L; [lia|].
  cbn [delete_poll]. rewrite bind_call.
  destruct n as [|n].
  - destruct F as [D _]. rewrite Nat.add_0_r in *.
    unfold done, responses in D. rewrite D. unfold delete_done, responses.
    now destruct (op_error _).
  - pose proof (proj2 F 0%nat ltac:(lia)) as D0. rewrite Nat.add_0_r in D0.
    pose proof (first_done_shift k n F) as F'.
    unfold done, responses in D0. rewrite D0.
    rewrite (IH (S k) n) by (assumption || lia).
    rewrite (polls_cons k (S n)).
    now replace (S k + n)%nat with (k + S n)%nat by lia.
Qed.

Lemma delete_done_returns (result : Operation) : delete_done result <> OutOfFuel.
Proof. unfold delete_done. destruct (op_error result); discriminate. Qed.

Lemma not_done_false (k : nat) :
  op_status (responses k) <> "DONE" -> done k = false.
Proof. intros H. now apply String.eqb_neq. Qed.

(** Each of the two loops returns, given enough fuel, if and only if some
    answer in the sequence of fetched statuses reports "DONE"; when none
    does, every amount of fuel is used up entirely, one fetch per unit. *)
Lemma poll_loops_iff_done (instance_name : string) :
  ((exists fuel,
       fst (create_poll compute fuel instance_name project zone operation 0)
       <> OutOfFuel)
   <-> exists k, op_status (responses k) = "DONE")
  /\ ((exists fuel,
          fst (delete_poll compute fuel project zone operation 0) <> OutOfFuel)
      <-> exists k, op_status (responses k) = "DONE")
  /\ ((forall k, op_status (responses k) <> "DONE") ->
      forall fuel,
        create_poll compute fuel instance_name project zone operation 0
        = (OutOfFuel, polls 0 fuel)
        /\ delete_poll compute fuel project zone operation 0
           = (OutOfFuel, polls 0 fuel)
        /\ List.length (polls 0 fuel) = fuel).
Proof.
  assert (Found : forall fuel,
             fst (create_poll compute fuel instance_name project zone
                    operation 0) <> OutOfFuel
             \/ fst (delete_poll compute fuel project zone operation 0)
                <> OutOfFuel ->
             exists k, op_status (responses k) = "DONE").
  { intros fuel R.
    destruct (first_done_within fuel) as [N|(n & _ & F & _)].
    - rewrite create_poll_pending, delete_poll_pending in R
        by (intros j Hj; now apply N).
      simpl in R. now destruct R.
    - exists n. now apply String.eqb_eq. }
  assert (Returns : (exists k, op_status (responses k) = "DONE") ->
             exists fuel,
               fst (create_poll compute fuel instance_name project zone
                      operation 0) <> OutOfFuel
               /\ fst (delete_poll compute fuel project zone operation 0)
                  <> OutOfFuel).
  { intros [k Hk].
    destruct first_done_exists as [n F].
    { exists k. now apply String.eqb_eq. }
    exists (S n).
    rewrite (create_poll_done instance_name (S n) 0 n F) by lia.
    rewrite (delete_poll_done (S n) 0 n F) by lia.
    split; [apply create_done_returns | apply delete_done_returns]. }
  split; [|split].
  - split.
    + intros [fuel R]. apply (Found fuel). now left.
    + intros D. destruct (Returns D) as (fuel & R & _). now exists fuel.
  - split.
    + intros [fuel R]. apply (Found fuel). now right.
    + intros D. destruct (Returns D) as (fuel & _ & R). now exists fuel.
  - intros N fuel. repeat split;
      [apply create_poll_pending | apply delete_poll_pending |];
      try (intros j _; apply not_done_false, N).
    unfold polls. now rewrite length_map, length_seq.
Qed.

End Polling.

(** ** Creating one instance *)

Section Create.

Variable compute : Provider.
Variable fuel : nat.
Variable project : string.
Variable compute_config : Config.

Definition source_image : string :=
  images_getFromFamily compute
    (ic_image_project (instance_config compute_config))
    (ic_image_family (instance_config compute_config)).

(** The body of the insert request for an instance name and a zone. *)
Definition insert_body (instance_name : string) (zone_config : QuotaZone)
  : InstanceBody :=
  instance_body instance_name project compute_config (qz_zone zone_config)
    source_image.

(** The operation the provider hands back for it. *)
Definition insert_operation (instance_name : string) (zone_config : QuotaZone)
  : string :=
  instances_insert compute project (qz_zone zone_config)
    (insert_body instance_name zone_config).

(** The requests up to the submission of the insert. *)
Definition insert_requests (instance_name : string) (zone_config : QuotaZone)
  : Log :=
  [ EvImagesGetFromFamily (ic_image_project (instance_config compute_config))
      (ic_image_family (instance_config compute_config));
    EvInstancesInsert project (qz_zone zone_config)
      (insert_body instance_name zone_config) ].

Lemma create_single_instance_eq (instance_name : string) (zone_config : QuotaZone) :
  create_single_instance compute fuel instance_name project compute_config
    zone_config
  = (fst (create_poll compute fuel instance_name project (qz_zone zone_config)
            (insert_operation instance_name zone_config) 0),
     insert_requests instance_name zone_config
     ++ snd (create_poll compute fuel instance_name project
               (qz_zone zone_config)
               (insert_operation instance_name zone_config) 0)).
Proof.
  unfold create_single_instance. rewrite !bind_call. reflexivity.
Qed.

(** The two ways a call of [create_single_instance] can go: the fuel runs
    out on answers that are not "DONE", or the first "DONE" answer is
    classified by [create_done]. *)
Lemma create_single_instance_cases (instance_name : string)
    (zone_config : QuotaZone) :
  let zone := qz_zone zone_config in
  let operation := insert_operation instance_name zone_config in
  (create_single_instance compute fuel instance_name project compute_config
     zone_config
   = (OutOfFuel,
      insert_requests instance_name zone_config
      ++ polls compute project zone operation 0 fuel)
   /\ forall j, (j < fuel)%nat -> done compute project zone operation j = false)
  \/ exists n,
      (n < fuel)%nat
      /\ first_done_from compute project zone operation 0 n
      /\ create_single_instance compute fuel instance_name project
           compute_config zone_config
         = (create_done instance_name zone
              (responses compute project zone operation n),
            insert_requests instance_name zone_config
            ++ polls compute project zone operation 0 (S n)).
Proof.
  intros zone operation. rewrite create_single_instance_eq.
  fold zone operation.
  destruct (first_done_within compute project zone operation fuel)
    as [N|(n & L & F)].
  - left. split; [|exact N].
    now rewrite create_poll_pending by (intros j Hj; now apply N).
  - right. exists n. repeat split; try assumption; try apply F.
    now rewrite (create_poll_done compute project zone operation
                   instance_name fuel 0 n F L).
Qed.

End Create.

Section PollLoops.

Variable compute : Provider.
Variable project : string.
Variable compute_config : Config.

Lemma delete_one_instance (fuel : nat) (instance : InstanceDetails) :
  let zone := id_zone instance in
  let operation := instances_delete compute project zone (id_name instance) in
  delete_instances compute fuel project [instance]
  = (fst (delete_poll compute fuel project zone operation 0),
     EvInstancesDelete project zone (id_name instance)
     :: snd (delete_poll compute fuel project zone operation 0)).
Proof.
  intros zone operation. cbn [delete_instances]. rewrite bind_call.
  fold zone operation.
  destruct (delete_poll compute fuel project zone operation 0)
    as [[[]|e|] l]; simpl; now rewrite ?app_nil_r.
Qed.

(** C7: the status-poll loop of [create_single_instance] and that of
    [delete_instances] return, given enough fuel, if and only if some answer
    in the sequence of statuses fetched for the operation reports "DONE", and
    so do [create_single_instance] and the deletion of an instance.  Nothing
    else bounds the loops: when no answer reports "DONE", every amount of
    fuel is used up entirely, one status fetch per unit, and the function has
    not returned. *)
Theorem poll_loops_return_iff_done
    (instance_name : string) (zone_config : QuotaZone)
    (instance : InstanceDetails) :
  let create_zone := qz_zone zone_config in
  let create_operation :=
    insert_operation compute project compute_config instance_name zone_config in
  let delete_zone := id_zone instance in
  let delete_operation :=
    instances_delete compute project delete_zone (id_name instance) in
  let reports_done zone operation :=
    exists k, op_status (responses compute project zone operation k) = "DONE" in
  (forall zone operation,
      ((exists fuel,
           fst (create_poll compute fuel instance_name project zone operation 0)
           <> OutOfFuel)
       <-> reports_done zone operation)
      /\ ((exists fuel,
              fst (delete_poll compute fuel project zone operation 0)
              <> OutOfFuel)
          <-> reports_done zone operation))
  /\ ((exists fuel,
          fst (create_single_instance compute fuel instance_name project
                 compute_config zone_config) <> OutOfFuel)
      <-> reports_done create_zone create_operation)
  /\ ((exists fuel,
          fst (delete_instances compute fuel project [instance]) <> OutOfFuel)
      <-> reports_done delete_zone delete_operation)
  /\ (~ reports_done create_zone create_operation ->
      forall fuel,
        create_single_instance compute fuel instance_name project
          compute_config zone_config
        = (OutOfFuel,
           insert_requests compute project compute_config instance_name
             zone_config
           ++ polls compute project create_zone create_operation 0 fuel)
        /\ List.length
             (polls compute project create_zone create_operation 0 fuel) = fuel)
  /\ (~ reports_done delete_zone delete_operation ->
      forall fuel,
        delete_instances compute fuel project [instance]
        = (OutOfFuel,
           EvInstancesDelete project delete_zone (id_name instance)
           :: polls compute project delete_zone delete_operation 0 fuel)
        /\ List.length
             (polls compute project delete_zone delete_operation 0 fuel) = fuel).
Proof.
  intros create_zone create_operation delete_zone delete_operation reports_done.
  subst reports_done. cbv beta.
  assert (Never : forall zone operation,
             ~ (exists k, op_status (responses compute project zone operation k)
                          = "DONE") ->
             forall k, op_status (responses compute project zone operation k)
                       <> "DONE").
  { intros zone operation N k E. apply N. now exists k. }
  split; [|split; [|split; [|split]]].
  - intros zone operation.
    destruct (poll_loops_iff_done compute project zone operation instance_name)
      as (C & D & _). now split.
  - destruct (poll_loops_iff_done compute project create_zone create_operation
                instance_name) as (C & _ & _).
    rewrite <- C. split; intros [fuel H]; exists fuel;
      now rewrite create_single_instance_eq in *.
  - destruct (poll_loops_iff_done compute project delete_zone delete_operation
                instance_name) as (_ & D & _).
    rewrite <- D. split; intros [fuel H]; exists fuel;
      now rewrite delete_one_instance in *.
  - intros N fuel.
    destruct (poll_loops_iff_done compute project create_zone create_operation
                instance_name) as (_ & _ & P).
    destruct (P (Never _ _ N) fuel) as (E & _ & L).
    rewrite create_single_instance_eq. fold create_zone create_operation.
    now rewrite E.
  - intros N fuel.
    destruct (poll_loops_iff_done compute project delete_zone delete_operation
                instance_name) as (_ & _ & P).
    destruct (P (Never _ _ N) fuel) as (_ & E & L).
    rewrite delete_one_instance. fold delete_zone delete_operation.
    now rewrite E.
Qed.

End PollLoops.

(** ** The pipeline of [main] *)

Lemma bind_assoc {A B C} (m : M A) (f : A -> M B) (g : B -> M C) :
  bind (bind m f) g = bind m (fun a => bind (f a) g).
Proof.
  unfold bind. destruct m as [[a|e|] l]; try reflexivity.
  destruct (f a) as [[b|e|] l1]; try reflexivity.
  destruct (g b) as [o l2]. now rewrite app_assoc.
Qed.

Lemma bind_ext {A B} (m : M A) (f g : A -> M B) :
  (forall a, f a = g a) -> bind m f = bind m g.
Proof.
  intros E. unfold bind. destruct m as [[a|e|] l]; try reflexivity.
  now rewrite E.
Qed.

Section Pipeline.

Variable compute : Provider.
Variable gpu_config : Config.

(** The statements of [main] before the loop over the regions: they list
    zones, validate the configuration and filter the zones. *)
Definition survey : M (list QuotaZone) :=
  let ic := instance_config gpu_config in
  zones <- compute_zones compute gpu_config ;;
  lift (check_gpu_config gpu_config) ;;;
  available_zones <-
    check_machine_type_and_accelerator compute (project_id gpu_config)
      (ic_machine_type ic) (ic_gpu_type ic) zones ;;
  get_accelerator_quota compute (project_id gpu_config) gpu_config
    available_zones (ic_number_of_gpus ic).

(** The loop over the regions and the table. *)
Definition provision (fuel : nat) (zones_in_quota : list QuotaZone)
  : M (list (string * string * string)) :=
  regional_summary <-
    regions_loop compute fuel gpu_config (group_by_region zones_in_quota) [] ;;
  ret (table_data regional_summary).

Lemma main_eq (fuel : nat) :
  main compute fuel gpu_config = bind survey (provision fuel).
Proof.
  unfold main, survey. cbv zeta.
  rewrite bind_assoc. apply bind_ext. intros zones.
  rewrite bind_assoc. apply bind_ext. intros _.
  rewrite bind_assoc. apply bind_ext. intros available_zones.
  reflexivity.
Qed.

(** The zones [main] surveys: the "UP" zones, restricted to the
    configuration's list of zones when that is not empty. *)
Definition selected_zones : list ZoneInfo :=
  match ic_zone (instance_config gpu_config) with
  | [] => up_zones compute (project_id gpu_config)
  | selected =>
      filter (fun z => mem (zi_zone z) selected)
             (up_zones compute (project_id gpu_config))
  end.

Lemma compute_zones_spec :
  compute_zones compute gpu_config
  = (Ok selected_zones, zone_requests compute (project_id gpu_config)).
Proof.
  unfold compute_zones, selected_zones.
  destruct (ic_zone (instance_config gpu_config)) as [|z zs].
  - apply get_zone_info_spec.
  - rewrite (bind_run _ _ _ _ (get_zone_info_spec compute _)).
    simpl. now rewrite app_nil_r.
Qed.



End Pipeline.

(** ** Capacity errors and fatal errors *)



Section ErrorClasses.

Variable compute : Provider.
Variable fuel : nat.
Variable project : string.
Variable compute_config : Config.

(** One iteration of the loop of [create_instances]. *)
Lemma create_loop_cons (zone : QuotaZone) (rest : list QuotaZone)
    (created_instances : list InstanceDetails) :
  create_loop compute fuel project compute_config (zone :: rest)
    created_instances
  = (instance_detail <-
       create_single_instance compute fuel
         (instance_name_of (ic_name (instance_config compute_config))
            (List.length created_instances + 1) (qz_zone zone))
         project compute_config zone ;;
     let created_instances' :=
       match instance_detail with
       | Some d => created_instances ++ [d]
       | None => created_instances
       end in
     if Z.of_nat (List.length created_instances')
        >=? number_of_instances compute_config
     then ret created_instances'
     else create_loop compute fuel project compute_config rest
            created_instances').
Proof. reflexivity. Qed.


End ErrorClasses.

(** ** Reading the log of a call of [create_instances] *)

(** An answer that reports the completion of an operation without error. *)
Definition succeeded (result : Operation) : bool :=
  String.eqb (op_status result) "DONE"
  && match op_error result with None => true | Some _ => false end.

(** The number of operations a log shows to have completed without error. *)
Fixpoint successes (log : Log) : nat :=
  match log with
  | [] => 0
  | EvZoneOperationsGet _ _ _ result :: l =>
      ((if succeeded result then 1 else 0) + successes l)%nat
  | _ :: l => successes l
  end.

(** The insert requests of a log, each with the number of operations that
    completed without error before it, counted from [c]. *)
Fixpoint attempts (c : nat) (log : Log) : list (nat * string * InstanceBody) :=
  match log with
  | [] => []
  | EvInstancesInsert _ zone body :: l => (c, zone, body) :: attempts c l
  | EvZoneOperationsGet _ _ _ result :: l =>
      attempts (if succeeded result then S c else c) l
  | _ :: l => attempts c l
  end.

Lemma successes_app (l1 l2 : Log) :
  successes (l1 ++ l2) = (successes l1 + successes l2)%nat.
Proof.
  induction l1 as [|e l1 IH]; simpl; [reflexivity|].
  destruct e; rewrite ?IH; try reflexivity. lia.
Qed.

Lemma attempts_app (l1 l2 : Log) :
  forall c,
    attempts c (l1 ++ l2)
    = attempts c l1 ++ attempts (c + successes l1) l2.
Proof.
  induction l1 as [|e l1 IH]; intros c; simpl.
  - now rewrite Nat.add_0_r.
  - destruct e; rewrite ?IH; try reflexivity.
    destruct (succeeded result); simpl; f_equal; f_equal; lia.
Qed.

(** The insert request at any position of a log is one of its attempts, with
    the count of the successes that precede it. *)
Lemma attempts_at (c : nat) (seg1 seg2 : Log) (p z : string) (b : InstanceBody) :
  In ((c + successes seg1)%nat, z, b)
     (attempts c (seg1 ++ EvInstancesInsert p z b :: seg2)).
Proof. rewrite attempts_app. apply in_or_app. right. now left. Qed.

Section PollLog.

Variable compute : Provider.
Variables project zone operation : string.

Lemma polls_attempts (m : nat) :
  forall c k, attempts c (polls compute project zone operation k m) = [].
Proof.
  induction m as [|m IH]; intros c k; [reflexivity|].
  rewrite polls_cons. simpl. apply IH.
Qed.

Lemma polls_successes_pending (m : nat) :
  forall k,
    (forall j, (j < m)%nat ->
               done compute project zone operation (k + j) = false) ->
    successes (polls compute project zone operation k m) = 0%nat.
Proof.
  induction m as [|m IH]; intros k N; [reflexivity|].
  rewrite polls_cons. simpl.
  pose proof (N 0%nat ltac:(lia)) as D0. rewrite Nat.add_0_r in D0.
  unfold succeeded. unfold done in D0. rewrite D0. simpl.
  apply IH. intros j Hj. replace (S k + j)%nat with (k + S j)%nat by lia.
  apply N. lia.
Qed.

Lemma polls_successes_done (n : nat) :
  forall k,
    first_done_from compute project zone operation k n ->
    successes (polls compute project zone operation k (S n))
    = if succeeded (responses compute project zone operation (k + n))
      then 1%nat else 0%nat.
Proof.
  induction n as [|n IH]; intros k F.
  - rewrite Nat.add_0_r. simpl. now rewrite Nat.add_0_r.
  - rewrite polls_cons. cbn [successes].
    pose proof (proj2 F 0%nat ltac:(lia)) as D0. rewrite Nat.add_0_r in D0.
    unfold succeeded at 1. unfold done in D0. rewrite D0. cbn [andb Nat.add].
    rewrite (IH (S k) (first_done_shift _ _ _ _ _ _ F)).
    now replace (S k + n)%nat with (k + S n)%nat by lia.
Qed.

End PollLog.

Section Attempt.

Variable compute : Provider.
Variable fuel : nat.
Variable project : string.
Variable compute_config : Config.

(** What the log of one call of [create_single_instance] shows: one insert
    request, and one success exactly when a record is returned. *)
Lemma create_single_instance_attempt (instance_name : string)
    (zone_config : QuotaZone) (out : Outcome (option InstanceDetails))
    (log : Log) :
  create_single_instance compute fuel instance_name project compute_config
    zone_config = (out, log) ->
  (forall c l2,
      attempts c (log ++ l2)
      = (c, qz_zone zone_config,
         insert_body compute project compute_config instance_name zone_config)
        :: attempts (c + successes log) l2)
  /\ successes log = match out with Ok (Some _) => 1%nat | _ => 0%nat end
  /\ (forall d, out = Ok (Some d) ->
                d = {| id_name := instance_name;
                       id_zone := qz_zone zone_config |}).
Proof.
  intros H.
  assert (A : forall m c l2,
             attempts c
               ((insert_requests compute project compute_config instance_name
                   zone_config
                 ++ polls compute project (qz_zone zone_config)
                      (insert_operation compute project compute_config
                         instance_name zone_config) 0 m) ++ l2)
             = (c, qz_zone zone_config,
                insert_body compute project compute_config instance_name
                  zone_config)
               :: attempts
                    (c + successes
                           (insert_requests compute project compute_config
                              instance_name zone_config
                            ++ polls compute project (qz_zone zone_config)
                                 (insert_operation compute project
                                    compute_config instance_name zone_config)
                                 0 m)) l2).
  { intros m c l2. rewrite <- app_assoc. cbn [insert_requests app attempts].
    rewrite attempts_app, polls_attempts. simpl. reflexivity. }
  destruct (create_single_instance_cases compute fuel project compute_config
              instance_name zone_config) as [[E N]|(n & L & F & E)];
    rewrite E in H; injection H as <- <-; (split; [apply A|]).
  - split; [|discriminate]. cbn [insert_requests app successes].
    now apply polls_successes_pending.
  - cbn [insert_requests app successes].
    rewrite (polls_successes_done _ _ _ _ n 0 F). simpl.
    unfold succeeded. destruct F as [D _]. simpl in D. unfold done in D.
    rewrite D. unfold create_done. cbn [andb].
    destruct (op_error _) as [error|].
    + split; [|destruct (errors error) as [|first rest];
                [|destruct (capacity_code (code first))]; discriminate].
      destruct (errors error) as [|first rest]; [reflexivity|].
      now destruct (capacity_code (code first)).
    + split; [reflexivity|]. intros d Hd. now injection Hd as <-.
Qed.

End Attempt.

(** ** The Provisioning Orchestrator *)

Section Orchestrator.

Variable compute : Provider.
Variable fuel : nat.
Variable project : string.
Variable compute_config : Config.

(** An attempt as the loop makes them, started with [c0] records: the zone
    is one of the zone list, the instance is named after the base name, one
    more than the running count and the zone, and the attempt is the first
    of the loop or is made below the target. *)
Definition attempt_ok (zones : list QuotaZone) (c0 : nat)
    (a : nat * string * InstanceBody) : Prop :=
  let '(c, z, b) := a in
  exists zone_config,
    In zone_config zones
    /\ z = qz_zone zone_config
    /\ b = insert_body compute project compute_config
             (instance_name_of (ic_name (instance_config compute_config))
                (c + 1) z) zone_config
    /\ (c = c0 \/ Z.of_nat c < number_of_instances compute_config).

Lemma attempt_ok_weaken (zone : QuotaZone) (rest : list QuotaZone)
    (c0 c1 : nat) (l : list (nat * string * InstanceBody)) :
  c1 = c0 \/ Z.of_nat c1 < number_of_instances compute_config ->
  Forall (attempt_ok rest c1) l ->
  Forall (attempt_ok (zone :: rest) c0) l.
Proof.
  intros Hc. apply Forall_impl. intros [[c z] b] (zc & Hin & Hz & Hb & Hcount).
  exists zc. repeat split; try assumption; [now right|].
  destruct Hcount as [->|Hlt]; [exact Hc | now right].
Qed.

Definition attempted_zone (a : nat * string * InstanceBody) : string :=
  snd (fst a).

(** What a run of the loop of [create_instances] shows, whatever its
    outcome. *)
Lemma create_loop_attempts (zones : list QuotaZone) :
  forall created out log,
    create_loop compute fuel project compute_config zones created = (out, log) ->
    Forall (attempt_ok zones (List.length created))
           (attempts (List.length created) log)
    /\ exists tried remaining,
        zones = tried ++ remaining
        /\ map attempted_zone (attempts (List.length created) log)
           = map qz_zone tried
        /\ forall recs,
            out = Ok recs ->
            (remaining <> [] ->
             number_of_instances compute_config <= Z.of_nat (List.length recs))
            /\ exists new,
                recs = created ++ new
                /\ List.length new = successes log
                /\ (List.length new <= List.length tried)%nat
                /\ Z.of_nat (List.length recs)
                   <= Z.max (number_of_instances compute_config)
                            (Z.of_nat (List.length created) + 1).
Proof.
  induction zones as [|zone rest IH]; intros created out log H.
  - injection H as <- <-. split; [constructor|].
    exists [], []. repeat split; try reflexivity.
    + intros X. now elim X.
    + injection H as <-. exists []. rewrite app_nil_r. simpl.
      repeat split; lia.
  - rewrite create_loop_cons in H.
    destruct (create_single_instance compute fuel _ project compute_config zone)
      as [out1 log1] eqn:E1.
    destruct (create_single_instance_attempt compute fuel project
                compute_config _ zone out1 log1 E1) as (A & S1 & D1).
    assert (First : attempt_ok (zone :: rest) (List.length created)
                      (List.length created, qz_zone zone,
                       insert_body compute project compute_config
                         (instance_name_of
                            (ic_name (instance_config compute_config))
                            (List.length created + 1) (qz_zone zone)) zone)).
    { exists zone. repeat split; [now left | now left]. }
    assert (Stop : forall o,
               out1 = o -> (forall detail, o <> Ok detail) ->
               (forall recs, out <> Ok recs) /\ log = log1).
    { intros o <- N. unfold bind in H.
      destruct out1 as [detail|e|]; [now elim (N detail)| |];
        injection H as <- <-; split; (discriminate || reflexivity). }
    assert (Alone : attempts (List.length created) log1
                    = [(List.length created, qz_zone zone,
                        insert_body compute project compute_config
                          (instance_name_of
                             (ic_name (instance_config compute_config))
                             (List.length created + 1) (qz_zone zone)) zone)]).
    { specialize (A (List.length created) []). now rewrite app_nil_r in A. }
    destruct out1 as [detail|e|].
    2,3: destruct (Stop _ eq_refl) as [No ->]; [discriminate|];
         rewrite Alone; (split; [now constructor|]); exists [zone], rest;
         repeat split; try reflexivity; now elim (No recs).
    rewrite (bind_run _ _ _ _ eq_refl) in H. cbv zeta in H.
    set (created' := match detail with
                     | Some d => created ++ [d]
                     | None => created
                     end) in *.
    assert (Len : List.length created'
                  = (List.length created + successes log1)%nat).
    { unfold created'. destruct detail; rewrite S1, ?length_app; simpl; lia. }
    destruct (Z.geb_spec (Z.of_nat (List.length created'))
                         (number_of_instances compute_config)) as [Ge|Lt].
    + simpl in H. injection H as <- <-. rewrite app_nil_r, Alone.
      split; [now constructor|]. exists [zone], rest.
      repeat split; try reflexivity.
      * injection H as <-. lia.
      * injection H as <-.
        exists (match detail with Some d => [d] | None => [] end).
        unfold created' in *. destruct detail; rewrite S1 in *; simpl;
          rewrite ?app_nil_r, ?length_app; simpl; repeat split; lia.
    + destruct (create_loop compute fuel project compute_config rest created')
        as [out2 log2] eqn:E2.
      simpl in H. injection H as <- <-.
      destruct (IH created' out2 log2 E2)
        as (F2 & tried & remaining & Hz & Hm & Hok).
      rewrite A, <- Len. split.
      * constructor; [exact First|].
        apply (attempt_ok_weaken zone rest _ (List.length created'));
          [now right | exact F2].
      * exists (zone :: tried), remaining. rewrite Hz. cbn [map app].
        rewrite Hm. repeat split; try reflexivity.
        -- now apply Hok.
        -- destruct (Hok recs H) as (_ & new & -> & Hn & Hle & Hmax).
           exists (match detail with Some d => d :: new | None => new end).
           rewrite successes_app, S1. unfold created' in *.
           destruct detail; rewrite ?length_app in *; simpl in *;
             rewrite <- ?app_assoc; simpl; repeat split; try lia.
Qed.

End Orchestrator.

(** ** Monitors of the log

    An ordering property of a run is stated with a monitor: a state machine
    that reads the log one request at a time and gets stuck ([None]) on a
    request that breaks the property.  A log the monitor reads to its end
    satisfies the property at every one of its points. *)

Section Monitor.

Context {State : Type}.
Variable step : State -> Event -> option State.

Fixpoint observe (s : State) (log : Log) : option State :=
  match log with
  | [] => Some s
  | e :: l =>
      match step s e with
      | Some s' => observe s' l
      | None => None
      end
  end.

Lemma observe_app (l1 l2 : Log) :
  forall s,
    observe s (l1 ++ l2)
    = match observe s l1 with
      | Some s1 => observe s1 l2
      | None => None
      end.
Proof.
  induction l1 as [|e l1 IH]; intros s; simpl; [reflexivity|].
  destruct (step s e); [apply IH | reflexivity].
Qed.

(** Reading a log to its end reads each of its prefixes to its end. *)
Lemma observe_prefix (l1 l2 : Log) (s s' : State) :
  observe s (l1 ++ l2) = Some s' ->
  exists s1, observe s l1 = Some s1 /\ observe s1 l2 = Some s'.
Proof.
  rewrite observe_app. destruct (observe s l1) as [s1|]; [|discriminate].
  intros H. now exists s1.
Qed.

(** Requests the monitor passes over without a change of state. *)
Lemma observe_quiet (quiet : Event -> Prop) (l : Log) (s : State) :
  (forall s e, quiet e -> step s e = Some s) ->
  Forall quiet l -> observe s l = Some s.
Proof.
  intros Q F. induction F as [|e l He F IH]; simpl; [reflexivity|].
  now rewrite (Q s e He).
Qed.

(** [accepts P m Q]: from a state in [P] the monitor reads the log of [m] to
    its end, whatever the outcome of [m], and ends in a state in [Q a] when
    [m] returns [a]. *)
Definition accepts {A} (P : State -> Prop) (m : M A) (Q : A -> State -> Prop) : Prop :=
  forall s,
    P s ->
    exists s', observe s (snd m) = Some s'
               /\ forall a, fst m = Ok a -> Q a s'.

Lemma accepts_ret {A} (P : State -> Prop) (a : A) (Q : A -> State -> Prop) :
  (forall s, P s -> Q a s) -> accepts P (ret a) Q.
Proof.
  intros H s Hs. exists s. split; [reflexivity|].
  intros a' E. injection E as <-. now apply H.
Qed.

Lemma accepts_bind {A B} (P : State -> Prop) (m : M A) (k : A -> M B)
    (Qm : A -> State -> Prop) (Q : B -> State -> Prop) :
  accepts P m Qm ->
  (forall a, accepts (Qm a) (k a) Q) ->
  accepts P (bind m k) Q.
Proof.
  intros Hm Hk s Hs. destruct (Hm s Hs) as (s1 & O1 & Q1).
  unfold bind. destruct m as [[a|e|] l1]; simpl in *.
  - destruct (Hk a s1 (Q1 a eq_refl)) as (s2 & O2 & Q2).
    destruct (k a) as [o l2]. simpl in *.
    exists s2. split; [|exact Q2]. now rewrite observe_app, O1.
  - exists s1. split; [exact O1 | discriminate].
  - exists s1. split; [exact O1 | discriminate].
Qed.

Lemma accepts_weaken {A} (P P' : State -> Prop) (m : M A) (Q Q' : A -> State -> Prop) :
  accepts P' m Q' ->
  (forall s, P s -> P' s) ->
  (forall a s, Q' a s -> Q a s) ->
  accepts P m Q.
Proof.
  intros H HP HQ s Hs. destruct (H s (HP s Hs)) as (s' & O & Q1).
  exists s'. split; [exact O|]. intros a E. now apply HQ, Q1.
Qed.

(** A computation that sends only requests the monitor passes over. *)
Lemma accepts_quiet {A} (quiet : Event -> Prop) (P : State -> Prop) (m : M A) :
  (forall s e, quiet e -> step s e = Some s) ->
  Forall quiet (snd m) ->
  accepts P m (fun _ => P).
Proof.
  intros Q F s Hs. exists s. split; [|now intros].
  now apply (observe_quiet quiet).
Qed.

End Monitor.

(** ** The requests of the survey *)

(** The requests that only read a catalog. *)
Definition listing (e : Event) : Prop :=
  match e with
  | EvZonesList _ _ | EvMachineTypesList _ _ _ | EvAcceleratorTypesList _ _ _ =>
      True
  | _ => False
  end.

Lemma Forall_bind {A B} (P : Event -> Prop) (m : M A) (k : A -> M B) :
  Forall P (snd m) -> (forall a, Forall P (snd (k a))) ->
  Forall P (snd (bind m k)).
Proof.
  intros Hm Hk. unfold bind. destruct m as [[a|e|] l]; simpl in *; try exact Hm.
  specialize (Hk a). destruct (k a) as [o l']. simpl in *.
  apply Forall_app. now split.
Qed.

Lemma Forall_map_listing {A} (f : A -> Event) (l : list A) :
  (forall a, listing (f a)) -> Forall listing (map f l).
Proof. intros H. apply Forall_forall. intros e He.
       apply in_map_iff in He as (a & <- & _). apply H. Qed.

Section Survey.

Variable compute : Provider.

Lemma machine_pages_listing project machine_type gpu_type zone pages :
  forall n available_zones,
    Forall listing
      (snd (machine_pages project machine_type gpu_type zone pages n
              available_zones)).
Proof.
  induction pages as [|response next IH]; intros n available_zones;
    cbn [machine_pages]; [constructor|].
  rewrite bind_call. cbn [snd]. constructor; [exact I|].
  apply Forall_bind; [constructor | intros a; apply IH].
Qed.

Lemma machine_zones_listing project machine_type gpu_type zone_list :
  forall available_zones,
    Forall listing
      (snd (machine_zones compute project machine_type gpu_type zone_list
              available_zones)).
Proof.
  induction zone_list as [|zone rest IH]; intros available_zones;
    cbn [machine_zones]; [constructor|].
  apply Forall_bind; [apply machine_pages_listing | intros a; apply IH].
Qed.

Lemma check_machine_type_and_accelerator_listing project machine_type
    gpu_type zones :
  Forall listing
    (snd (check_machine_type_and_accelerator compute project machine_type
            gpu_type zones)).
Proof.
  unfold check_machine_type_and_accelerator.
  apply Forall_bind; [apply machine_zones_listing|].
  intros [|r l]; constructor.
Qed.

Lemma get_accelerator_quota_listing project config zone requested_gpus :
  Forall listing
    (snd (get_accelerator_quota compute project config zone requested_gpus)).
Proof.
  unfold get_accelerator_quota. apply Forall_bind.
  - rewrite accelerator_zones_spec. cbn [snd].
    apply Forall_forall. intros e He.
    apply in_flat_map in He as (i & _ & He).
    apply in_map_iff in He as (n & <- & _). exact I.
  - intros [|q l]; constructor.
Qed.

Variable gpu_config : Config.

(** The survey only reads catalogs. *)
Lemma survey_listing : Forall listing (snd (survey compute gpu_config)).
Proof.
  unfold survey. cbv zeta. apply Forall_bind.
  - rewrite compute_zones_spec. cbn [snd]. now apply Forall_map_listing.
  - intros zones. apply Forall_bind; [constructor|]. intros _.
    apply Forall_bind; [apply check_machine_type_and_accelerator_listing|].
    intros available. apply get_accelerator_quota_listing.
Qed.

(** Every zone the survey returns carries the region derived from its own
    name. *)
Lemma survey_regions (zones_in_quota : list QuotaZone) (front : Log) :
  survey compute gpu_config = (Ok zones_in_quota, front) ->
  Forall (fun z => qz_region z = region_of (qz_zone z)) zones_in_quota.
Proof.
  intros H. unfold survey in H. cbv zeta in H.
  rewrite (bind_run _ _ _ _ (compute_zones_spec compute gpu_config)) in H.
  destruct (bind _ _) as [out l] eqn:B in H. simpl in H.
  injection H as -> _.
  run_inv B. run_inv B.
  apply check_machine_type_and_accelerator_ok in B1 as [-> _].
  apply get_accelerator_quota_ok in B as [-> _].
  apply Forall_forall. intros q Hq.
  apply in_flat_map in Hq as (i & Hi & Hq).
  apply in_map_iff in Hq as (accelerator & <- & _).
  apply in_flat_map in Hi as (zone & Hz & Hi).
  apply in_map_iff in Hi as (machine & <- & _).
  assert (Z : zi_region zone = region_of (zi_zone zone)).
  { unfold selected_zones in Hz.
    assert (U : In zone (up_zones compute (project_id gpu_config))).
    { destruct (ic_zone (instance_config gpu_config));
        [exact Hz | now apply filter_In in Hz]. }
    apply in_map_iff in U as (z & <- & _). reflexivity. }
  unfold capable_record.
  destruct (mt_accelerators machine) as [[|acc accs]|];
    try destruct (String.eqb _ _); exact Z.
Qed.

End Survey.

(** ** Grouping by region *)

(** Every zone of a group carries the group's key as its region. *)
Definition grouped (d : Regional) : Prop :=
  Forall (fun g => Forall (fun z => qz_region z = fst g) (snd g)) d.

Lemma regional_add_grouped (z : QuotaZone) (d : Regional) :
  grouped d -> grouped (regional_add z d).
Proof.
  induction d as [|[region zones] d IH]; intros G; simpl.
  - repeat constructor.
  - inversion G as [|g d' Hg Hd]; subst. simpl in Hg.
    destruct (String.eqb_spec region (qz_region z)) as [->|Ne].
    + constructor; [|exact Hd]. simpl.
      apply Forall_app. split; [exact Hg | now constructor].
    + constructor; [exact Hg | now apply IH].
Qed.

Lemma group_by_region_grouped (zones_in_quota : list QuotaZone) :
  grouped (group_by_region zones_in_quota).
Proof.
  unfold group_by_region.
  assert (G : forall d, grouped d ->
                        grouped (fold_left (fun d z => regional_add z d)
                                   zones_in_quota d)).
  { induction zones_in_quota as [|z zs IH]; intros d Hd; simpl; [exact Hd|].
    apply IH. now apply regional_add_grouped. }
  apply G. constructor.
Qed.

Lemma regional_add_zones (z : QuotaZone) (d : Regional) (x : QuotaZone) :
  In x (flat_map snd (regional_add z d)) <-> x = z \/ In x (flat_map snd d).
Proof.
  induction d as [|[region zones] d IH]; simpl.
  - intuition.
  - destruct (String.eqb region (qz_region z)); simpl;
      rewrite !in_app_iff; [simpl | rewrite IH]; intuition.
Qed.

(** The groups hold zones of the list given, and only those. *)
Lemma group_by_region_zones (zones_in_quota : list QuotaZone) (x : QuotaZone) :
  In x (flat_map snd (group_by_region zones_in_quota)) <-> In x zones_in_quota.
Proof.
  unfold group_by_region.
  assert (G : forall d,
             In x (flat_map snd (fold_left (fun d z => regional_add z d)
                                   zones_in_quota d))
             <-> In x zones_in_quota \/ In x (flat_map snd d)).
  { induction zones_in_quota as [|z zs IH]; intros d; simpl; [intuition|].
    rewrite IH, regional_add_zones. intuition. }
  rewrite G. simpl. intuition.
Qed.

(** ** Instance names *)

Lemma append_cancel (a x y : string) : a +++ x = a +++ y -> x = y.
Proof.
  induction a as [|c a IH]; simpl; intros H; [exact H|].
  injection H as H. now apply IH.
Qed.

Lemma isdigit_not_dash (c : ascii) : Py.isdigit c = true -> c <> "-"%char.
Proof. intros H ->. discriminate. Qed.

(** Two numerals followed by a dash and a rest are equal only if the numerals
    and the rests are. *)
Lemma numeral_dash_inj (d d' z z' : string) :
  digits_only d = true -> digits_only d' = true ->
  d +++ "-" +++ z = d' +++ "-" +++ z' -> d = d' /\ z = z'.
Proof.
  revert d'; induction d as [|c d IH]; intros [|c' d'] Hd Hd' E; simpl in *.
  - injection E as ->. now split.
  - apply andb_true_iff in Hd' as [Hc _]. injection E as E _.
    now elim (isdigit_not_dash c').
  - apply andb_true_iff in Hd as [Hc _]. injection E as E _.
    now elim (isdigit_not_dash c).
  - apply andb_true_iff in Hd as [_ Hd]. apply andb_true_iff in Hd' as [_ Hd'].
    injection E as -> E. destruct (IH d' Hd Hd' E) as [-> ->]. now split.
Qed.

Lemma str_inj (k k' : nat) : Py.str k = Py.str k' -> k = k'.
Proof.
  unfold Py.str. intros E. apply DecimalNat.Unsigned.to_uint_inj.
  apply (f_equal NilEmpty.uint_of_string) in E.
  rewrite !NilEmpty.usu in E. now injection E.
Qed.

(** The name determines the ordinal and the zone. *)
Lemma instance_name_of_inj (base : string) (k k' : nat) (z z' : string) :
  instance_name_of base k z = instance_name_of base k' z' -> k = k' /\ z = z'.
Proof.
  unfold instance_name_of. intros E.
  apply append_cancel in E. simpl in E. injection E as E.
  apply numeral_dash_inj in E as [E ->];
    try apply digits_only_string_of_uint.
  split; [now apply str_inj | reflexivity].
Qed.

(** The insert requests of a log: zone and body. *)
Fixpoint inserted (log : Log) : list (string * InstanceBody) :=
  match log with
  | [] => []
  | EvInstancesInsert _ zone body :: l => (zone, body) :: inserted l
  | _ :: l => inserted l
  end.

Definition inserted_zones (log : Log) : list string := map fst (inserted log).

Definition inserted_names (log : Log) : list string :=
  map (fun i => body_name (snd i)) (inserted log).

(** An insert request whose instance is named after [base], some ordinal of
    at least one and the zone of the request. *)
Definition named_request (base : string) (e : Event) : Prop :=
  match e with
  | EvInstancesInsert _ zone body =>
      exists k : nat,
        (1 <= k)%nat /\ body_name body = instance_name_of base k zone
  | _ => True
  end.

Lemma named_requests_distinct (base : string) (log : Log) :
  Forall (named_request base) log ->
  NoDup (inserted_zones log) -> NoDup (inserted_names log).
Proof.
  unfold inserted_zones, inserted_names.
  intros F. induction F as [|e l He F IH]; simpl; [constructor|].
  destruct e; try exact IH. simpl. intros N.
  inversion N as [|x xs Hx Hxs]; subst. constructor; [|now apply IH].
  intros Hin. apply Hx. clear - Hin He F.
  destruct He as (k & _ & Hk). rewrite Hk in Hin.
  induction F as [|e l He' F IH]; simpl in *; [exact Hin|].
  destruct e; try (now apply IH). simpl in *.
  destruct Hin as [E|Hin]; [|right; now apply IH].
  left. destruct He' as (k' & _ & Hk'). rewrite Hk' in E.
  now apply instance_name_of_inj in E as [_ ->].
Qed.

Lemma polls_named (base : string) compute project zone operation (m : nat) :
  forall k,
    Forall (named_request base) (polls compute project zone operation k m).
Proof.
  unfold polls. intros k. apply Forall_forall. intros e He.
  apply in_map_iff in He as (j & <- & _). exact I.
Qed.

Section Names.

Variable compute : Provider.
Variable fuel : nat.
Variable compute_config : Config.

Lemma create_single_instance_named (base : string) (k : nat) (project : string)
    (zone_config : QuotaZone) :
  (1 <= k)%nat ->
  Forall (named_request base)
    (snd (create_single_instance compute fuel
            (instance_name_of base k (qz_zone zone_config)) project
            compute_config zone_config)).
Proof.
  destruct (create_single_instance_cases compute fuel project compute_config
              (instance_name_of base k (qz_zone zone_config)) zone_config)
    as [[E _]|(n & _ & _ & E)]; rewrite E; cbn [snd insert_requests app];
    (constructor; [exact I|]); (constructor; [now exists k|]);
    apply polls_named.
Qed.

Lemma create_loop_named (project : string) (zones : list QuotaZone) :
  forall created,
    Forall (named_request (ic_name (instance_config compute_config)))
      (snd (create_loop compute fuel project compute_config zones created)).
Proof.
  induction zones as [|zone rest IH]; intros created; [constructor|].
  rewrite create_loop_cons. apply Forall_bind.
  - apply create_single_instance_named. lia.
  - intros detail. cbv zeta. destruct (_ >=? _); [constructor | apply IH].
Qed.

Lemma delete_poll_named (base project zone operation : string) :
  forall k,
    Forall (named_request base)
      (snd (delete_poll compute fuel project zone operation k)).
Proof.
  induction fuel as [|f IH]; intros k; [constructor|].
  cbn [delete_poll]. rewrite bind_call. cbn [snd].
  constructor; [exact I|].
  destruct (String.eqb _ "DONE"); [destruct (op_error _); constructor|].
  apply IH.
Qed.

Lemma delete_instances_named (base project : string)
    (instances : list InstanceDetails) :
  Forall (named_request base)
    (snd (delete_instances compute fuel project instances)).
Proof.
  induction instances as [|instance rest IH]; [constructor|].
  cbn [delete_instances]. rewrite bind_call. cbn [snd].
  constructor; [exact I|].
  apply Forall_bind; [apply delete_poll_named | intros _; exact IH].
Qed.

Lemma regions_loop_named (groups : Regional) :
  forall regional_summary,
    Forall (named_request (ic_name (instance_config compute_config)))
      (snd (regions_loop compute fuel compute_config groups regional_summary)).
Proof.
  induction groups as [|[region zones] rest IH]; intros regional_summary;
    [constructor|].
  cbn [regions_loop]. apply Forall_bind; [apply create_loop_named|].
  intros instance_details. apply Forall_bind; [|intros _; apply IH].
  destruct instance_details; [constructor | apply delete_instances_named].
Qed.

(** Every insert request of a run names its instance after the configured
    base name, an ordinal and its zone. *)
Lemma main_named :
  Forall (named_request (ic_name (instance_config compute_config)))
    (snd (main compute fuel compute_config)).
Proof.
  rewrite main_eq. apply Forall_bind.
  - eapply Forall_impl; [|apply survey_listing].
    intros e He. now destruct e.
  - intros zones_in_quota. unfold provision.
    apply Forall_bind; [apply regions_loop_named | constructor].
Qed.

End Names.

Lemma attempts_inserted (log : Log) :
  forall c, map (fun a => (snd (fst a), snd a)) (attempts c log) = inserted log.
Proof.
  induction log as [|e l IH]; intros c; [reflexivity|].
  destruct e; simpl; rewrite ?IH; reflexivity.
Qed.

Lemma attempted_zones_inserted (log : Log) (c : nat) :
  map attempted_zone (attempts c log) = inserted_zones log.
Proof.
  unfold inserted_zones. rewrite <- (attempts_inserted log c), map_map.
  reflexivity.
Qed.

Section Provisioning.

Variable compute : Provider.
Variable fuel : nat.
Variable project : string.
Variable compute_config : Config.

(** C8: every insert request of a call of [create_instances] names its
    instance [{base_name}-{ordinal}-{zone_name}]: the configured base name, a
    dash, the decimal numeral of the ordinal, a dash, and the name of the zone
    of the request, the ordinal being one more than the number of instances
    the call has created before the attempt.  Every insert request of a run
    of [main] has a name of that form, for an ordinal of at least one.  Such
    a name determines the ordinal and the zone, so that in a call, and in a
    whole run of [main], in which no zone is attempted twice all the names
    generated are pairwise distinct. *)
Theorem instance_names_distinct (zones : list QuotaZone) :
  let base := ic_name (instance_config compute_config) in
  let log := snd (create_instances compute fuel project compute_config zones) in
  let run := snd (main compute fuel compute_config) in
  (forall seg1 p z b seg2,
      log = seg1 ++ EvInstancesInsert p z b :: seg2 ->
      body_name b
      = base +++ "-" +++ Py.str (successes seg1 + 1) +++ "-" +++ z)
  /\ (forall seg1 p z b seg2,
        run = seg1 ++ EvInstancesInsert p z b :: seg2 ->
        exists k : nat,
          (1 <= k)%nat
          /\ body_name b = base +++ "-" +++ Py.str k +++ "-" +++ z)
  /\ (NoDup (inserted_zones log) -> NoDup (inserted_names log))
  /\ (NoDup (inserted_zones run) -> NoDup (inserted_names run))
  /\ (forall (k k' : nat) (z z' : string),
        base +++ "-" +++ Py.str k +++ "-" +++ z
        = base +++ "-" +++ Py.str k' +++ "-" +++ z' ->
        k = k' /\ z = z')
  /\ Py.str 1 = "1" /\ Py.str 2 = "2" /\ Py.str 10 = "10".
Proof.
  intros base log run. split; [|split; [|split; [|split; [|split]]]].
  - intros seg1 p z b seg2 E.
    destruct (create_instances compute fuel project compute_config zones)
      as [out l] eqn:H.
    unfold create_instances in H.
    destruct (create_loop_attempts compute fuel project compute_config zones
                [] out l H) as [F _].
    subst log. simpl in E. rewrite E in F. rewrite Forall_forall in F.
    specialize (F _ (attempts_at 0 seg1 seg2 p z b)).
    destruct F as (zc & _ & _ & -> & _). reflexivity.
  - intros seg1 p z b seg2 E.
    pose proof (main_named compute fuel compute_config) as F.
    fold run in F. rewrite E in F. rewrite Forall_forall in F.
    apply (F (EvInstancesInsert p z b)), in_elt.
  - apply named_requests_distinct with (base := base).
    apply create_loop_named.
  - apply named_requests_distinct with (base := base).
    apply main_named.
  - intros k k' z z'. exact (instance_name_of_inj base k k' z z').
  - repeat split.
Qed.

(** C3 as amended: [create_instances] returns at most one record per zone
    it was given, and at most [max 1 number_of_instances] records.  When the
    target is at least 1 it returns at most the target number of records,
    and it sends an insert request only while the number of instances
    created so far in the call is below the target: once the count reaches
    the target no further zone is attempted, and zones are left unattempted
    only if the target was reached. *)
Theorem create_instances_bounded
    (zones : list QuotaZone) (recs : list InstanceDetails) (log : Log) :
  create_instances compute fuel project compute_config zones = (Ok recs, log) ->
  (List.length recs <= List.length zones)%nat
  /\ Z.of_nat (List.length recs) <= Z.max 1 (number_of_instances compute_config)
  /\ List.length recs = successes log
  /\ (1 <= number_of_instances compute_config ->
      Z.of_nat (List.length recs) <= number_of_instances compute_config
      /\ forall seg1 p z b seg2,
          log = seg1 ++ EvInstancesInsert p z b :: seg2 ->
          Z.of_nat (successes seg1) < number_of_instances compute_config)
  /\ exists tried remaining,
      zones = tried ++ remaining
      /\ inserted_zones log = map qz_zone tried
      /\ (List.length recs <= List.length tried)%nat
      /\ (remaining <> [] ->
          number_of_instances compute_config <= Z.of_nat (List.length recs)).
Proof.
  intros H. unfold create_instances in H.
  destruct (create_loop_attempts compute fuel project compute_config zones
              [] (Ok recs) log H)
    as (F & tried & remaining & Hz & Hm & Hok).
  destruct (Hok recs eq_refl) as (Hrem & new & Hrecs & Hn & Hle & Hmax).
  simpl in Hrecs, Hmax. subst new.
  assert (Lt : (List.length tried <= List.length zones)%nat).
  { rewrite Hz, length_app. lia. }
  repeat split; try lia.
  - intros seg1 p z b seg2 E. rewrite E in F. rewrite Forall_forall in F.
    specialize (F _ (attempts_at 0 seg1 seg2 p z b)).
    destruct F as (zc & _ & _ & _ & [C|C]); simpl in *; lia.
  - exists tried, remaining. repeat split; try assumption.
    now rewrite <- (attempted_zones_inserted log 0).
Qed.

End Provisioning.

(** ** The configuration check in [main] *)


Section Mismatch.

Variable compute : Provider.
Variable fuel : nat.
Variable gpu_config : Config.



End Mismatch.

(** ** The instances alive during a run *)

(** The state of the monitor of live instances: the instances (zone and
    name) that exist, and the operation being polled, if any: the creation
    ([true]) or the deletion ([false]) of an instance. *)
Record Live := {
  alive : list (string * string);
  pending : option (bool * string * string)
}.

Definition idle (instances : list (string * string)) : Live :=
  {| alive := instances; pending := None |}.

Definition instance_eqb (i j : string * string) : bool :=
  String.eqb (fst i) (fst j) && String.eqb (snd i) (snd j).

Fixpoint remove_first (i : string * string) (l : list (string * string))
  : list (string * string) :=
  match l with
  | [] => []
  | x :: r => if instance_eqb x i then r else x :: remove_first i r
  end.

Definition in_region_of (zone : string) (i : string * string) : bool :=
  String.eqb (region_of (fst i)) (region_of zone).

(** An instance comes to exist when its create operation is reported done
    without error and ceases to exist when its delete operation is.  The
    monitor gets stuck on an insert request sent while an instance of another
    region exists. *)
Definition live_step (s : Live) (e : Event) : option Live :=
  match e with
  | EvInstancesInsert _ zone body =>
      if forallb (in_region_of zone) (alive s)
      then Some {| alive := alive s;
                   pending := Some (true, zone, body_name body) |}
      else None
  | EvInstancesDelete _ zone instance =>
      Some {| alive := alive s; pending := Some (false, zone, instance) |}
  | EvZoneOperationsGet _ _ _ result =>
      if String.eqb (op_status result) "DONE"
      then Some {| alive :=
                     match pending s, op_error result with
                     | Some (true, zone, name), None => alive s ++ [(zone, name)]
                     | Some (false, zone, name), None =>
                         remove_first (zone, name) (alive s)
                     | _, _ => alive s
                     end;
                   pending := None |}
      else Some s
  | _ => Some s
  end.

Definition key (d : InstanceDetails) : string * string := (id_zone d, id_name d).

(** All instances alive are of one region. *)
Definition one_region (l : list (string * string)) : Prop :=
  forall i j, In i l -> In j l -> region_of (fst i) = region_of (fst j).

Definition live_invariant (s : Live) : Prop :=
  one_region (alive s)
  /\ forall zone name,
      pending s = Some (true, zone, name) ->
      forallb (in_region_of zone) (alive s) = true.

Lemma remove_first_In (i x : string * string) (l : list (string * string)) :
  In x (remove_first i l) -> In x l.
Proof.
  induction l as [|y r IH]; simpl; [tauto|].
  destruct (instance_eqb y i); simpl; intuition.
Qed.

Lemma remove_first_head (i : string * string) (l : list (string * string)) :
  remove_first i (i :: l) = l.
Proof.
  simpl. unfold instance_eqb. now rewrite !String.eqb_refl.
Qed.

Lemma live_step_invariant (s s' : Live) (e : Event) :
  live_step s e = Some s' -> live_invariant s -> live_invariant s'.
Proof.
  intros H [One Pen]. destruct e; simpl in H;
    try (injection H as <-; now split).
  - destruct (forallb _ _) eqn:C; [|discriminate]. injection H as <-.
    split; [exact One|]. simpl. intros z n E. now injection E as <- _.
  - destruct (String.eqb _ _); [|injection H as <-; now split].
    injection H as <-. split; [|simpl; discriminate]. simpl.
    destruct (pending s) as [[[[|] z] n]|] eqn:P;
      destruct (op_error result); try exact One.
    + specialize (Pen z n eq_refl). rewrite forallb_forall in Pen.
      assert (R : forall i, In i (alive s ++ [(z, n)]) ->
                            region_of (fst i) = region_of z).
      { intros i Hi. apply in_app_or in Hi as [Hi|[<-|[]]]; [|reflexivity].
        now apply String.eqb_eq, Pen. }
      intros i j Hi Hj. now rewrite (R i Hi), (R j Hj).
    + intros i j Hi Hj. apply One; now apply remove_first_In in Hi, Hj.
Qed.

Lemma observe_live_invariant (log : Log) :
  forall s s',
    observe live_step s log = Some s' -> live_invariant s -> live_invariant s'.
Proof.
  induction log as [|e l IH]; intros s s' H Inv; simpl in H.
  - now injection H as <-.
  - destruct (live_step s e) as [s1|] eqn:E; [|discriminate].
    apply (IH s1 s' H). now apply (live_step_invariant s s1 e).
Qed.

Lemma idle_invariant : live_invariant (idle []).
Proof. split; [intros i j []|discriminate]. Qed.

Section LivePolls.

Variable compute : Provider.
Variables project zone operation : string.

Lemma live_polls_pending (m : nat) :
  forall k s,
    (forall j, (j < m)%nat ->
               done compute project zone operation (k + j) = false) ->
    observe live_step s (polls compute project zone operation k m) = Some s.
Proof.
  induction m as [|m IH]; intros k s N; [reflexivity|].
  rewrite polls_cons. simpl.
  pose proof (N 0%nat ltac:(lia)) as D0. rewrite Nat.add_0_r in D0.
  unfold done in D0. rewrite D0.
  apply IH. intros j Hj. replace (S k + j)%nat with (k + S j)%nat by lia.
  apply N. lia.
Qed.

Lemma live_polls_done (n : nat) :
  forall k s,
    first_done_from compute project zone operation k n ->
    observe live_step s (polls compute project zone operation k (S n))
    = Some {| alive :=
                match pending s,
                      op_error (responses compute project zone operation (k + n))
                with
                | Some (true, z, name), None => alive s ++ [(z, name)]
                | Some (false, z, name), None => remove_first (z, name) (alive s)
                | _, _ => alive s
                end;
              pending := None |}.
Proof.
  induction n as [|n IH]; intros k s F.
  - destruct F as [D _]. rewrite Nat.add_0_r in *. simpl.
    unfold done in D. now rewrite D.
  - rewrite polls_cons. cbn [observe live_step].
    pose proof (proj2 F 0%nat ltac:(lia)) as D0. rewrite Nat.add_0_r in D0.
    unfold done in D0. rewrite D0.
    rewrite (IH (S k) s (first_done_shift _ _ _ _ _ _ F)).
    now replace (S k + n)%nat with (k + S n)%nat by lia.
Qed.

End LivePolls.

Section LiveRun.

Variable compute : Provider.
Variable fuel : nat.
Variable gpu_config : Config.

(** Creating an instance in a zone of the region of the instances alive
    adds it to them when it succeeds, and only then. *)
Lemma create_single_instance_live (instance_name project : string)
    (zone_config : QuotaZone) (instances : list (string * string)) :
  forallb (in_region_of (qz_zone zone_config)) instances = true ->
  accepts live_step (eq (idle instances))
    (create_single_instance compute fuel instance_name project gpu_config
       zone_config)
    (fun detail s' =>
       match detail with
       | Some d =>
           d = {| id_name := instance_name; id_zone := qz_zone zone_config |}
           /\ s' = idle (instances ++ [key d])
       | None => s' = idle instances
       end).
Proof.
  intros R s <-.
  destruct (create_single_instance_cases compute fuel project gpu_config
              instance_name zone_config) as [[E N]|(n & L & F & E)];
    rewrite E; cbn [fst snd]; rewrite observe_app;
    cbn [insert_requests observe live_step idle alive]; rewrite R.
  - rewrite live_polls_pending by exact N.
    eexists. split; [reflexivity | discriminate].
  - rewrite (live_polls_done _ _ _ _ n 0 _ F). cbn [pending alive Nat.add].
    eexists. split; [reflexivity|].
    unfold create_done. intros detail.
    destruct (op_error _) as [error|].
    + destruct (errors error) as [|first rest]; [discriminate|].
      destruct (capacity_code (code first)); [|discriminate].
      now intros [= <-].
    + intros [= <-]. now split.
Qed.

Lemma create_loop_live (region project : string) (zones : list QuotaZone) :
  Forall (fun z => region_of (qz_zone z) = region) zones ->
  forall created,
    Forall (fun d => region_of (id_zone d) = region) created ->
    accepts live_step (eq (idle (map key created)))
      (create_loop compute fuel project gpu_config zones created)
      (fun recs s' => s' = idle (map key recs)).
Proof.
  intros Hz. induction Hz as [|zone rest Hzone Hrest IH]; intros created Hc.
  - apply accepts_ret. now intros s <-.
  - rewrite create_loop_cons.
    eapply accepts_bind.
    + apply create_single_instance_live.
      apply forallb_forall. intros i Hi.
      apply in_map_iff in Hi as (d & <- & Hd).
      rewrite Forall_forall in Hc. unfold in_region_of. simpl.
      apply String.eqb_eq. rewrite Hzone. now apply Hc.
    + intros detail. cbv zeta beta.
      assert (Hc' : Forall (fun d => region_of (id_zone d) = region)
                      match detail with
                      | Some d => created ++ [d]
                      | None => created
                      end
                    \/ exists d, detail = Some d
                                 /\ id_zone d <> qz_zone zone).
      { destruct detail as [d|]; [|now left].
        destruct (String.eqb_spec (id_zone d) (qz_zone zone)) as [Eq|Ne].
        - left. apply Forall_app. split; [exact Hc|].
          constructor; [|constructor]. now rewrite Eq.
        - right. now exists d. }
      destruct Hc' as [Hc'|(d & -> & Ne)].
      * destruct (_ >=? _).
        -- apply accepts_ret. intros s Hs.
           destruct detail as [d|]; [destruct Hs as [_ ->]|subst s];
             now rewrite ?map_app.
        -- eapply accepts_weaken; [apply (IH _ Hc') | | now intros].
           intros s Hs.
           destruct detail as [d|]; [destruct Hs as [_ ->]|subst s];
             now rewrite ?map_app.
      * intros s [-> _]. now elim Ne.
Qed.

(** Polling the deletion of the first instance alive to its end removes it. *)
Lemma delete_poll_live (project zone name operation : string)
    (instances : list (string * string)) :
  accepts live_step
    (eq {| alive := (zone, name) :: instances;
           pending := Some (false, zone, name) |})
    (delete_poll compute fuel project zone operation 0)
    (fun _ s' => s' = idle instances).
Proof.
  intros s <-.
  destruct (first_done_within compute project zone operation fuel)
    as [N|(n & L & F)].
  - rewrite delete_poll_pending by (intros j Hj; now apply N).
    cbn [fst snd]. rewrite live_polls_pending by exact N.
    eexists. split; [reflexivity | discriminate].
  - rewrite (delete_poll_done compute project zone operation fuel 0 n F L).
    cbn [fst snd]. rewrite (live_polls_done _ _ _ _ n 0 _ F).
    cbn [pending alive Nat.add].
    eexists. split; [reflexivity|]. unfold delete_done.
    destruct (op_error _); [discriminate|].
    intros _ _. now rewrite remove_first_head.
Qed.

Lemma delete_instances_live (project : string) (instances : list InstanceDetails) :
  accepts live_step (eq (idle (map key instances)))
    (delete_instances compute fuel project instances)
    (fun _ s' => s' = idle []).
Proof.
  induction instances as [|instance rest IH].
  - apply accepts_ret. now intros s <-.
  - cbn [delete_instances].
    eapply accepts_bind with
      (Qm := fun _ s' => s' = {| alive := key instance :: map key rest;
                                 pending := Some (false, id_zone instance,
                                                  id_name instance) |}).
    + intros s <-. eexists. split; [reflexivity|]. now intros.
    + intros _. eapply accepts_bind.
      * eapply accepts_weaken; [apply delete_poll_live | | intros a s H; exact H].
        intros s ->. reflexivity.
      * intros u. eapply accepts_weaken; [exact IH | | now intros].
        now intros s ->.
Qed.

(** Every zone of a group lies in the region that is the group's key. *)
Definition well_grouped (groups : Regional) : Prop :=
  Forall (fun g => Forall (fun z => region_of (qz_zone z) = fst g) (snd g))
         groups.

(** Each iteration of the loop over the regions starts and ends with no
    instance alive. *)
Lemma regions_loop_live (groups : Regional) :
  well_grouped groups ->
  forall regional_summary,
    accepts live_step (eq (idle []))
      (regions_loop compute fuel gpu_config groups regional_summary)
      (fun _ s' => s' = idle []).
Proof.
  intros W. induction W as [|[region zones] rest Hg Hrest IH];
    intros regional_summary.
  - apply accepts_ret. now intros s <-.
  - cbn [regions_loop]. eapply accepts_bind.
    + apply (create_loop_live region _ zones Hg []). constructor.
    + intros instance_details.
      eapply accepts_bind with (Qm := fun _ s' => s' = idle []).
      * destruct instance_details as [|d l].
        -- apply accepts_ret. intros s Hs. exact Hs.
        -- eapply accepts_weaken;
             [apply delete_instances_live | | intros a s H; exact H].
           now intros s ->.
      * intros u. eapply accepts_weaken; [apply IH | | now intros].
        now intros s ->.
Qed.

Lemma survey_well_grouped (zones_in_quota : list QuotaZone) (front : Log) :
  survey compute gpu_config = (Ok zones_in_quota, front) ->
  well_grouped (group_by_region zones_in_quota).
Proof.
  intros H. apply survey_regions in H.
  pose proof (group_by_region_grouped zones_in_quota) as G.
  unfold well_grouped, grouped in *.
  rewrite Forall_forall in *. intros g Hg. specialize (G g Hg).
  rewrite Forall_forall in *. intros z Hz.
  rewrite <- (G z Hz). symmetry. apply H.
  apply group_by_region_zones. apply in_flat_map. now exists g.
Qed.

Lemma listing_live (s : Live) (e : Event) : listing e -> live_step s e = Some s.
Proof. now destruct e. Qed.

(** A run of [main] starts and, when it returns, ends with no instance
    alive, and the monitor reads its log to the end. *)
Lemma main_live :
  accepts live_step (eq (idle [])) (main compute fuel gpu_config)
    (fun _ s' => s' = idle []).
Proof.
  rewrite main_eq.
  eapply accepts_bind with
    (Qm := fun zones_in_quota s' =>
             s' = idle [] /\ well_grouped (group_by_region zones_in_quota)).
  - intros s <-. exists (idle []). split.
    + apply (observe_quiet live_step listing); [apply listing_live|].
      apply survey_listing.
    + intros zq E. split; [reflexivity|].
      apply (survey_well_grouped zq (snd (survey compute gpu_config))).
      rewrite <- E. now destruct (survey compute gpu_config).
  - intros zq. unfold provision. eapply accepts_bind with
      (Qm := fun _ s' => s' = idle []).
    + intros s [-> W]. now apply (regions_loop_live _ W [] (idle [])).
    + intros summary. apply accepts_ret. now intros.
Qed.

End LiveRun.

Lemma regional_add_keys (z : QuotaZone) (d : Regional) :
  map fst (regional_add z d) = map fst d
  \/ (~ In (qz_region z) (map fst d)
      /\ map fst (regional_add z d) = map fst d ++ [qz_region z]).
Proof.
  induction d as [|[region zones] d IH]; simpl.
  - right. split; [tauto | reflexivity].
  - destruct (String.eqb_spec region (qz_region z)) as [E|Ne]; simpl.
    + now left.
    + destruct IH as [IH|[N IH]]; [left; now rewrite IH|].
      right. split; [|now rewrite IH]. intros [H|H]; [now apply Ne | now apply N].
Qed.

(** The groups have pairwise distinct keys, as the keys of a dictionary. *)
Lemma group_by_region_keys (zones_in_quota : list QuotaZone) :
  NoDup (map fst (group_by_region zones_in_quota)).
Proof.
  unfold group_by_region.
  assert (G : forall d, NoDup (map fst d) ->
                        NoDup (map fst (fold_left (fun d z => regional_add z d)
                                          zones_in_quota d))).
  { induction zones_in_quota as [|z zs IH]; intros d Hd; simpl; [exact Hd|].
    apply IH. destruct (regional_add_keys z d) as [->|[N ->]]; [exact Hd|].
    apply NoDup_app; [exact Hd | repeat constructor; tauto |].
    intros x Hx [<-|[]]. now apply N. }
  apply G. constructor.
Qed.

Section Regions.

Variable compute : Provider.
Variable fuel : nat.
Variable gpu_config : Config.

(** C4: read the log of any run of [main], complete or not, with the monitor
    of live instances, in which an instance exists from the completion
    without error of its create operation to the completion without error of
    its delete operation.  At every point of the run the instances alive are
    of one region, and whenever an insert request is sent every instance
    alive lies in the region of the zone of that request.  The groups the
    run provisions have pairwise distinct regions, so no instance of one
    region is alive when provisioning for another begins; and when the run
    returns no instance is alive. *)
Theorem one_region_alive_at_a_time :
  let run := snd (main compute fuel gpu_config) in
  (forall before after,
      run = before ++ after ->
      exists s, observe live_step (idle []) before = Some s
                /\ one_region (alive s))
  /\ (forall before p zone body after,
        run = before ++ EvInstancesInsert p zone body :: after ->
        exists s, observe live_step (idle []) before = Some s
                  /\ forall i, In i (alive s) ->
                               region_of (fst i) = region_of zone)
  /\ (forall table,
        fst (main compute fuel gpu_config) = Ok table ->
        observe live_step (idle []) run = Some (idle []))
  /\ (forall zones_in_quota front,
        survey compute gpu_config = (Ok zones_in_quota, front) ->
        NoDup (map fst (group_by_region zones_in_quota))
        /\ well_grouped (group_by_region zones_in_quota)).
Proof.
  intros run.
  destruct (main_live compute fuel gpu_config (idle []) eq_refl)
    as (s_end & O & Q). fold run in O.
  split; [|split; [|split]].
  - intros before after E. rewrite E in O.
    apply observe_prefix in O as (s & Ob & _).
    exists s. split; [exact Ob|].
    now apply (observe_live_invariant before (idle []) s Ob idle_invariant).
  - intros before p zone body after E. rewrite E in O.
    apply observe_prefix in O as (s & Ob & Oa).
    exists s. split; [exact Ob|].
    simpl in Oa. destruct (forallb _ _) eqn:C; [|discriminate].
    rewrite forallb_forall in C. intros i Hi.
    now apply String.eqb_eq, C.
  - intros table E. rewrite O. f_equal. now apply (Q table).
  - intros zq front H. split; [apply group_by_region_keys|].
    now apply (survey_well_grouped compute gpu_config zq front).
Qed.

End Regions.

(** ** The properties on the sample provider *)

Section Runs.

Import Sample.

(** A run of four selected zones in two regions: the first zone is out of
    quota, the next two give the two instances wanted, which are deleted
    before the instance of the second region is created. *)
Example main_two_regions :
  fst (main provider 5
         (config "a2-highgpu-1g" 1 2
            ["us-central1-a"; "us-central1-b"; "us-central1-c";
             "europe-west4-a"]))
  = Ok [ ("us-central1", "probe-1-us-central1-b", "us-central1-b");
         ("us-central1", "probe-2-us-central1-c", "us-central1-c");
         ("europe-west4", "probe-1-europe-west4-a", "europe-west4-a") ].
Proof. vm_compute. reflexivity. Qed.

(** In that run, when the second instance of the first region has just been
    created, the two instances of that region are alive, and when the run
    returns none is. *)
Example main_two_regions_alive :
  let run :=
    snd (main provider 5
           (config "a2-highgpu-1g" 1 2
              ["us-central1-a"; "us-central1-b"; "us-central1-c";
               "europe-west4-a"])) in
  observe live_step (idle []) (firstn 27 run)
  = Some (idle [ ("us-central1-b", "probe-1-us-central1-b");
                 ("us-central1-c", "probe-2-us-central1-c") ])
  /\ observe live_step (idle []) run = Some (idle []).
Proof. vm_compute. split; reflexivity. Qed.

(** Over all zones the run reaches the zone where creation is refused, and
    ends there. *)
Example main_fatal_error :
  fst (main provider 5 (config "a2-highgpu-1g" 1 2 []))
  = Raise (OperationException permission_error).
Proof. vm_compute. reflexivity. Qed.

(** More GPUs requested than any zone allows per instance. *)
Example main_no_quota :
  fst (main provider 5 (config "n1-standard-4" 32 2 []))
  = Raise (Exception
             "No accelerator types of nvidia-tesla-a100 are available with n1-standard-4 in any zone, or wrong number of GPUs requested").
Proof. vm_compute. reflexivity. Qed.




(** The claim C3 as stated fails: with a target of no instance
    [create_instances] still creates one and returns it. *)
Lemma create_instances_exceeds_target :
  number_of_instances (config "a2-highgpu-1g" 1 0 []) = 0
  /\ fst (create_instances provider 5 "demo" (config "a2-highgpu-1g" 1 0 [])
            [quota_zone "us-central1-b"; quota_zone "us-central1-c"])
     = Ok [ {| id_name := "probe-1-us-central1-b";
               id_zone := "us-central1-b" |} ]
  /\ ~ (Z.of_nat
          (List.length
             [ {| id_name := "probe-1-us-central1-b";
                  id_zone := "us-central1-b" |} ])
        <= number_of_instances (config "a2-highgpu-1g" 1 0 [])).
Proof.
  split; [|split]; try (vm_compute; reflexivity).
  simpl. lia.
Qed.

(** Witness of C3 as amended: with a target of two instances and three
    zones, two records are returned. *)
Lemma create_instances_bounded_witness :
  1 <= number_of_instances (config "a2-highgpu-1g" 1 2 [])
  /\ exists recs,
      fst (create_instances provider 5 "demo" (config "a2-highgpu-1g" 1 2 [])
             [quota_zone "us-central1-a"; quota_zone "us-central1-b";
              quota_zone "us-central1-c"]) = Ok recs
      /\ Z.of_nat (List.length recs) <= 2.
Proof.
  split; [simpl; lia|].
  destruct (create_instances provider 5 "demo" (config "a2-highgpu-1g" 1 2 [])
              [quota_zone "us-central1-a"; quota_zone "us-central1-b";
               quota_zone "us-central1-c"]) as [out log] eqn:E.
  assert (O : exists recs, out = Ok recs).
  { apply (f_equal fst) in E. vm_compute in E. subst out. now eexists. }
  destruct O as [recs ->]. exists recs. split; [reflexivity|].
  destruct (create_instances_bounded provider 5 "demo"
              (config "a2-highgpu-1g" 1 2 []) _ recs log E)
    as (_ & _ & _ & B & _).
  apply B. simpl. lia.
Defined.

(** Witness of C5: one GPU requested, sixteen allowed per instance. *)
Lemma get_accelerator_quota_within_maximum_witness :
  exists zones_in_quota,
    fst (get_accelerator_quota provider "demo" (config "a2-highgpu-1g" 1 2 [])
           [capable_zone "us-central1-b"] 1) = Ok zones_in_quota
    /\ Forall (fun q => 1 <= qz_maximum_gpus q) zones_in_quota.
Proof.
  destruct (get_accelerator_quota provider "demo"
              (config "a2-highgpu-1g" 1 2 []) [capable_zone "us-central1-b"] 1)
    as [out log] eqn:E.
  assert (O : exists zones_in_quota, out = Ok zones_in_quota).
  { apply (f_equal fst) in E. vm_compute in E. subst out. now eexists. }
  destruct O as [zones_in_quota ->]. exists zones_in_quota.
  split; [reflexivity|].
  destruct (get_accelerator_quota_within_maximum provider "demo"
              (config "a2-highgpu-1g" 1 2 []) 1 _ zones_in_quota log E)
    as (_ & F & _).
  eapply Forall_impl; [|exact F]. now intros q [H _].
Defined.

(** Witness of C6: the catalog of the zone has the machine type, paired
    with the accelerator requested. *)
Lemma check_machine_type_and_accelerator_records_witness :
  exists available,
    fst (check_machine_type_and_accelerator provider "demo" "a2-highgpu-1g"
           "nvidia-tesla-a100" [zone_info "us-central1-b"]) = Ok available
    /\ available
       = flat_map (capable_in provider "demo" "a2-highgpu-1g"
                     "nvidia-tesla-a100")
                  [zone_info "us-central1-b"].
Proof.
  destruct (check_machine_type_and_accelerator provider "demo" "a2-highgpu-1g"
              "nvidia-tesla-a100" [zone_info "us-central1-b"])
    as [out log] eqn:E.
  assert (O : exists available, out = Ok available).
  { apply (f_equal fst) in E. vm_compute in E. subst out. now eexists. }
  destruct O as [available ->]. exists available. split; [reflexivity|].
  apply (check_machine_type_and_accelerator_records provider "demo"
           "a2-highgpu-1g" "nvidia-tesla-a100" _ available log E).
Defined.

(** Witness of C10. *)
Lemma check_gpu_config_value_error_witness :
  ic_machine_type (instance_config (config "a2-megagpu-16g" 16 1 []))
  = "a2-megagpu-16g"
  /\ check_gpu_config (config "a2-megagpu-16g" 16 1 [])
     = Raise (ValueError "gpu-16").
Proof.
  split; [reflexivity|].
  apply (check_gpu_config_value_error (config "a2-megagpu-16g" 16 1 []) eq_refl).
Defined.

End Runs.

(** * Further properties of the program *)

(** ** [check_gpu_config] on the [a2-highgpu] family *)

(** X1: on a machine type [a2-highgpu-<k>g], [check_gpu_config] passes if and
    only if [number_of_gpus] is [k], and raises the configuration-mismatch
    error otherwise; it never ends in the [ValueError] of [int()] there. *)
Theorem check_gpu_config_highgpu (config : Config) (k : nat) :
  ic_machine_type (instance_config config)
  = "a2-highgpu-" +++ Py.str k +++ "g" ->
  (check_gpu_config config = Ok tt
   <-> ic_number_of_gpus (instance_config config) = Z.of_nat k)
  /\ (ic_number_of_gpus (instance_config config) <> Z.of_nat k ->
      check_gpu_config config = Raise (Exception mismatch_message))
  /\ (forall literal, check_gpu_config config <> Raise (ValueError literal)).
Proof.
  intros H. unfold check_gpu_config. rewrite H.
  change (Py.startswith ("a2-highgpu-" +++ Py.str k +++ "g") "a2") with true.
  cbv iota. rewrite gpus_in_highgpu, int_str.
  destruct (Z.eqb_spec (ic_number_of_gpus (instance_config config)) (Z.of_nat k))
    as [E|Ne]; simpl.
  - repeat split; easy.
  - repeat split; easy.
Qed.

(** ** The region of a zone *)

(** X2: a zone name made of a region followed by two characters (a dash and
    the zone letter) has that region as its derived region, and
    [get_zone_info] records it for every such zone that is "UP". *)
Theorem region_of_zone_name (region suffix : string) :
  String.length suffix = 2%nat ->
  region_of (region +++ suffix) = region
  /\ forall compute project status,
      In {| zone_name := region +++ suffix; zone_status := status |}
         (List.concat (all_pages (zones_list compute project))) ->
      status = "UP" ->
      exists zones log,
        get_zone_info compute project = (Ok zones, log)
        /\ In {| zi_region := region; zi_zone := region +++ suffix |} zones.
Proof.
  intros L.
  assert (R : region_of (region +++ suffix) = region).
  { rewrite region_of_substring, length_append, L.
    replace (String.length region + 2 - 2)%nat with (String.length region)
      by lia.
    apply substring_append_left. }
  split; [exact R|].
  intros compute project status Hin ->.
  rewrite get_zone_info_spec. do 2 eexists. split; [reflexivity|].
  unfold up_zones. apply in_map_iff.
  exists {| zone_name := region +++ suffix; zone_status := "UP" |}.
  split.
  - unfold zone_info_of. simpl. now rewrite R.
  - apply filter_In. split; [exact Hin | reflexivity].
Qed.

(** ** The outcomes of the Capability Filter *)

Section CapabilityOutcomes.

Variable compute : Provider.
Variables project machine_type gpu_type : string.

(** The requests for the pages of the machine-type catalog of a zone. *)
Definition machine_requests (zone : ZoneInfo) : Log :=
  map (EvMachineTypesList project (zi_zone zone))
      (seq 0 (List.length
                (all_pages (machineTypes_list compute project (zi_zone zone))))).

Definition no_machine_types : exn :=
  Exception ("No machine types of " +++ machine_type +++ " are available").

Lemma machine_items_indexable (zone : ZoneInfo) (items : list MachineType) :
  Forall indexable (filter (named machine_type) items) ->
  forall available_zones,
    machine_items machine_type gpu_type zone items available_zones
    = Ok (available_zones
          ++ map (capable_record gpu_type zone)
               (filter (named machine_type) items)).
Proof.
  induction items as [|machine rest IH]; intros F available_zones; simpl.
  - now rewrite app_nil_r.
  - unfold paired_with. simpl in F. unfold named at 1 in F. unfold named at 1.
    destruct (String.eqb (mt_name machine) machine_type) eqn:En.
    + inversion F as [|m l I F']; subst. unfold indexable in I.
      destruct (mt_accelerators machine) as [[|a accs]|] eqn:Ea;
        [congruence| |].
      * destruct (String.eqb (guestAcceleratorType a) gpu_type) eqn:Eg;
          rewrite (IH F'), <- app_assoc; cbn [map app];
          [ rewrite (capable_record_with gpu_type zone machine a accs Ea Eg)
          | rewrite capable_record_without ]; try reflexivity.
        intros a' accs' E'. rewrite Ea in E'. now injection E' as -> ->.
      * rewrite (IH F'), <- app_assoc. cbn [map app].
        rewrite capable_record_without; [reflexivity | congruence].
    + destruct (mt_accelerators machine) as [[|a accs]|]; now apply IH.
Qed.

Lemma machine_items_outcome (zone : ZoneInfo) (items : list MachineType) :
  forall available_zones,
    (exists l, machine_items machine_type gpu_type zone items available_zones
               = Ok l)
    \/ machine_items machine_type gpu_type zone items available_zones
       = Raise IndexError.
Proof.
  induction items as [|machine rest IH]; intros available_zones; simpl.
  - left. now eexists.
  - unfold paired_with.
    destruct (mt_accelerators machine) as [[|a accs]|];
      destruct (String.eqb (mt_name machine) machine_type);
      try destruct (String.eqb (guestAcceleratorType a) gpu_type);
      try apply IH.
    now right.
Qed.

Lemma machine_pages_indexable (zone : ZoneInfo)
    (pages : list (list MachineType)) :
  Forall indexable (filter (named machine_type) (List.concat pages)) ->
  forall n available_zones,
    machine_pages project machine_type gpu_type zone pages n available_zones
    = (Ok (available_zones
           ++ map (capable_record gpu_type zone)
                (filter (named machine_type) (List.concat pages))),
       map (EvMachineTypesList project (zi_zone zone))
           (seq n (List.length pages))).
Proof.
  induction pages as [|response next IH]; intros F n available_zones.
  - simpl. unfold ret. now rewrite app_nil_r.
  - cbn [machine_pages]. rewrite bind_call.
    simpl in F. rewrite filter_app in F. apply Forall_app in F as [F1 F2].
    rewrite (machine_items_indexable zone response F1). unfold lift.
    rewrite (bind_run _ _ _ _ eq_refl), (IH F2). simpl.
    now rewrite filter_app, map_app, <- app_assoc.
Qed.

Lemma machine_pages_outcome (zone : ZoneInfo) (pages : list (list MachineType)) :
  forall n available_zones,
    (exists l log,
        machine_pages project machine_type gpu_type zone pages n available_zones
        = (Ok l, log))
    \/ fst (machine_pages project machine_type gpu_type zone pages n
              available_zones) = Raise IndexError.
Proof.
  induction pages as [|response next IH]; intros n available_zones.
  - left. now do 2 eexists.
  - cbn [machine_pages]. rewrite bind_call. cbn [fst].
    destruct (machine_items_outcome zone response available_zones)
      as [[l E]| E]; rewrite E; unfold lift.
    + rewrite (bind_run _ _ _ _ eq_refl). cbn [fst].
      destruct (IH (S n) l) as [(l' & log & E')|E'].
      * left. rewrite E'. now do 2 eexists.
      * now right.
    + now right.
Qed.

Lemma machine_zones_indexable (zone_list : list ZoneInfo) :
  Forall (fun zone =>
            Forall indexable (named_in compute project machine_type zone))
         zone_list ->
  forall available_zones,
    machine_zones compute project machine_type gpu_type zone_list
      available_zones
    = (Ok (available_zones
           ++ flat_map (capable_in compute project machine_type gpu_type)
                zone_list),
       flat_map machine_requests zone_list).
Proof.
  intros F. induction F as [|zone rest Fz Frest IH]; intros available_zones.
  - simpl. unfold ret. now rewrite app_nil_r.
  - cbn [machine_zones flat_map].
    rewrite (bind_run _ _ _ _
               (machine_pages_indexable zone _ Fz 0%nat available_zones)).
    rewrite IH. cbn [fst snd]. now rewrite <- app_assoc.
Qed.

Lemma machine_zones_outcome (zone_list : list ZoneInfo) :
  forall available_zones,
    (exists l log,
        machine_zones compute project machine_type gpu_type zone_list
          available_zones = (Ok l, log))
    \/ fst (machine_zones compute project machine_type gpu_type zone_list
              available_zones) = Raise IndexError.
Proof.
  induction zone_list as [|zone rest IH]; intros available_zones.
  - left. now do 2 eexists.
  - cbn [machine_zones].
    destruct (machine_pages_outcome zone
                (all_pages (machineTypes_list compute project (zi_zone zone)))
                0 available_zones) as [(l & log & E)|E].
    + rewrite (bind_run _ _ _ _ E). cbn [fst].
      destruct (IH l) as [(l' & log' & E')|E'].
      * left. rewrite E'. now do 2 eexists.
      * now right.
    + right. destruct (machine_pages _ _ _ _ _ _ _) as [[l|e|] log];
        simpl in *; congruence.
Qed.

Lemma indexable_dec (machine : MachineType) :
  {indexable machine} + {~ indexable machine}.
Proof.
  unfold indexable. destruct (mt_accelerators machine) as [[|a accs]|].
  - right. intros H. now apply H.
  - left. discriminate.
  - left. discriminate.
Qed.

(** X3: the Capability Filter raises its "No machine types ... are
    available" error, after requesting every page of the machine-type catalog
    of every zone, exactly when no catalog has an entry named like the
    requested machine type. *)
Theorem check_machine_type_and_accelerator_none (zones : list ZoneInfo) :
  (forall zone machine,
      In zone zones ->
      In machine (machine_catalog compute project (zi_zone zone)) ->
      mt_name machine <> machine_type)
  <-> check_machine_type_and_accelerator compute project machine_type gpu_type
        zones
      = (Raise no_machine_types, flat_map machine_requests zones).
Proof.
  assert (Empty : (forall zone machine,
                      In zone zones ->
                      In machine (machine_catalog compute project (zi_zone zone)) ->
                      mt_name machine <> machine_type)
                  <-> (forall zone, In zone zones ->
                         named_in compute project machine_type zone = [])).
  { split.
    - intros N zone Hz.
      destruct (named_in compute project machine_type zone) as [|m ms] eqn:Nz;
        [reflexivity|].
      assert (Hm : In m (named_in compute project machine_type zone))
        by (rewrite Nz; now left).
      apply filter_In in Hm as [Hm Hn]. apply String.eqb_eq in Hn.
      now elim (N zone m Hz Hm).
    - intros N zone machine Hz Hm Hn.
      assert (X : In machine (named_in compute project machine_type zone)).
      { apply filter_In. split; [exact Hm|]. now apply String.eqb_eq. }
      rewrite (N zone Hz) in X. destruct X. }
  rewrite Empty. clear Empty.
  unfold check_machine_type_and_accelerator. split.
  - intros N.
    assert (F : Forall (fun zone =>
                          Forall indexable
                            (named_in compute project machine_type zone))
                       zones).
    { apply Forall_forall. intros zone Hz. rewrite (N zone Hz). constructor. }
    rewrite (bind_run _ _ _ _ (machine_zones_indexable zones F [])).
    assert (E : flat_map (capable_in compute project machine_type gpu_type)
                  zones = []).
    { clear F. induction zones as [|zone rest IH]; [reflexivity|]. simpl.
      unfold capable_in at 1. rewrite (N zone (or_introl eq_refl)). simpl.
      apply IH. intros z Hz. apply N. now right. }
    rewrite E. simpl. now rewrite app_nil_r.
  - intros H.
    destruct (machine_zones_outcome zones []) as [(l & log & E)|E].
    + rewrite (bind_run _ _ _ _ E) in H.
      apply machine_zones_ok in E as [-> _]. simpl in H.
      destruct (flat_map _ zones) as [|r l] eqn:Fm; [|discriminate H].
      intros zone Hz.
      destruct (named_in compute project machine_type zone) as [|m ms] eqn:Nz;
        [reflexivity|].
      assert (X : In (capable_record gpu_type zone m)
                     (flat_map (capable_in compute project machine_type gpu_type)
                        zones)).
      { apply in_flat_map. exists zone. split; [exact Hz|].
        unfold capable_in. rewrite Nz. now left. }
      rewrite Fm in X. destruct X.
    + destruct (machine_zones _ _ _ _ _ _) as [[l|e|] log]; simpl in *;
        try discriminate. injection E as ->. discriminate H.
Qed.

(** X4: the Capability Filter ends in an [IndexError] exactly when some
    catalog entry named like the requested machine type carries an
    [accelerators] list that is empty: such an entry is neither kept nor
    skipped. *)
Theorem check_machine_type_and_accelerator_index_error (zones : list ZoneInfo) :
  fst (check_machine_type_and_accelerator compute project machine_type gpu_type
         zones) = Raise IndexError
  <-> exists zone machine,
      In zone zones
      /\ In machine (machine_catalog compute project (zi_zone zone))
      /\ mt_name machine = machine_type
      /\ mt_accelerators machine = Some [].
Proof.
  unfold check_machine_type_and_accelerator. split.
  - intros H.
    destruct (Forall_Exists_dec
                (fun zone =>
                   Forall indexable (named_in compute project machine_type zone))
                (fun zone => Forall_dec indexable indexable_dec _) zones)
      as [F|X].
    + rewrite (bind_run _ _ _ _ (machine_zones_indexable zones F [])) in H.
      simpl in H. destruct (flat_map _ zones); discriminate H.
    + apply Exists_exists in X as (zone & Hz & X).
      apply neg_Forall_Exists_neg in X; [|apply indexable_dec].
      apply Exists_exists in X as (machine & Hm & X).
      apply filter_In in Hm as [Hm Hn]. apply String.eqb_eq in Hn.
      exists zone, machine. repeat split; try assumption.
      unfold indexable in X.
      destruct (mt_accelerators machine) as [[|a accs]|]; try reflexivity;
        elim X; discriminate.
  - intros (zone & machine & Hz & Hm & Hn & He).
    destruct (machine_zones_outcome zones []) as [(l & log & E)|E].
    + apply machine_zones_ok in E as [_ F].
      rewrite Forall_forall in F. specialize (F zone Hz).
      rewrite Forall_forall in F.
      assert (I : indexable machine).
      { apply F. apply filter_In. split; [exact Hm|]. now apply String.eqb_eq. }
      now elim I.
    + destruct (machine_zones _ _ _ _ _ _) as [[l|e|] log]; simpl in *;
        try discriminate. now injection E as ->.
Qed.

End CapabilityOutcomes.

(** ** The outcomes of the Quota Validator *)

Section QuotaOutcomes.

Variable compute : Provider.
Variable project : string.
Variable config : Config.
Variable requested_gpus : Z.

Definition no_accelerator_types : exn :=
  Exception
    ("No accelerator types of " +++ ic_gpu_type (instance_config config)
     +++ " are available with " +++ ic_machine_type (instance_config config)
     +++ " in any zone, or wrong number of GPUs requested").

Lemma get_accelerator_quota_eq (zone : list CapableZone) :
  get_accelerator_quota compute project config zone requested_gpus
  = (match flat_map (approved_in compute project config requested_gpus) zone with
     | [] => Raise no_accelerator_types
     | l => Ok l
     end,
     flat_map (accelerator_requests compute project) zone).
Proof.
  unfold get_accelerator_quota.
  rewrite (bind_run _ _ _ _
             (accelerator_zones_spec compute project config requested_gpus
                zone [])).
  simpl. destruct (flat_map _ zone); simpl; now rewrite app_nil_r.
Qed.

(** X5: the Quota Validator reads every page of the accelerator-type catalog
    of every capable zone, a page without [items] included, whatever it
    finds.  It raises its "No accelerator types ..." error exactly when no
    catalog entry with the configured accelerator name allows the requested
    number of GPUs per instance, and otherwise returns; it raises nothing
    else. *)
Theorem get_accelerator_quota_outcome (zone : list CapableZone) :
  snd (get_accelerator_quota compute project config zone requested_gpus)
  = flat_map (accelerator_requests compute project) zone
  /\ ((forall i accelerator,
         In i zone ->
         In accelerator (accelerator_catalog compute project (cz_zone i)) ->
         at_name accelerator = ic_gpu_type (instance_config config) ->
         at_maximumCardsPerInstance accelerator < requested_gpus)
      <-> fst (get_accelerator_quota compute project config zone requested_gpus)
          = Raise no_accelerator_types)
  /\ ((exists zones_in_quota,
          fst (get_accelerator_quota compute project config zone requested_gpus)
          = Ok zones_in_quota)
      \/ fst (get_accelerator_quota compute project config zone requested_gpus)
         = Raise no_accelerator_types).
Proof.
  rewrite get_accelerator_quota_eq. cbn [fst snd].
  split; [reflexivity|]. split.
  - split.
    + intros N.
      destruct (flat_map _ zone) as [|q l] eqn:E; [reflexivity|].
      assert (Hq : In q (flat_map
                           (approved_in compute project config requested_gpus)
                           zone)) by (rewrite E; now left).
      apply in_flat_map in Hq as (i & Hi & Hq).
      apply in_map_iff in Hq as (accelerator & _ & Ha).
      apply filter_In in Ha as [Ha Hp].
      apply andb_true_iff in Hp as [Hn Hm].
      apply String.eqb_eq in Hn. apply Z.leb_le in Hm.
      specialize (N i accelerator Hi Ha Hn). lia.
    + intros H i accelerator Hi Ha Hn.
      destruct (flat_map _ zone) as [|q l] eqn:E; [|discriminate H].
      destruct (Z.lt_ge_cases (at_maximumCardsPerInstance accelerator)
                              requested_gpus) as [Lt|Ge]; [exact Lt|].
      assert (X : In (accelerator_dict i accelerator)
                     (flat_map
                        (approved_in compute project config requested_gpus)
                        zone)).
      { apply in_flat_map. exists i. split; [exact Hi|].
        apply in_map. apply filter_In. split; [exact Ha|].
        unfold approved. apply andb_true_iff. split.
        - now apply String.eqb_eq.
        - now apply Z.leb_le. }
      rewrite E in X. destruct X.
  - destruct (flat_map _ zone); [now right | left; now eexists].
Qed.

End QuotaOutcomes.

(** ** Completed operations *)

Lemma first_done_unique compute project zone operation (k n n' : nat) :
  first_done_from compute project zone operation k n ->
  first_done_from compute project zone operation k n' ->
  n = n'.
Proof.
  intros [D B] [D' B'].
  destruct (Nat.lt_trichotomy n n') as [Lt|[Eq|Gt]]; [|exact Eq|].
  - rewrite (B' n Lt) in D. discriminate.
  - rewrite (B n' Gt) in D'. discriminate.
Qed.

Section Completion.

Variable compute : Provider.
Variable fuel : nat.
Variable project : string.
Variable compute_config : Config.

Lemma create_single_instance_done (instance_name : string)
    (zone_config : QuotaZone) (n : nat) :
  (n < fuel)%nat ->
  first_done_from compute project (qz_zone zone_config)
    (insert_operation compute project compute_config instance_name zone_config)
    0 n ->
  create_single_instance compute fuel instance_name project compute_config
    zone_config
  = (create_done instance_name (qz_zone zone_config)
       (responses compute project (qz_zone zone_config)
          (insert_operation compute project compute_config instance_name
             zone_config) n),
     insert_requests compute project compute_config instance_name zone_config
     ++ polls compute project (qz_zone zone_config)
          (insert_operation compute project compute_config instance_name
             zone_config) 0 (S n)).
Proof.
  intros L F. rewrite create_single_instance_eq.
  now rewrite (create_poll_done compute project _ _ instance_name fuel 0 n F L).
Qed.

(** X6: when the create operation is first reported "DONE" at the status
    fetch [n], within the fuel, [create_single_instance] has sent the image
    request, the insert request and exactly [n + 1] status fetches.  Without
    an error in that answer it returns the record of the instance: the name it
    was given and the zone.  With an [error] whose list of errors is empty it
    ends in the [IndexError] of [error_results[0]]. *)
Theorem create_single_instance_completed (instance_name : string)
    (zone_config : QuotaZone) (n : nat) :
  let zone := qz_zone zone_config in
  let operation :=
    insert_operation compute project compute_config instance_name zone_config in
  let result := responses compute project zone operation n in
  let run :=
    create_single_instance compute fuel instance_name project compute_config
      zone_config in
  (n < fuel)%nat ->
  first_done_from compute project zone operation 0 n ->
  snd run
  = [ EvImagesGetFromFamily
        (ic_image_project (instance_config compute_config))
        (ic_image_family (instance_config compute_config));
      EvInstancesInsert project zone
        (insert_body compute project compute_config instance_name zone_config) ]
    ++ polls compute project zone operation 0 (S n)
  /\ List.length (polls compute project zone operation 0 (S n)) = S n
  /\ body_name
       (insert_body compute project compute_config instance_name zone_config)
     = instance_name
  /\ (op_error result = None ->
      fst run = Ok (Some {| id_name := instance_name; id_zone := zone |}))
  /\ (forall error,
        op_error result = Some error -> errors error = [] ->
        fst run = Raise IndexError).
Proof.
  intros zone operation result run L F. subst run.
  rewrite (create_single_instance_done instance_name zone_config n L F).
  fold zone operation result. cbn [fst snd]. unfold create_done.
  repeat split.
  - unfold polls. now rewrite length_map, length_seq.
  - intros E. now rewrite E.
  - intros error E1 E2. now rewrite E1, E2.
Qed.

(** *** Deleting a list of instances *)

Definition delete_operation (instance : InstanceDetails) : string :=
  instances_delete compute project (id_zone instance) (id_name instance).

(** [completes steps instance]: the delete operation of the instance is first
    reported "DONE" at the status fetch [steps instance], within the fuel. *)
Definition completes (steps : InstanceDetails -> nat)
    (instance : InstanceDetails) : Prop :=
  (steps instance < fuel)%nat
  /\ first_done_from compute project (id_zone instance)
       (delete_operation instance) 0 (steps instance).

Definition delete_result (steps : InstanceDetails -> nat)
    (instance : InstanceDetails) : Operation :=
  responses compute project (id_zone instance) (delete_operation instance)
    (steps instance).

(** The requests for the deletion of one instance. *)
Definition delete_requests (steps : InstanceDetails -> nat)
    (instance : InstanceDetails) : Log :=
  EvInstancesDelete project (id_zone instance) (id_name instance)
  :: polls compute project (id_zone instance) (delete_operation instance) 0
       (S (steps instance)).

Lemma delete_instances_cons (instance : InstanceDetails)
    (rest : list InstanceDetails) (steps : InstanceDetails -> nat) :
  completes steps instance ->
  delete_instances compute fuel project (instance :: rest)
  = match op_error (delete_result steps instance) with
    | Some error =>
        (Raise (OperationException error), delete_requests steps instance)
    | None =>
        (fst (delete_instances compute fuel project rest),
         delete_requests steps instance
         ++ snd (delete_instances compute fuel project rest))
    end.
Proof.
  intros [L F]. cbn [delete_instances]. rewrite bind_call.
  fold (delete_operation instance).
  rewrite (delete_poll_done compute project _ _ fuel 0 _ F L).
  unfold delete_done, delete_result, delete_requests. simpl.
  destruct (op_error _); [reflexivity|].
  destruct (delete_instances compute fuel project rest) as [o l].
  reflexivity.
Qed.

(** X7: [delete_instances] deletes the instances in order, each with one
    delete request followed by status fetches up to the first "DONE" answer.
    When every operation completes without error it returns, having done so
    for all of them.  At the first operation that completes with an error it
    raises the exception carrying that error and sends nothing more: no
    delete request is sent for the instances after it. *)
Theorem delete_instances_stops_at_error
    (steps : InstanceDetails -> nat)
    (deleted : list InstanceDetails) (failing : InstanceDetails)
    (rest : list InstanceDetails) (error : OperationError) :
  Forall (fun instance =>
            completes steps instance
            /\ op_error (delete_result steps instance) = None) deleted ->
  delete_instances compute fuel project deleted
  = (Ok tt, flat_map (delete_requests steps) deleted)
  /\ (completes steps failing ->
      op_error (delete_result steps failing) = Some error ->
      delete_instances compute fuel project (deleted ++ failing :: rest)
      = (Raise (OperationException error),
         flat_map (delete_requests steps) (deleted ++ [failing]))).
Proof.
  intros F. split.
  - induction F as [|instance l [C E] F IH]; [reflexivity|].
    rewrite (delete_instances_cons instance l steps C), E, IH. reflexivity.
  - intros C E.
    induction F as [|instance l [Ci Ei] F IH].
    + cbn [app flat_map].
      rewrite (delete_instances_cons failing rest steps C), E.
      now rewrite app_nil_r.
    + cbn [app flat_map].
      rewrite (delete_instances_cons instance _ steps Ci), Ei, IH.
      reflexivity.
Qed.

End Completion.

(** ** The dictionary of regions *)

(** The elements of a list in the order of their first occurrence. *)
Fixpoint first_seen (l : list string) : list string :=
  match l with
  | [] => []
  | x :: r => x :: filter (fun y => negb (String.eqb y x)) (first_seen r)
  end.

Definition in_region (region : string) (z : QuotaZone) : bool :=
  String.eqb (qz_region z) region.

(** The groups as a function of the list of zones: one group per region, in
    the order in which the regions first occur, holding the zones of the
    region in their order. *)
Definition groups_of (zones : list QuotaZone) : Regional :=
  map (fun region => (region, filter (in_region region) zones))
      (first_seen (map qz_region zones)).

Lemma mem_In (s : string) (l : list string) : mem s l = true <-> In s l.
Proof.
  unfold mem. rewrite existsb_exists. split.
  - intros (x & Hx & E). apply String.eqb_eq in E. now subst.
  - intros H. exists s. split; [exact H | apply String.eqb_refl].
Qed.

Lemma first_seen_In (l : list string) (x : string) :
  In x (first_seen l) <-> In x l.
Proof.
  induction l as [|a l IH]; simpl; [tauto|].
  rewrite filter_In, IH, negb_true_iff, String.eqb_neq.
  destruct (String.eqb_spec a x) as [->|Ne]; [tauto|].
  split; [tauto|]. intros [E|H]; [tauto|]. right. split; [exact H|congruence].
Qed.

Lemma first_seen_NoDup (l : list string) : NoDup (first_seen l).
Proof.
  induction l as [|a l IH]; simpl; constructor.
  - rewrite filter_In, negb_true_iff, String.eqb_neq. tauto.
  - now apply NoDup_filter.
Qed.

Lemma first_seen_snoc (l : list string) (x : string) :
  first_seen (l ++ [x])
  = if mem x l then first_seen l else first_seen l ++ [x].
Proof.
  induction l as [|a l IH]; [reflexivity|].
  cbn [app first_seen]. rewrite IH. unfold mem. cbn [existsb].
  fold (mem x l).
  destruct (String.eqb_spec x a) as [->|Ne]; cbn [orb].
  - destruct (mem a l); [reflexivity|].
    rewrite filter_app. simpl. rewrite String.eqb_refl. simpl.
    now rewrite app_nil_r.
  - destruct (mem x l); [reflexivity|].
    rewrite filter_app. simpl.
    destruct (String.eqb_spec x a); [congruence|]. reflexivity.
Qed.

Lemma regional_add_groups (z : QuotaZone) (zones : list QuotaZone)
    (keys : list string) :
  NoDup keys ->
  regional_add z
    (map (fun region => (region, filter (in_region region) zones)) keys)
  = if mem (qz_region z) keys
    then map (fun region => (region, filter (in_region region) (zones ++ [z])))
             keys
    else map (fun region => (region, filter (in_region region) (zones ++ [z])))
             keys
         ++ [(qz_region z, [z])].
Proof.
  assert (Other : forall region,
             region <> qz_region z ->
             filter (in_region region) (zones ++ [z])
             = filter (in_region region) zones).
  { intros region Ne. rewrite filter_app. simpl. unfold in_region at 2.
    destruct (String.eqb_spec (qz_region z) region); [congruence|].
    now rewrite app_nil_r. }
  intros N. induction N as [|k keys Hk N IH]; [reflexivity|].
  cbn [map regional_add]. unfold mem. cbn [existsb]. fold (mem (qz_region z) keys).
  destruct (String.eqb_spec k (qz_region z)) as [->|Ne].
  - rewrite String.eqb_refl. cbn [orb]. f_equal.
    + f_equal. rewrite filter_app. simpl. unfold in_region at 3.
      now rewrite String.eqb_refl.
    + apply map_ext_in. intros region Hr. f_equal. symmetry. apply Other.
      intros ->. now apply Hk.
  - destruct (String.eqb_spec (qz_region z) k) as [E|_]; [congruence|].
    cbn [orb]. rewrite IH, (Other k Ne).
    now destruct (mem (qz_region z) keys).
Qed.

Lemma group_by_region_snoc (zones : list QuotaZone) (z : QuotaZone) :
  group_by_region (zones ++ [z]) = regional_add z (group_by_region zones).
Proof. unfold group_by_region. now rewrite fold_left_app. Qed.

(** X8: the dictionary [main] builds from the zones in quota has one entry
    per region, in the order in which the regions first occur in the list,
    and the entry of a region holds exactly the zones of that region, in the
    order of the list: no zone is lost, duplicated or moved to another
    region. *)
Theorem group_by_region_groups (zones_in_quota : list QuotaZone) :
  group_by_region zones_in_quota
  = map (fun region => (region, filter (in_region region) zones_in_quota))
        (first_seen (map qz_region zones_in_quota))
  /\ (forall region zones,
        In (region, zones) (group_by_region zones_in_quota) ->
        zones <> []
        /\ forall z, In z zones <-> In z zones_in_quota /\ qz_region z = region)
  /\ (forall z, In z zones_in_quota ->
                exists zones,
                  In (qz_region z, zones) (group_by_region zones_in_quota)
                  /\ In z zones).
Proof.
  assert (E : group_by_region zones_in_quota = groups_of zones_in_quota).
  { induction zones_in_quota as [|z zones IH] using rev_ind; [reflexivity|].
    rewrite group_by_region_snoc, IH. unfold groups_of.
    rewrite regional_add_groups by apply first_seen_NoDup.
    rewrite map_app. simpl. rewrite first_seen_snoc.
    destruct (mem (qz_region z) (map qz_region zones)) eqn:M.
    - assert (M' : mem (qz_region z) (first_seen (map qz_region zones)) = true).
      { apply (proj2 (mem_In _ _)). apply (proj2 (first_seen_In _ _)).
        now apply (proj1 (mem_In _ _)). }
      now rewrite M'.
    - assert (M' : mem (qz_region z) (first_seen (map qz_region zones)) = false).
      { destruct (mem (qz_region z) (first_seen (map qz_region zones))) eqn:X;
          [|reflexivity].
        apply (proj1 (mem_In _ _)) in X.
        apply (proj1 (first_seen_In _ _)) in X.
        apply (proj2 (mem_In _ _)) in X. congruence. }
      rewrite M', map_app. simpl. f_equal. f_equal. f_equal.
      rewrite filter_app. simpl. unfold in_region at 2.
      rewrite String.eqb_refl.
      assert (F : filter (in_region (qz_region z)) zones = []).
      { destruct (filter _ zones) as [|x l] eqn:F; [reflexivity|].
        assert (Hx : In x (filter (in_region (qz_region z)) zones))
          by (rewrite F; now left).
        apply filter_In in Hx as [Hx Hr]. apply String.eqb_eq in Hr.
        assert (In (qz_region z) (map qz_region zones))
          by (rewrite <- Hr; now apply in_map).
        apply mem_In in H. congruence. }
      now rewrite F. }
  split; [exact E|]. rewrite E. unfold groups_of. split.
  - intros region zones H. apply in_map_iff in H as (r & [= -> <-] & Hr).
    apply first_seen_In, in_map_iff in Hr as (z & Hz & Hin).
    split.
    + intros F.
      assert (X : In z (filter (in_region region) zones_in_quota)).
      { apply filter_In. split; [exact Hin|]. now apply String.eqb_eq. }
      rewrite F in X. destruct X.
    + intros x. rewrite filter_In. unfold in_region.
      now rewrite String.eqb_eq.
  - intros z Hz. exists (filter (in_region (qz_region z)) zones_in_quota).
    split.
    + apply in_map_iff. exists (qz_region z). split; [reflexivity|].
      apply first_seen_In. now apply in_map.
    + apply filter_In. split; [exact Hz | apply String.eqb_refl].
Qed.

(** ** The ledger of a run *)

(** The state of the ledger monitor: the instances alive, oldest first; the
    operation being polled, if any (the creation, [true], or the deletion,
    [false], of an instance); and the instances created and deleted so far,
    in order. *)
Record Ledger := {
  held : list (string * string);
  busy : option (bool * string * string);
  made : list (string * string);
  gone : list (string * string)
}.

Definition settled (h m g : list (string * string)) : Ledger :=
  {| held := h; busy := None; made := m; gone := g |}.

(** The ledger gets stuck on an insert or delete request sent while an
    operation is pending, on a status fetch sent while none is, and on a
    delete request for anything but the oldest instance alive. *)
Definition ledger_step (s : Ledger) (e : Event) : option Ledger :=
  match e with
  | EvInstancesInsert _ zone body =>
      match busy s with
      | None => Some {| held := held s;
                        busy := Some (true, zone, body_name body);
                        made := made s; gone := gone s |}
      | Some _ => None
      end
  | EvInstancesDelete _ zone instance =>
      match busy s, held s with
      | None, oldest :: _ =>
          if instance_eqb oldest (zone, instance)
          then Some {| held := held s;
                       busy := Some (false, zone, instance);
                       made := made s; gone := gone s |}
          else None
      | _, _ => None
      end
  | EvZoneOperationsGet _ _ _ result =>
      match busy s with
      | None => None
      | Some (creation, zone, name) =>
          if String.eqb (op_status result) "DONE" then
            match op_error result with
            | Some _ => Some {| held := held s; busy := None;
                                made := made s; gone := gone s |}
            | None =>
                if creation
                then Some {| held := held s ++ [(zone, name)]; busy := None;
                             made := made s ++ [(zone, name)];
                             gone := gone s |}
                else Some {| held := tl (held s); busy := None;
                             made := made s;
                             gone := gone s ++ [(zone, name)] |}
            end
          else Some s
      end
  | _ => Some s
  end.

(** What the ledger keeps: the instances created are those deleted followed
    by those alive, and a pending deletion is that of the oldest alive. *)
Definition ledger_invariant (s : Ledger) : Prop :=
  made s = gone s ++ held s
  /\ forall zone name,
      busy s = Some (false, zone, name) ->
      exists younger, held s = (zone, name) :: younger.

Lemma instance_eqb_eq (i j : string * string) :
  instance_eqb i j = true <-> i = j.
Proof.
  destruct i as [a b], j as [c d]. unfold instance_eqb. simpl.
  rewrite andb_true_iff, !String.eqb_eq. split; [intros [-> ->]|intros [= -> ->]];
    auto.
Qed.

Lemma ledger_step_invariant (s s' : Ledger) (e : Event) :
  ledger_step s e = Some s' -> ledger_invariant s -> ledger_invariant s'.
Proof.
  intros H [Sum Pen]. destruct e; simpl in H;
    try (injection H as <-; now split).
  - destruct (busy s); [discriminate|]. injection H as <-.
    split; [exact Sum | discriminate].
  - destruct (busy s); [discriminate|].
    destruct (held s) as [|oldest younger] eqn:Hh; [discriminate|].
    destruct (instance_eqb oldest (zone, instance)) eqn:E; [|discriminate].
    apply instance_eqb_eq in E. subst oldest. injection H as <-.
    split; simpl; rewrite ?Hh; [exact Sum|]. intros z n [= <- <-].
    now exists younger.
  - destruct (busy s) as [[[creation z] n]|] eqn:B; [|discriminate].
    destruct (String.eqb _ _).
    + destruct (op_error result).
      * injection H as <-. split; [exact Sum | discriminate].
      * destruct creation; injection H as <-; (split; [|discriminate]); simpl.
        -- now rewrite Sum, app_assoc.
        -- destruct (Pen z n eq_refl) as [younger Hh].
           rewrite Sum, Hh, <- app_assoc. reflexivity.
    + injection H as <-. split; [exact Sum|].
      intros z' n' E. rewrite B in E. now apply Pen.
Qed.

Lemma observe_ledger_invariant (log : Log) :
  forall s s',
    observe ledger_step s log = Some s' ->
    ledger_invariant s -> ledger_invariant s'.
Proof.
  induction log as [|e l IH]; intros s s' H Inv; simpl in H.
  - now injection H as <-.
  - destruct (ledger_step s e) as [s1|] eqn:E; [|discriminate].
    apply (IH s1 s' H). now apply (ledger_step_invariant s s1 e).
Qed.

Section LedgerPolls.

Variable compute : Provider.
Variables project zone operation : string.

Lemma ledger_polls_pending (m : nat) :
  forall k s,
    busy s <> None ->
    (forall j, (j < m)%nat ->
               done compute project zone operation (k + j) = false) ->
    observe ledger_step s (polls compute project zone operation k m) = Some s.
Proof.
  induction m as [|m IH]; intros k s B N; [reflexivity|].
  rewrite polls_cons. simpl.
  pose proof (N 0%nat ltac:(lia)) as D0. rewrite Nat.add_0_r in D0.
  unfold done in D0. rewrite D0.
  destruct (busy s) as [[[c z] n]|] eqn:Bs; [|now elim B].
  apply IH; [now rewrite Bs|].
  intros j Hj. replace (S k + j)%nat with (k + S j)%nat by lia.
  apply N. lia.
Qed.

Lemma ledger_polls_done (n : nat) :
  forall k s creation z name,
    busy s = Some (creation, z, name) ->
    first_done_from compute project zone operation k n ->
    observe ledger_step s (polls compute project zone operation k (S n))
    = match op_error (responses compute project zone operation (k + n)) with
      | Some _ => Some {| held := held s; busy := None;
                          made := made s; gone := gone s |}
      | None =>
          if creation
          then Some {| held := held s ++ [(z, name)]; busy := None;
                       made := made s ++ [(z, name)]; gone := gone s |}
          else Some {| held := tl (held s); busy := None;
                       made := made s; gone := gone s ++ [(z, name)] |}
      end.
Proof.
  induction n as [|n IH]; intros k s creation z name B F.
  - destruct F as [D _]. rewrite Nat.add_0_r in *. simpl.
    unfold done in D. rewrite B, D.
    destruct (op_error _); [reflexivity|]. now destruct creation.
  - rewrite polls_cons. cbn [observe ledger_step].
    pose proof (proj2 F 0%nat ltac:(lia)) as D0. rewrite Nat.add_0_r in D0.
    unfold done in D0. rewrite B, D0.
    rewrite (IH (S k) s creation z name B (first_done_shift _ _ _ _ _ _ F)).
    now replace (S k + n)%nat with (k + S n)%nat by lia.
Qed.

End LedgerPolls.

Section LedgerRun.

Variable compute : Provider.
Variable fuel : nat.
Variable gpu_config : Config.

Lemma create_single_instance_ledger (instance_name project : string)
    (zone_config : QuotaZone) (h m g : list (string * string)) :
  accepts ledger_step (eq (settled h m g))
    (create_single_instance compute fuel instance_name project gpu_config
       zone_config)
    (fun detail s' =>
       match detail with
       | Some d =>
           d = {| id_name := instance_name; id_zone := qz_zone zone_config |}
           /\ s' = settled (h ++ [key d]) (m ++ [key d]) g
       | None => s' = settled h m g
       end).
Proof.
  intros s <-.
  destruct (create_single_instance_cases compute fuel project gpu_config
              instance_name zone_config) as [[E N]|(n & L & F & E)];
    rewrite E; cbn [fst snd]; rewrite observe_app;
    cbn [insert_requests observe ledger_step settled busy held made gone].
  - rewrite ledger_polls_pending by (exact N || discriminate).
    eexists. split; [reflexivity | discriminate].
  - erewrite (ledger_polls_done _ _ _ _ n 0); [|reflexivity|exact F].
    cbn [held made gone Nat.add]. unfold create_done.
    destruct (op_error _) as [error|].
    + eexists. split; [reflexivity|]. intros detail.
      destruct (errors error) as [|first rest]; [discriminate|].
      destruct (capacity_code (code first)); [|discriminate].
      now intros [= <-].
    + eexists. split; [reflexivity|]. intros detail [= <-]. now split.
Qed.

(** Over the loop of [create_instances] the ledger gains the records the
    loop accumulates, each for a zone of the list. *)
Lemma create_loop_ledger (project : string) (m0 g : list (string * string))
    (all_zones : list QuotaZone) (zones : list QuotaZone) :
  incl zones all_zones ->
  forall created,
    Forall (fun d => In (id_zone d) (map qz_zone all_zones)) created ->
    accepts ledger_step
      (eq (settled (map key created) (m0 ++ map key created) g))
      (create_loop compute fuel project gpu_config zones created)
      (fun recs s' =>
         s' = settled (map key recs) (m0 ++ map key recs) g
         /\ Forall (fun d => In (id_zone d) (map qz_zone all_zones)) recs).
Proof.
  induction zones as [|zone rest IH]; intros Hz created Hc.
  - apply accepts_ret. now intros s <-.
  - rewrite create_loop_cons.
    eapply accepts_bind; [apply create_single_instance_ledger|].
    intros detail. cbv zeta beta.
    assert (Step : forall s,
               match detail with
               | Some d =>
                   d = {| id_name :=
                            instance_name_of
                              (ic_name (instance_config gpu_config))
                              (List.length created + 1) (qz_zone zone);
                          id_zone := qz_zone zone |}
                   /\ s = settled (map key created ++ [key d])
                            ((m0 ++ map key created) ++ [key d]) g
               | None => s = settled (map key created) (m0 ++ map key created) g
               end ->
               s = settled
                     (map key match detail with
                              | Some d => created ++ [d]
                              | None => created
                              end)
                     (m0 ++ map key match detail with
                                    | Some d => created ++ [d]
                                    | None => created
                                    end) g
               /\ Forall (fun d => In (id_zone d) (map qz_zone all_zones))
                    match detail with
                    | Some d => created ++ [d]
                    | None => created
                    end).
    { intros s Hs. destruct detail as [d|]; [|now split].
      destruct Hs as [Hd ->]. split.
      - now rewrite map_app, <- app_assoc.
      - apply Forall_app. split; [exact Hc|]. constructor; [|constructor].
        rewrite Hd. simpl. apply in_map, Hz. now left. }
    destruct (_ >=? _).
    + apply accepts_ret. intros s Hs. now apply Step.
    + intros s Hs. destruct (Step s Hs) as [-> Hc'].
      apply (IH (fun z H => Hz z (or_intror H)) _ Hc' _ eq_refl).
Qed.

Lemma delete_poll_ledger (project zone name operation : string)
    (younger m g : list (string * string)) :
  accepts ledger_step
    (eq {| held := (zone, name) :: younger;
           busy := Some (false, zone, name);
           made := m; gone := g |})
    (delete_poll compute fuel project zone operation 0)
    (fun _ s' => s' = settled younger m (g ++ [(zone, name)])).
Proof.
  intros s <-.
  destruct (first_done_within compute project zone operation fuel)
    as [N|(n & L & F)].
  - rewrite delete_poll_pending by (intros j Hj; now apply N).
    cbn [fst snd]. rewrite ledger_polls_pending by (exact N || discriminate).
    eexists. split; [reflexivity | discriminate].
  - rewrite (delete_poll_done compute project zone operation fuel 0 n F L).
    cbn [fst snd].
    erewrite (ledger_polls_done _ _ _ _ n 0); [|reflexivity|exact F].
    cbn [held made gone Nat.add tl]. unfold delete_done.
    destruct (op_error _).
    + eexists. split; [reflexivity | discriminate].
    + eexists. split; [reflexivity|]. now intros.
Qed.

Lemma delete_instances_ledger (project : string)
    (instances : list InstanceDetails) :
  forall m g,
    accepts ledger_step (eq (settled (map key instances) m g))
      (delete_instances compute fuel project instances)
      (fun _ s' => s' = settled [] m (g ++ map key instances)).
Proof.
  induction instances as [|instance rest IH]; intros m g.
  - apply accepts_ret. intros s <-. simpl. now rewrite app_nil_r.
  - cbn [delete_instances].
    eapply accepts_bind with
      (Qm := fun _ s' => s' = {| held := key instance :: map key rest;
                                 busy := Some (false, id_zone instance,
                                               id_name instance);
                                 made := m; gone := g |}).
    + intros s <-. simpl. unfold instance_eqb, key. simpl.
      rewrite !String.eqb_refl. simpl.
      eexists. split; [reflexivity|]. now intros.
    + intros u. eapply accepts_bind.
      * eapply accepts_weaken; [apply delete_poll_ledger | | intros a s H; exact H].
        intros s ->. reflexivity.
      * intros v. eapply accepts_weaken; [apply IH | | ].
        -- intros s ->. reflexivity.
        -- intros a s ->. cbn [map]. now rewrite <- app_assoc.
Qed.

(** The instances recorded in a summary. *)
Definition summary_instances (regional_summary : list RegionSummary)
  : list (string * string) :=
  flat_map (fun entry => map key (rs_instances_created entry)) regional_summary.

(** A summary whose instances lie in zones of the region they are recorded
    under. *)
Definition summary_regions (regional_summary : list RegionSummary) : Prop :=
  Forall (fun entry =>
            Forall (fun d => region_of (id_zone d) = rs_region entry)
                   (rs_instances_created entry))
         regional_summary.

Lemma regions_loop_ledger (groups : Regional) :
  well_grouped groups ->
  forall regional_summary,
    summary_regions regional_summary ->
    accepts ledger_step
      (eq (settled [] (summary_instances regional_summary)
             (summary_instances regional_summary)))
      (regions_loop compute fuel gpu_config groups regional_summary)
      (fun final s' =>
         s' = settled [] (summary_instances final) (summary_instances final)
         /\ summary_regions final).
Proof.
  intros W. induction W as [|[region zones] rest Hg Hrest IH];
    intros regional_summary Hs.
  - apply accepts_ret. now intros s <-.
  - cbn [regions_loop]. eapply accepts_bind.
    + eapply accepts_weaken;
        [ apply (create_loop_ledger _ (summary_instances regional_summary)
                   (summary_instances regional_summary) zones zones
                   (incl_refl zones) []); constructor
        | intros s <-; simpl; now rewrite app_nil_r
        | intros a s H; exact H ].
    + intros instance_details.
      eapply accepts_bind with
        (Qm := fun _ s' =>
                 s' = settled []
                        (summary_instances regional_summary
                         ++ map key instance_details)
                        (summary_instances regional_summary
                         ++ map key instance_details)
                 /\ Forall (fun d => region_of (id_zone d) = region)
                           instance_details).
      * assert (R : Forall (fun d => In (id_zone d) (map qz_zone zones))
                           instance_details ->
                    Forall (fun d => region_of (id_zone d) = region)
                           instance_details).
        { apply Forall_impl. intros d Hd.
          apply in_map_iff in Hd as (z & <- & Hz).
          simpl in Hg. rewrite Forall_forall in Hg. now apply Hg. }
        destruct instance_details as [|d l].
        -- apply accepts_ret. intros s [-> F]. simpl. rewrite !app_nil_r.
           split; [reflexivity | constructor].
        -- intros s [-> F].
           destruct (delete_instances_ledger (project_id gpu_config) (d :: l)
                       (summary_instances regional_summary ++ map key (d :: l))
                       (summary_instances regional_summary) _ eq_refl)
             as (s' & O & Q).
           exists s'. split; [exact O|]. intros a E.
           split; [now apply (Q a) | now apply R].
      * intros u.
        assert (A : summary_instances
                      (regional_summary
                       ++ [ {| rs_region := region;
                               rs_zones_attempted := zones;
                               rs_instances_created := instance_details |} ])
                    = summary_instances regional_summary
                      ++ map key instance_details).
        { unfold summary_instances. rewrite flat_map_app. simpl.
          now rewrite app_nil_r. }
        intros s [-> F].
        apply (IH (regional_summary
                   ++ [ {| rs_region := region;
                           rs_zones_attempted := zones;
                           rs_instances_created := instance_details |} ])).
        -- apply Forall_app. split; [exact Hs|]. now repeat constructor.
        -- now rewrite A.
Qed.

Definition row_instance (row : string * string * string) : string * string :=
  (snd row, snd (fst row)).

Lemma table_data_instances (regional_summary : list RegionSummary) :
  map row_instance (table_data regional_summary)
  = summary_instances regional_summary.
Proof.
  unfold table_data, summary_instances.
  induction regional_summary as [|entry rest IH]; [reflexivity|].
  simpl. rewrite map_app, IH, map_map. reflexivity.
Qed.

Lemma table_data_regions (regional_summary : list RegionSummary) :
  summary_regions regional_summary ->
  Forall (fun row => fst (fst row) = region_of (snd row))
         (table_data regional_summary).
Proof.
  intros S. unfold table_data. apply Forall_forall. intros row Hr.
  apply in_flat_map in Hr as (entry & He & Hr).
  apply in_map_iff in Hr as (d & <- & Hd). simpl.
  unfold summary_regions in S. rewrite Forall_forall in S.
  specialize (S entry He). rewrite Forall_forall in S. symmetry. now apply S.
Qed.

Lemma listing_ledger (s : Ledger) (e : Event) :
  listing e -> ledger_step s e = Some s.
Proof. now destruct e. Qed.

Lemma main_ledger :
  accepts ledger_step (eq (settled [] [] []))
    (main compute fuel gpu_config)
    (fun table s' =>
       s' = settled [] (map row_instance table) (map row_instance table)
       /\ Forall (fun row => fst (fst row) = region_of (snd row)) table).
Proof.
  rewrite main_eq.
  eapply accepts_bind with
    (Qm := fun zones_in_quota s' =>
             s' = settled [] [] []
             /\ well_grouped (group_by_region zones_in_quota)).
  - intros s <-. exists (settled [] [] []). split.
    + apply (observe_quiet ledger_step listing); [apply listing_ledger|].
      apply survey_listing.
    + intros zq E. split; [reflexivity|].
      apply (survey_well_grouped compute gpu_config zq
               (snd (survey compute gpu_config))).
      rewrite <- E. now destruct (survey compute gpu_config).
  - intros zq. unfold provision. eapply accepts_bind.
    + intros s [-> W].
      apply (regions_loop_ledger _ W [] (Forall_nil _) _ eq_refl).
    + intros final. apply accepts_ret. intros s [-> S].
      split; [now rewrite table_data_instances | now apply table_data_regions].
Qed.

End LedgerRun.

Section LedgerProperties.

Variable compute : Provider.
Variable fuel : nat.
Variable gpu_config : Config.

Lemma settled_invariant : ledger_invariant (settled [] [] []).
Proof. split; [reflexivity | discriminate]. Qed.

(** X9: in every run of [main], complete or not, the operations are strictly
    sequential: an insert or delete request is sent only when no operation is
    pending, and a status is fetched only while one is.  A delete request is
    only ever sent for the oldest instance alive, so nothing is deleted that
    the run did not create, and nothing twice.  At every point the instances
    created so far are those deleted so far followed by those alive. *)
Theorem operations_sequential :
  let run := snd (main compute fuel gpu_config) in
  let read := observe ledger_step (settled [] [] []) in
  (forall before after,
      run = before ++ after ->
      exists s, read before = Some s /\ made s = gone s ++ held s)
  /\ (forall before p zone name after,
        run = before ++ EvInstancesDelete p zone name :: after ->
        exists s younger,
          read before = Some s
          /\ busy s = None /\ held s = (zone, name) :: younger)
  /\ (forall before p zone body after,
        run = before ++ EvInstancesInsert p zone body :: after ->
        exists s, read before = Some s /\ busy s = None)
  /\ (forall before p zone operation result after,
        run = before ++ EvZoneOperationsGet p zone operation result :: after ->
        exists s, read before = Some s /\ busy s <> None).
Proof.
  intros run read.
  destruct (main_ledger compute fuel gpu_config (settled [] [] []) eq_refl)
    as (s_end & O & _). fold run in O.
  split; [|split; [|split]].
  - intros before after E. rewrite E in O.
    apply observe_prefix in O as (s & Ob & _).
    exists s. split; [exact Ob|].
    now apply (observe_ledger_invariant before _ s Ob settled_invariant).
  - intros before p zone name after E. rewrite E in O.
    apply observe_prefix in O as (s & Ob & Oa). simpl in Oa.
    destruct (busy s) eqn:B; [discriminate|].
    destruct (held s) as [|oldest younger] eqn:H; [discriminate|].
    destruct (instance_eqb oldest (zone, name)) eqn:I; [|discriminate].
    apply instance_eqb_eq in I. subst oldest.
    exists s, younger. now repeat split.
  - intros before p zone body after E. rewrite E in O.
    apply observe_prefix in O as (s & Ob & Oa). simpl in Oa.
    destruct (busy s) eqn:B; [discriminate|]. now exists s.
  - intros before p zone operation result after E. rewrite E in O.
    apply observe_prefix in O as (s & Ob & Oa). simpl in Oa.
    destruct (busy s) eqn:B; [|discriminate]. exists s.
    split; [exact Ob | congruence].
Qed.

(** X10: when [main] returns, the rows of the table it prints are exactly
    the instances created during the run, in the order of their creation;
    every one of them has been deleted, in that same order, and none is left
    alive; and the region of each row is the region derived from the name of
    its zone. *)
Theorem report_lists_created_and_deleted
    (table : list (string * string * string)) :
  fst (main compute fuel gpu_config) = Ok table ->
  observe ledger_step (settled [] [] []) (snd (main compute fuel gpu_config))
  = Some {| held := []; busy := None;
            made := map (fun row => (snd row, snd (fst row))) table;
            gone := map (fun row => (snd row, snd (fst row))) table |}
  /\ Forall (fun row => fst (fst row) = region_of (snd row)) table.
Proof.
  intros E.
  destruct (main_ledger compute fuel gpu_config (settled [] [] []) eq_refl)
    as (s_end & O & Q).
  destruct (Q table E) as [-> R]. split; [exact O | exact R].
Qed.

End LedgerProperties.

(** ** Where instances are created *)

Lemma Forall_bind_ok {A B} (P : Event -> Prop) (m : M A) (k : A -> M B) :
  Forall P (snd m) ->
  (forall a, fst m = Ok a -> Forall P (snd (k a))) ->
  Forall P (snd (bind m k)).
Proof.
  intros Hm Hk. unfold bind. destruct m as [[a|e|] l]; simpl in *; try exact Hm.
  specialize (Hk a eq_refl). destruct (k a) as [o l']. simpl in *.
  apply Forall_app. now split.
Qed.

Section Surveyed.

Variable compute : Provider.
Variable fuel : nat.
Variable gpu_config : Config.

(** A zone that passes the survey of [main]: it is listed and "UP", it is one
    of the zones selected by the configuration when it selects any, its
    catalog of machine types has the machine type, and its catalog of
    accelerator types has the accelerator with enough cards per instance. *)
Definition surveyed (z : string) : Prop :=
  (exists zone,
      In zone (List.concat (all_pages (zones_list compute
                                         (project_id gpu_config))))
      /\ zone_name zone = z /\ zone_status zone = "UP")
  /\ (ic_zone (instance_config gpu_config) = []
      \/ In z (ic_zone (instance_config gpu_config)))
  /\ (exists machine,
         In machine (machine_catalog compute (project_id gpu_config) z)
         /\ mt_name machine = ic_machine_type (instance_config gpu_config))
  /\ (exists accelerator,
         In accelerator (accelerator_catalog compute (project_id gpu_config) z)
         /\ at_name accelerator = ic_gpu_type (instance_config gpu_config)
         /\ ic_number_of_gpus (instance_config gpu_config)
            <= at_maximumCardsPerInstance accelerator).

(** An insert request for the configured project, in a surveyed zone, asking
    for the configured machine type and accelerators. *)
Definition insert_surveyed (e : Event) : Prop :=
  match e with
  | EvInstancesInsert p z body =>
      p = project_id gpu_config
      /\ surveyed z
      /\ body_acceleratorCount body
         = ic_number_of_gpus (instance_config gpu_config)
      /\ body_machineType body
         = "zones/" +++ z +++ "/machineTypes/"
           +++ ic_machine_type (instance_config gpu_config)
      /\ body_acceleratorType body
         = "zones/" +++ z +++ "/acceleratorTypes/"
           +++ ic_gpu_type (instance_config gpu_config)
  | _ => True
  end.

Lemma selected_zones_up (zone : ZoneInfo) :
  In zone (selected_zones compute gpu_config) ->
  (exists z,
      In z (List.concat (all_pages (zones_list compute (project_id gpu_config))))
      /\ zone_name z = zi_zone zone /\ zone_status z = "UP")
  /\ (ic_zone (instance_config gpu_config) = []
      \/ In (zi_zone zone) (ic_zone (instance_config gpu_config))).
Proof.
  unfold selected_zones. intros H.
  assert (U : In zone (up_zones compute (project_id gpu_config))
              /\ (ic_zone (instance_config gpu_config) = []
                  \/ In (zi_zone zone) (ic_zone (instance_config gpu_config)))).
  { destruct (ic_zone (instance_config gpu_config)) as [|a l] eqn:Z.
    - split; [exact H | now left].
    - apply filter_In in H as [H M]. split; [exact H|]. right.
      now apply mem_In. }
  destruct U as [U A]. split; [|exact A].
  apply in_map_iff in U as (z & <- & Hz). apply filter_In in Hz as [Hz Hu].
  exists z. repeat split; [exact Hz|]. now apply String.eqb_eq.
Qed.

Lemma survey_surveyed (zones_in_quota : list QuotaZone) (front : Log) :
  survey compute gpu_config = (Ok zones_in_quota, front) ->
  Forall (fun q => surveyed (qz_zone q)) zones_in_quota.
Proof.
  intros H. unfold survey in H. cbv zeta in H.
  rewrite (bind_run _ _ _ _ (compute_zones_spec compute gpu_config)) in H.
  destruct (bind _ _) as [out l] eqn:B in H. simpl in H.
  injection H as -> _.
  run_inv B. run_inv B.
  apply check_machine_type_and_accelerator_ok in B1 as [-> _].
  apply get_accelerator_quota_ok in B as [-> _].
  apply Forall_forall. intros q Hq.
  apply in_flat_map in Hq as (i & Hi & Hq).
  apply in_map_iff in Hq as (accelerator & <- & Ha).
  apply filter_In in Ha as [Ha Hp].
  apply andb_true_iff in Hp as [Hn Hm].
  apply String.eqb_eq in Hn. apply Z.leb_le in Hm.
  apply in_flat_map in Hi as (zone & Hz & Hi).
  apply in_map_iff in Hi as (machine & <- & Hmach).
  apply filter_In in Hmach as [Hmach Hname]. apply String.eqb_eq in Hname.
  destruct (selected_zones_up zone Hz) as [Up Sel].
  assert (Z : cz_zone (capable_record (ic_gpu_type (instance_config gpu_config))
                         zone machine) = zi_zone zone).
  { unfold capable_record.
    destruct (mt_accelerators machine) as [[|acc accs]|];
      try destruct (String.eqb _ _); reflexivity. }
  unfold surveyed. cbn [accelerator_dict qz_zone]. rewrite Z in *.
  repeat split; try assumption.
  - now exists machine.
  - now exists accelerator.
Qed.

Lemma polls_surveyed project zone operation (m : nat) :
  forall k, Forall insert_surveyed (polls compute project zone operation k m).
Proof.
  unfold polls. intros k. apply Forall_forall. intros e He.
  apply in_map_iff in He as (j & <- & _). exact I.
Qed.

Lemma create_loop_surveyed (zones : list QuotaZone) :
  Forall (fun q => surveyed (qz_zone q)) zones ->
  forall created,
    Forall insert_surveyed
      (snd (create_loop compute fuel (project_id gpu_config) gpu_config zones
              created)).
Proof.
  intros F. induction F as [|zone rest Hz F IH]; intros created; [constructor|].
  rewrite create_loop_cons. apply Forall_bind.
  - destruct (create_single_instance_cases compute fuel (project_id gpu_config)
                gpu_config
                (instance_name_of (ic_name (instance_config gpu_config))
                   (List.length created + 1) (qz_zone zone)) zone)
      as [[E _]|(n & _ & _ & E)]; rewrite E; cbn [snd insert_requests app];
      (constructor; [exact I|]);
      (constructor;
       [split; [reflexivity | split; [exact Hz | now repeat split]]|]);
      apply polls_surveyed.
  - intros detail. cbv zeta. destruct (_ >=? _); [constructor | apply IH].
Qed.

Lemma delete_instances_surveyed (instances : list InstanceDetails) :
  Forall insert_surveyed
    (snd (delete_instances compute fuel (project_id gpu_config) instances)).
Proof.
  induction instances as [|instance rest IH]; [constructor|].
  cbn [delete_instances]. rewrite bind_call. cbn [snd].
  constructor; [exact I|]. apply Forall_bind; [|intros _; exact IH].
  set (operation := instances_delete _ _ _ _).
  destruct (first_done_within compute (project_id gpu_config)
              (id_zone instance) operation fuel) as [N|(n & L & F)].
  - rewrite delete_poll_pending by (intros j Hj; now apply N).
    apply polls_surveyed.
  - rewrite (delete_poll_done compute _ _ operation fuel 0 n F L).
    apply polls_surveyed.
Qed.

Lemma regions_loop_surveyed (groups : Regional) :
  Forall (fun q => surveyed (qz_zone q)) (flat_map snd groups) ->
  forall regional_summary,
    Forall insert_surveyed
      (snd (regions_loop compute fuel gpu_config groups regional_summary)).
Proof.
  induction groups as [|[region zones] rest IH]; intros F regional_summary;
    [constructor|].
  simpl in F. apply Forall_app in F as [Fz Fr].
  cbn [regions_loop]. apply Forall_bind; [now apply create_loop_surveyed|].
  intros instance_details. apply Forall_bind; [|intros _; now apply IH].
  destruct instance_details; [constructor | apply delete_instances_surveyed].
Qed.

(** X11: every insert request of a run of [main] is for the configured
    project and for a zone that passed the whole survey: listed with status
    "UP", among the zones selected by the configuration if it selects any,
    with the machine type in its catalog and with the accelerator type
    allowing the requested number of GPUs.  The request asks for that machine
    type and for that number of accelerators of that type, in that zone. *)
Theorem inserts_only_in_surveyed_zones :
  Forall (fun e =>
            match e with
            | EvInstancesInsert p z body =>
                p = project_id gpu_config
                /\ surveyed z
                /\ body_acceleratorCount body
                   = ic_number_of_gpus (instance_config gpu_config)
                /\ body_machineType body
                   = "zones/" +++ z +++ "/machineTypes/"
                     +++ ic_machine_type (instance_config gpu_config)
                /\ body_acceleratorType body
                   = "zones/" +++ z +++ "/acceleratorTypes/"
                     +++ ic_gpu_type (instance_config gpu_config)
            | _ => True
            end)
         (snd (main compute fuel gpu_config)).
Proof.
  change (Forall insert_surveyed (snd (main compute fuel gpu_config))).
  rewrite main_eq. apply Forall_bind_ok.
  - eapply Forall_impl; [|apply survey_listing].
    intros e He. now destruct e.
  - intros zq E. unfold provision.
    apply Forall_bind; [|constructor].
    apply regions_loop_surveyed.
    assert (S : Forall (fun q => surveyed (qz_zone q)) zq).
    { apply (survey_surveyed zq (snd (survey compute gpu_config))).
      rewrite <- E. now destruct (survey compute gpu_config). }
    rewrite Forall_forall in *. intros q Hq. apply S.
    now apply group_by_region_zones.
Qed.

End Surveyed.

(** ** The stages of a run *)

(** The requests that create, delete or poll: all but the catalog reads. *)
Definition operation_request (e : Event) : Prop :=
  match e with
  | EvImagesGetFromFamily _ _ | EvInstancesInsert _ _ _
  | EvInstancesDelete _ _ _ | EvZoneOperationsGet _ _ _ _ => True
  | _ => False
  end.

Section Stages.

Variable compute : Provider.
Variable fuel : nat.
Variable gpu_config : Config.

Lemma create_poll_operations instance_name project zone operation (f : nat) :
  forall k,
    Forall operation_request
      (snd (create_poll compute f instance_name project zone operation k)).
Proof.
  induction f as [|f IH]; intros k; [constructor|].
  cbn [create_poll]. rewrite bind_call. cbn [snd].
  constructor; [exact I|].
  destruct (String.eqb _ "DONE"); [constructor | apply IH].
Qed.

Lemma delete_poll_operations project zone operation (f : nat) :
  forall k,
    Forall operation_request
      (snd (delete_poll compute f project zone operation k)).
Proof.
  induction f as [|f IH]; intros k; [constructor|].
  cbn [delete_poll]. rewrite bind_call. cbn [snd].
  constructor; [exact I|].
  destruct (String.eqb _ "DONE"); [destruct (op_error _); constructor|].
  apply IH.
Qed.

Lemma create_loop_operations project (zones : list QuotaZone) :
  forall created,
    Forall operation_request
      (snd (create_loop compute fuel project gpu_config zones created)).
Proof.
  induction zones as [|zone rest IH]; intros created; [constructor|].
  rewrite create_loop_cons. apply Forall_bind.
  - rewrite create_single_instance_eq. cbn [snd insert_requests app].
    do 2 (constructor; [exact I|]). apply create_poll_operations.
  - intros detail. cbv zeta. destruct (_ >=? _); [constructor | apply IH].
Qed.

Lemma delete_instances_operations project (instances : list InstanceDetails) :
  Forall operation_request
    (snd (delete_instances compute fuel project instances)).
Proof.
  induction instances as [|instance rest IH]; [constructor|].
  cbn [delete_instances]. rewrite bind_call. cbn [snd].
  constructor; [exact I|].
  apply Forall_bind; [apply delete_poll_operations | intros _; exact IH].
Qed.

Lemma regions_loop_operations (groups : Regional) :
  forall regional_summary,
    Forall operation_request
      (snd (regions_loop compute fuel gpu_config groups regional_summary)).
Proof.
  induction groups as [|[region zones] rest IH]; intros regional_summary;
    [constructor|].
  cbn [regions_loop]. apply Forall_bind; [apply create_loop_operations|].
  intros instance_details. apply Forall_bind; [|intros _; apply IH].
  destruct instance_details; [constructor | apply delete_instances_operations].
Qed.

Lemma survey_returns_or_raises :
  fst (survey compute gpu_config) <> OutOfFuel.
Proof.
  unfold survey. cbv zeta.
  rewrite (bind_run _ _ _ _ (compute_zones_spec compute gpu_config)). cbn [fst].
  unfold lift at 1.
  destruct (check_gpu_config gpu_config) as [[]|e|] eqn:C.
  - rewrite (bind_run _ _ _ _ eq_refl). cbn [fst].
    unfold check_machine_type_and_accelerator.
    destruct (machine_zones_outcome compute (project_id gpu_config)
                (ic_machine_type (instance_config gpu_config))
                (ic_gpu_type (instance_config gpu_config))
                (selected_zones compute gpu_config) [])
      as [(l & log & E)|E].
    + rewrite (bind_run _ _ _ _ E).
      destruct l as [|r l]; [discriminate|].
      unfold ret. cbn [fst snd]. rewrite (bind_run _ _ _ _ eq_refl). cbn [fst].
      rewrite get_accelerator_quota_eq. cbn [fst].
      destruct (flat_map _ _); discriminate.
    + destruct (machine_zones _ _ _ _ _ _) as [[l|e|] log]; simpl in *;
        discriminate.
  - discriminate.
  - unfold check_gpu_config in C.
    destruct (Py.startswith _ _); [|discriminate].
    destruct (Py.int _); [|discriminate].
    destruct (negb _); discriminate.
Qed.

(** X12: a run of [main] reads all the catalogs it reads before it sends its
    first request for an image, an instance or an operation, and reads none
    afterwards.  The survey always ends, by returning or by raising; when it
    raises, be it the configuration mismatch, the absence of machine types or
    of accelerator types, or an error of [int()] or of an index, [main]
    raises the same exception having sent catalog requests only: nothing is
    created. *)
Theorem main_staged :
  let back :=
    match fst (survey compute gpu_config) with
    | Ok zones_in_quota => snd (provision compute gpu_config fuel zones_in_quota)
    | _ => []
    end in
  snd (main compute fuel gpu_config) = snd (survey compute gpu_config) ++ back
  /\ Forall listing (snd (survey compute gpu_config))
  /\ Forall operation_request back
  /\ fst (survey compute gpu_config) <> OutOfFuel
  /\ (forall e,
        fst (survey compute gpu_config) = Raise e ->
        main compute fuel gpu_config = (Raise e, snd (survey compute gpu_config))).
Proof.
  intros back. subst back. rewrite main_eq.
  pose proof (survey_listing compute gpu_config) as Fl.
  pose proof survey_returns_or_raises as Nf.
  destruct (survey compute gpu_config) as [[zq|e|] front]; cbn [fst snd] in *.
  - repeat split; try assumption; try discriminate.
    + unfold bind. now destruct (provision compute gpu_config fuel zq).
    + unfold provision. apply Forall_bind; [|constructor].
      apply regions_loop_operations.
  - repeat split; try assumption; try constructor.
    + unfold bind. now rewrite app_nil_r.
    + now intros e' [= <-].
  - now elim Nf.
Qed.

End Stages.

(** ** Zones without capacity *)

Lemma inserted_app (l1 l2 : Log) :
  inserted (l1 ++ l2) = inserted l1 ++ inserted l2.
Proof.
  induction l1 as [|e l1 IH]; [reflexivity|].
  destruct e; simpl; now rewrite ?IH.
Qed.

Lemma polls_inserted compute project zone operation (m : nat) :
  forall k, inserted (polls compute project zone operation k m) = [].
Proof.
  induction m as [|m IH]; intros k; [reflexivity|].
  rewrite polls_cons. simpl. apply IH.
Qed.

Lemma polls_no_delete compute project zone operation (m : nat) :
  forall k,
    filter (fun e => match e with
                     | EvInstancesDelete _ _ _ => true
                     | _ => false
                     end)
           (polls compute project zone operation k m) = [].
Proof.
  induction m as [|m IH]; intros k; [reflexivity|].
  rewrite polls_cons. simpl. apply IH.
Qed.

Section Exhausted.

Variable compute : Provider.
Variable fuel : nat.
Variable gpu_config : Config.

(** The name of the first instance of a call of [create_instances], were it
    created in the zone. *)
Definition first_name (zone_config : QuotaZone) : string :=
  instance_name_of (ic_name (instance_config gpu_config)) 1
    (qz_zone zone_config).

(** [out_of_capacity project steps zone_config]: the creation of a first
    instance in the zone completes, at the status fetch [steps zone_config]
    and within the fuel, with an error whose first code is a capacity code. *)
Definition out_of_capacity (project : string) (steps : QuotaZone -> nat)
    (zone_config : QuotaZone) : Prop :=
  (steps zone_config < fuel)%nat
  /\ first_done_from compute project (qz_zone zone_config)
       (insert_operation compute project gpu_config (first_name zone_config)
          zone_config) 0 (steps zone_config)
  /\ exists error first others,
      op_error (responses compute project (qz_zone zone_config)
                  (insert_operation compute project gpu_config
                     (first_name zone_config) zone_config)
                  (steps zone_config)) = Some error
      /\ errors error = first :: others
      /\ capacity_code (code first) = true.

(** The requests of such an attempt. *)
Definition attempt_requests (project : string) (steps : QuotaZone -> nat)
    (zone_config : QuotaZone) : Log :=
  insert_requests compute project gpu_config (first_name zone_config)
    zone_config
  ++ polls compute project (qz_zone zone_config)
       (insert_operation compute project gpu_config (first_name zone_config)
          zone_config) 0 (S (steps zone_config)).

Lemma create_loop_exhausted (project : string) (steps : QuotaZone -> nat)
    (zones : list QuotaZone) :
  1 <= number_of_instances gpu_config ->
  Forall (out_of_capacity project steps) zones ->
  create_loop compute fuel project gpu_config zones []
  = (Ok [], flat_map (attempt_requests project steps) zones).
Proof.
  intros T F. induction F as [|zone rest Hz F IH]; [reflexivity|].
  rewrite create_loop_cons.
  destruct Hz as (L & D & error & first & others & E1 & E2 & C).
  change (instance_name_of _ (List.length (@nil InstanceDetails) + 1) _)
    with (first_name zone).
  rewrite (create_single_instance_done compute fuel project gpu_config
             (first_name zone) zone (steps zone) L D).
  unfold create_done. rewrite E1, E2, C.
  rewrite (bind_run _ _ _ _ eq_refl). cbv zeta.
  destruct (Z.geb_spec (Z.of_nat (List.length (@nil InstanceDetails)))
                       (number_of_instances gpu_config)) as [G|_];
    [simpl in G; lia|].
  rewrite IH. reflexivity.
Qed.

Lemma attempt_requests_inserted (project : string) (steps : QuotaZone -> nat)
    (zones : list QuotaZone) :
  inserted (flat_map (attempt_requests project steps) zones)
  = map (fun z => (qz_zone z,
                   insert_body compute project gpu_config (first_name z) z))
        zones.
Proof.
  induction zones as [|zone rest IH]; [reflexivity|].
  cbn [flat_map map]. rewrite inserted_app, IH. unfold attempt_requests.
  rewrite inserted_app, polls_inserted. reflexivity.
Qed.

(** X13: when the target is at least one instance and, in every zone of the
    list, the creation of an instance completes with a capacity error,
    [create_instances] attempts every zone once, in the order of the list and
    each time under the ordinal 1, and returns the empty list: running out of
    capacity everywhere is not an error. *)
Theorem create_instances_exhausted (project : string)
    (steps : QuotaZone -> nat) (zones : list QuotaZone) :
  1 <= number_of_instances gpu_config ->
  Forall (out_of_capacity project steps) zones ->
  create_instances compute fuel project gpu_config zones
  = (Ok [], flat_map (attempt_requests project steps) zones)
  /\ inserted_zones (snd (create_instances compute fuel project gpu_config zones))
     = map qz_zone zones
  /\ inserted_names (snd (create_instances compute fuel project gpu_config zones))
     = map first_name zones.
Proof.
  intros T F. unfold create_instances.
  rewrite (create_loop_exhausted project steps zones T F). cbn [snd].
  unfold inserted_zones, inserted_names.
  rewrite attempt_requests_inserted, !map_map. now repeat split.
Qed.

Lemma regions_loop_exhausted (steps : QuotaZone -> nat) (groups : Regional) :
  1 <= number_of_instances gpu_config ->
  Forall (fun g => Forall (out_of_capacity (project_id gpu_config) steps) (snd g))
         groups ->
  forall regional_summary,
    regions_loop compute fuel gpu_config groups regional_summary
    = (Ok (regional_summary
           ++ map (fun g => {| rs_region := fst g;
                               rs_zones_attempted := snd g;
                               rs_instances_created := [] |}) groups),
       flat_map (fun g =>
                   flat_map (attempt_requests (project_id gpu_config) steps)
                            (snd g)) groups).
Proof.
  intros T F. induction F as [|[region zones] rest Hg F IH];
    intros regional_summary.
  - simpl. unfold ret. now rewrite app_nil_r.
  - cbn [regions_loop]. unfold create_instances.
    rewrite (bind_run _ _ _ _
               (create_loop_exhausted (project_id gpu_config) steps zones T Hg)).
    unfold ret at 1. rewrite (bind_run _ _ _ _ eq_refl), IH.
    cbn [fst snd map flat_map app]. now rewrite <- app_assoc.
Qed.

Definition is_delete (e : Event) : bool :=
  match e with
  | EvInstancesDelete _ _ _ => true
  | _ => false
  end.

(** X14: when the target is at least one instance and every zone the survey
    returns is out of capacity, [main] returns normally with an empty table:
    it has attempted each zone once, region by region, and has sent no delete
    request. *)
Theorem main_exhausted (steps : QuotaZone -> nat)
    (zones_in_quota : list QuotaZone) (front : Log) :
  1 <= number_of_instances gpu_config ->
  survey compute gpu_config = (Ok zones_in_quota, front) ->
  Forall (out_of_capacity (project_id gpu_config) steps) zones_in_quota ->
  main compute fuel gpu_config
  = (Ok [],
     front
     ++ flat_map (fun g =>
                    flat_map (attempt_requests (project_id gpu_config) steps)
                             (snd g))
          (group_by_region zones_in_quota))
  /\ filter is_delete (snd (main compute fuel gpu_config)) = []
  /\ forall z, In z (inserted_zones (snd (main compute fuel gpu_config)))
               <-> In z (map qz_zone zones_in_quota).
Proof.
  intros T S F.
  assert (G : Forall (fun g => Forall (out_of_capacity (project_id gpu_config)
                                         steps) (snd g))
                     (group_by_region zones_in_quota)).
  { apply Forall_forall. intros g Hg. apply Forall_forall. intros z Hz.
    rewrite Forall_forall in F. apply F, group_by_region_zones.
    apply in_flat_map. now exists g. }
  assert (E : main compute fuel gpu_config
              = (Ok [],
                 front
                 ++ flat_map (fun g =>
                      flat_map (attempt_requests (project_id gpu_config) steps)
                               (snd g))
                      (group_by_region zones_in_quota))).
  { rewrite main_eq, (bind_run _ _ _ _ S). unfold provision.
    rewrite (bind_run _ _ _ _ (regions_loop_exhausted steps _ T G [])).
    cbn [fst snd ret app]. rewrite app_nil_r. f_equal. f_equal.
    unfold table_data. clear. induction (group_by_region zones_in_quota);
      [reflexivity | exact IHr]. }
  split; [exact E|]. rewrite E. cbn [snd]. split.
  - pose proof (survey_listing compute gpu_config) as Fl.
    rewrite S in Fl. cbn [snd] in Fl. rewrite filter_app.
    assert (A : filter is_delete front = []).
    { clear - Fl. induction Fl as [|e l He Fl IH]; [reflexivity|].
      destruct e; simpl in *; try exact IH; now elim He. }
    rewrite A. simpl. clear.
    induction (group_by_region zones_in_quota) as [|g gs IH]; [reflexivity|].
    cbn [flat_map]. rewrite filter_app, IH, app_nil_r. clear.
    induction (snd g) as [|z zs IH]; [reflexivity|].
    cbn [flat_map]. rewrite filter_app, IH, app_nil_r.
    unfold attempt_requests. rewrite filter_app.
    cbn [insert_requests filter is_delete app]. apply polls_no_delete.
  - intros z. unfold inserted_zones. rewrite inserted_app.
    assert (A : inserted front = []).
    { pose proof (survey_listing compute gpu_config) as Fl.
      rewrite S in Fl. cbn [snd] in Fl. clear - Fl.
      induction Fl as [|e l He Fl IH]; [reflexivity|].
      destruct e; simpl in *; try exact IH; now elim He. }
    rewrite A. cbn [app].
    assert (B : forall groups : Regional,
               map fst (inserted
                          (flat_map (fun g =>
                             flat_map (attempt_requests (project_id gpu_config)
                                         steps) (snd g)) groups))
               = map qz_zone (flat_map snd groups)).
    { induction groups as [|g gs IH]; [reflexivity|].
      cbn [flat_map]. rewrite inserted_app, !map_app, IH.
      now rewrite attempt_requests_inserted, map_map. }
    rewrite B, !in_map_iff. split; intros (q & Hq & Hin); exists q;
      (split; [exact Hq|]); now apply group_by_region_zones.
Qed.

End Exhausted.

(** ** The further properties on the sample provider *)

Section FurtherRuns.

Import Sample.

(** Witness of X1. *)
Lemma check_gpu_config_highgpu_witness :
  ic_machine_type (instance_config (config "a2-highgpu-2g" 2 1 []))
  = "a2-highgpu-" +++ Py.str 2 +++ "g"
  /\ check_gpu_config (config "a2-highgpu-2g" 2 1 []) = Ok tt.
Proof.
  split; [reflexivity|].
  now apply (check_gpu_config_highgpu (config "a2-highgpu-2g" 2 1 []) 2 eq_refl).
Defined.

(** Witness of X2. *)
Lemma region_of_zone_name_witness :
  String.length "-a" = 2%nat
  /\ region_of ("us-central1" +++ "-a") = "us-central1".
Proof.
  split; [reflexivity|].
  apply (region_of_zone_name "us-central1" "-a" eq_refl).
Defined.

(** Witness of X6: the creation in [us-central1-b] is done at the second
    status fetch, without error. *)
Lemma create_single_instance_completed_witness :
  (1 < 5)%nat
  /\ fst (create_single_instance provider 5 "probe-1-us-central1-b" "demo"
            (config "a2-highgpu-1g" 1 2 []) (quota_zone "us-central1-b"))
     = Ok (Some {| id_name := "probe-1-us-central1-b";
                   id_zone := "us-central1-b" |}).
Proof.
  split; [lia|].
  assert (F : first_done_from provider "demo" "us-central1-b"
                (insert_operation provider "demo"
                   (config "a2-highgpu-1g" 1 2 [])
                   "probe-1-us-central1-b" (quota_zone "us-central1-b")) 0 1).
  { split; [reflexivity|]. intros [|j] Hj; [reflexivity | lia]. }
  destruct (create_single_instance_completed provider 5 "demo"
              (config "a2-highgpu-1g" 1 2 []) "probe-1-us-central1-b"
              (quota_zone "us-central1-b") 1 ltac:(lia) F)
    as (_ & _ & _ & Success & _).
  now apply Success.
Defined.

Definition record (zone name : string) : InstanceDetails :=
  {| id_name := name; id_zone := zone |}.

(** The sample provider, except that deletions in [us-central1-c] are
    refused. *)
Definition guarded : Provider :=
  {| zones_list := zones_list provider;
     machineTypes_list := machineTypes_list provider;
     acceleratorTypes_list := acceleratorTypes_list provider;
     images_getFromFamily := images_getFromFamily provider;
     instances_insert := instances_insert provider;
     instances_delete := instances_delete provider;
     zoneOperations_get := fun project zone operation k =>
       if (String.prefix "delete-" operation
           && String.eqb zone "us-central1-c")%bool
       then failed permission_error
       else zoneOperations_get provider project zone operation k |}.

(** Witness of X7: the first instance is deleted at the second status
    fetch, the deletion of the second is refused, and the third is never
    requested. *)
Lemma delete_instances_stops_at_error_witness :
  delete_instances guarded 5 "demo"
    [ record "us-central1-b" "probe-1-us-central1-b";
      record "us-central1-c" "probe-2-us-central1-c";
      record "europe-west4-a" "probe-1-europe-west4-a" ]
  = (Raise (OperationException permission_error),
     [ EvInstancesDelete "demo" "us-central1-b" "probe-1-us-central1-b";
       EvZoneOperationsGet "demo" "us-central1-b"
         "delete-probe-1-us-central1-b" running;
       EvZoneOperationsGet "demo" "us-central1-b"
         "delete-probe-1-us-central1-b" finished;
       EvInstancesDelete "demo" "us-central1-c" "probe-2-us-central1-c";
       EvZoneOperationsGet "demo" "us-central1-c"
         "delete-probe-2-us-central1-c" (failed permission_error) ]).
Proof.
  pose (steps := fun instance : InstanceDetails =>
                   if String.eqb (id_zone instance) "us-central1-c"
                   then 0%nat else 1%nat).
  assert (F : Forall (fun instance =>
                        completes guarded 5 "demo" steps instance
                        /\ op_error (delete_result guarded "demo"
                                       steps instance) = None)
                [ record "us-central1-b" "probe-1-us-central1-b" ]).
  { repeat constructor; try (unfold steps; simpl; lia);
      intros [|j] Hj; (reflexivity || (unfold steps in Hj; simpl in Hj; lia)). }
  assert (C : completes guarded 5 "demo" steps
                (record "us-central1-c" "probe-2-us-central1-c")).
  { repeat constructor; try (unfold steps; simpl; lia);
      intros j Hj; unfold steps in Hj; simpl in Hj; lia. }
  destruct (delete_instances_stops_at_error guarded 5 "demo" steps
              _ (record "us-central1-c" "probe-2-us-central1-c")
              [ record "europe-west4-a" "probe-1-europe-west4-a" ]
              permission_error F) as [_ E].
  exact (E C eq_refl).
Defined.

(** Witness of X10: the run over four selected zones returns three rows. *)
Lemma report_lists_created_and_deleted_witness :
  exists table,
    fst (main provider 5
           (config "a2-highgpu-1g" 1 2
              ["us-central1-a"; "us-central1-b"; "us-central1-c";
               "europe-west4-a"])) = Ok table
    /\ List.length table = 3%nat
    /\ Forall (fun row => fst (fst row) = region_of (snd row)) table.
Proof.
  destruct (main provider 5
              (config "a2-highgpu-1g" 1 2
                 ["us-central1-a"; "us-central1-b"; "us-central1-c";
                  "europe-west4-a"])) as [out log] eqn:E.
  assert (O : exists table, out = Ok table /\ List.length table = 3%nat).
  { apply (f_equal fst) in E. vm_compute in E. subst out.
    eexists. split; reflexivity. }
  destruct O as (table & -> & L). exists table.
  split; [reflexivity|]. split; [exact L|].
  pose proof (report_lists_created_and_deleted provider 5
                (config "a2-highgpu-1g" 1 2
                   ["us-central1-a"; "us-central1-b"; "us-central1-c";
                    "europe-west4-a"]) table) as R.
  rewrite E in R. now apply R.
Defined.

(** Witness of X13: [us-central1-a] is out of quota. *)
Lemma create_instances_exhausted_witness :
  1 <= number_of_instances (config "a2-highgpu-1g" 1 2 [])
  /\ fst (create_instances provider 5 "demo" (config "a2-highgpu-1g" 1 2 [])
            [quota_zone "us-central1-a"]) = Ok [].
Proof.
  split; [simpl; lia|].
  assert (F : Forall (out_of_capacity provider 5
                        (config "a2-highgpu-1g" 1 2 []) "demo"
                        (fun _ => 2%nat))
                [quota_zone "us-central1-a"]).
  { repeat constructor; try lia.
    - intros [|[|j]] Hj; (reflexivity || lia).
    - exists quota_error.
      exists {| code := "QUOTA_EXCEEDED";
                message := "Quota 'NVIDIA_A100_GPUS' exceeded." |}, [].
      repeat split. }
  destruct (create_instances_exhausted provider 5
              (config "a2-highgpu-1g" 1 2 []) "demo" (fun _ => 2%nat) _
              ltac:(simpl; lia) F) as [E _].
  now rewrite E.
Defined.

(** Witness of X14: a run restricted to [us-central1-a] returns an empty
    table. *)
Lemma main_exhausted_witness :
  1 <= number_of_instances (config "a2-highgpu-1g" 1 2 ["us-central1-a"])
  /\ fst (main provider 5 (config "a2-highgpu-1g" 1 2 ["us-central1-a"]))
     = Ok [].
Proof.
  split; [simpl; lia|].
  destruct (survey provider (config "a2-highgpu-1g" 1 2 ["us-central1-a"]))
    as [out front] eqn:S.
  assert (O : out = Ok [quota_zone "us-central1-a"]).
  { apply (f_equal fst) in S. vm_compute in S. now subst out. }
  subst out.
  assert (F : Forall (out_of_capacity provider 5
                        (config "a2-highgpu-1g" 1 2 ["us-central1-a"])
                        "demo" (fun _ => 2%nat))
                [quota_zone "us-central1-a"]).
  { repeat constructor; try lia.
    - intros [|[|j]] Hj; (reflexivity || lia).
    - exists quota_error.
      exists {| code := "QUOTA_EXCEEDED";
                message := "Quota 'NVIDIA_A100_GPUS' exceeded." |}, [].
      repeat split. }
  destruct (main_exhausted provider 5
              (config "a2-highgpu-1g" 1 2 ["us-central1-a"]) (fun _ => 2%nat)
              _ front ltac:(simpl; lia) S F) as [E _].
  now rewrite E.
Defined.

End FurtherRuns.
